(** * mqtt-stresser: the worker (worker.go) and the report (report.go)

    A shallow embedding of the two Go source files and the properties the
    specification states about them.

    - Go's [int] and [time.Duration] are 64-bit signed integers: they are
      modelled as [Z], and every addition and multiplication of the source
      is written with its wrap-around ([int_add], [int_mul]).
    - Go's [float64] is an interface [Float64] of the operations report.go
      uses.  Its instance [binary64] is IEEE 754 binary64 as Go computes
      (Rocq's primitive floats; no fused multiply-add, as on amd64); the
      properties of the computed numbers are proved for it, from the
      specification of the primitive floats.  The instance [exactQ], the
      rationals, only gives the exact values that the scenario of the
      specification states.
    - Go's [map[float64]T] is an association list whose keys are compared
      with the float equality [==] (so a NaN key is never found again and
      assigning to a NaN key adds an entry).
    - [Worker.Run] is a function from the worker and the answers of its
      environment (host name, TLS library, broker) to the trace of the
      actions it performs and the way it terminates. *)

From Stdlib Require Import ZArith List String Bool Lia Permutation Sorted.
From Stdlib Require Import QArith Qpower Qabs Lqa Floats.
From Stdlib Require Import Ascii.
From Stdlib Require Decimal DecimalString DecimalZ DecimalPos.
Import ListNotations.

Local Open Scope Z_scope.

(** ** Go integers *)

Module GoInt.

Definition min_int : Z := - 2 ^ 63.
Definition max_int : Z := 2 ^ 63 - 1.

(** Two's complement wrap-around of a 64-bit signed integer. *)
Definition wrap (x : Z) : Z := (x + 2 ^ 63) mod 2 ^ 64 - 2 ^ 63.

Definition int_add (x y : Z) : Z := wrap (x + y).
Definition int_mul (x y : Z) : Z := wrap (x * y).

(** Go's [/] and [%] on integers truncate towards zero. *)
Definition int_quo (x y : Z) : Z := wrap (Z.quot x y).
Definition int_rem (x y : Z) : Z := Z.rem x y.

Definition in_range (x : Z) : Prop := min_int <= x <= max_int.

End GoInt.
Export GoInt.

(** ** Go float64 *)

(** The operations of [float64] that report.go uses.  [f64_of_int] is the
    conversion [float64(i)] of an [int]; [f64_le x y] is [x <= y] and
    [y >= x]. *)
Class Float64 (F : Type) : Type := {
  f64_add : F -> F -> F;
  f64_sub : F -> F -> F;
  f64_mul : F -> F -> F;
  f64_div : F -> F -> F;
  f64_of_int : Z -> F;
  f64_eq : F -> F -> bool;
  f64_lt : F -> F -> bool;
  f64_le : F -> F -> bool
}.

(** [float64(i)] for a 64-bit [i], rounded to nearest even: the primitive
    conversion takes the absolute value, which fits 63 bits except for
    [min_int] = -2^63, a power of two. *)
Definition float64_of_int (i : Z) : float :=
  if i <? 0 then
    if i =? min_int
    then PrimFloat.opp (PrimFloat.mul (PrimFloat.of_uint63 (Uint63.of_Z (2 ^ 62))) 2%float)
    else PrimFloat.opp (PrimFloat.of_uint63 (Uint63.of_Z (- i)))
  else PrimFloat.of_uint63 (Uint63.of_Z i).

(** IEEE 754 binary64: what the Go program computes. *)
#[export] Instance binary64 : Float64 float := {
  f64_add := PrimFloat.add;
  f64_sub := PrimFloat.sub;
  f64_mul := PrimFloat.mul;
  f64_div := PrimFloat.div;
  f64_of_int := float64_of_int;
  f64_eq := PrimFloat.eqb;
  f64_lt := PrimFloat.ltb;
  f64_le := PrimFloat.leb
}.

(** Exact rational arithmetic, for the exact values that the scenario of
    the specification states; it is not what the program computes: it
    has no rounding, no NaN and no infinity, and a division by zero is
    0. *)
#[export] Instance exactQ : Float64 Q := {
  f64_add := Qplus;
  f64_sub := Qminus;
  f64_mul := Qmult;
  f64_div := Qdiv;
  f64_of_int := inject_Z;
  f64_eq := Qeq_bool;
  f64_lt := fun x y => negb (Qle_bool y x);
  f64_le := Qle_bool
}.

(** The standard library's [math.IsNaN]: [f != f]. *)
Definition IsNaN {F} `{Float64 F} (f : F) : bool := negb (f64_eq f f).

Module GoSort.
Section Float64s.
Context {F : Type} `{Float64 F}.

(** [sort.Float64Slice.Less]: NaN sorts before every other value. *)
Definition Less (x y : F) : bool :=
  f64_lt x y || (IsNaN x && negb (IsNaN y)).

Fixpoint insert (x : F) (l : list F) : list F :=
  match l with
  | [] => [x]
  | y :: l' => if Less x y then x :: l else y :: insert x l'
  end.

(** [sort.Float64s]: the slice in increasing order of [Less].  Go's sort is
    not stable; it is modelled by the insertion sort (the results differ at
    most in the order of elements that [Less] does not separate: +0 and -0,
    or two NaNs). *)
Definition Float64s (l : list F) : list F := fold_right insert [] l.

End Float64s.
End GoSort.

(** ** Go maps keyed by float64 *)

Module GoMap.
Section Map.
Context {F : Type} `{Float64 F} {V : Type}.

Definition t : Type := list (F * V).

(** [m[k]], with the zero value [d] of the element type when [k] is absent. *)
Fixpoint get (d : V) (m : t) (k : F) : V :=
  match m with
  | [] => d
  | (k', v) :: m' => if f64_eq k' k then v else get d m' k
  end.

(** [m[k] = v]: an entry whose key equals [k] is overwritten (the key too:
    Go stores the new key for float keys, as +0 == -0), otherwise an entry
    is added. *)
Fixpoint set (m : t) (k : F) (v : V) : t :=
  match m with
  | [] => [(k, v)]
  | (k', v') :: m' =>
      if f64_eq k' k then (k, v) :: m' else (k', v') :: set m' k v
  end.

(** The keys, as [for k := range m] visits them (in an order that Go leaves
    unspecified; report.go sorts them before use). *)
Definition keys (m : t) : list F := map fst m.

End Map.
End GoMap.

(** ** time.Duration *)

(** A [time.Duration] is an [int64] count of nanoseconds. *)
Definition Duration : Type := Z.
Definition Second : Duration := 1000000000.

(** [Duration.Seconds] of the standard library:
    [sec := d / Second; nsec := d % Second;
     return float64(sec) + float64(nsec)/1e9]. *)
Definition Seconds {F} `{Float64 F} (d : Duration) : F :=
  let sec := int_quo d Second in
  let nsec := int_rem d Second in
  f64_add (f64_of_int sec) (f64_div (f64_of_int nsec) (f64_of_int 1000000000)).

(** ** report.go *)

Definition ConnectFailedEvent : string := "ConnectFailed".
Definition TimeoutExceededEvent : string := "TimeoutExceeded".
Definition AbortedEvent : string := "Aborted".
Definition CompletedEvent : string := "Completed".
Definition ProgressReportEvent : string := "ProgressReport".

(** A Go [error] value: its message. *)
Definition error : Type := string.

(** [err != nil] *)
Definition notNil (err : option error) : bool :=
  match err with Some _ => true | None => false end.

Module Result.
(** Modelled from the spec: the struct [Result] is declared outside the two
    source files.  Its fields are the ones worker.go sets and report.go
    reads (the Outcome of the specification); a field that a composite
    literal leaves out has Go's zero value. *)
Record t : Type := mk {
  WorkerId : Z;
  Event : string;
  PublishTime : Duration;
  MessagesPublished : Z;
  Error : bool;
  ErrorMessage : option error
}.
End Result.

Module Summary.
Record t (F : Type) : Type := mk {
  Clients : Z;
  TotalMessages : Z;
  MessagesPublished : Z;
  Errors : Z;
  ErrorRate : F;
  Completed : Z;
  InProgress : Z;
  ConnectFailed : Z;
  TimeoutExceeded : Z;
  Aborted : Z;
  PublishPerformance : list F;
  PublishPerformanceMedian : F;
  PublishPerformanceHistogram : list (F * F)
}.
Arguments mk {F}.
Arguments Clients {F}.
Arguments TotalMessages {F}.
Arguments MessagesPublished {F}.
Arguments Errors {F}.
Arguments ErrorRate {F}.
Arguments Completed {F}.
Arguments InProgress {F}.
Arguments ConnectFailed {F}.
Arguments TimeoutExceeded {F}.
Arguments Aborted {F}.
Arguments PublishPerformance {F}.
Arguments PublishPerformanceMedian {F}.
Arguments PublishPerformanceHistogram {F}.
End Summary.

(** [s[i]] on a slice: [None] is the run-time panic "index out of range". *)
Definition index {A} (s : list A) (i : Z) : option A :=
  if i <? 0 then None else nth_error s (Z.to_nat i).

(** [len(s)]. *)
Definition len {A} (s : list A) : Z := Z.of_nat (List.length s).

Section Report.
Context {F : Type} `{Float64 F}.

(** [func median(series []float64) float64] *)
Definition median (series : list F) : option F :=
  match index series (int_quo (int_add (len series) (-1)) 2),
        index series (int_quo (len series) 2) with
  | Some a, Some b => Some (f64_div (f64_add a b) (f64_of_int 2))
  | _, _ => None
  end.

Definition nBuckets : Z := 10.

(** The values of [i] in [for i := 0; i <= nBuckets; i++]. *)
Definition bucketIndices : list Z :=
  map Z.of_nat (seq 0 (Z.to_nat (nBuckets + 1))).

(** The inner loop of [buildHistogram] for the sample [v]: [tmp] starts at
    the zero value and is overwritten by the upper bound [f1] of every
    interval [[f0, f1]] that contains [v]; the loop has no [break]. *)
Definition bucketKey (slowest steps v : F) : F :=
  fold_left
    (fun tmp i =>
       let f0 := f64_add slowest (f64_mul steps (f64_of_int i)) in
       let f1 := f64_add slowest (f64_mul steps (f64_of_int (int_add i 1))) in
       if f64_le f0 v && f64_le v f1 then f1 else tmp)
    bucketIndices (f64_of_int 0).

(** The outer loop: [bucketCount[tmp]++] for every sample. *)
Definition countBuckets (slowest steps : F) (series : list F) : list (F * Z) :=
  fold_left
    (fun bucketCount v =>
       let tmp := bucketKey slowest steps v in
       GoMap.set bucketCount tmp (int_add (GoMap.get 0 bucketCount tmp) 1))
    series [].

(** The last loop: the cumulative distribution over the sorted keys. *)
Definition accumulate (bucketCount : list (F * Z)) (total : Z) (keys : list F)
  : list (F * F) * F :=
  fold_left
    (fun '(histogram, prev) k =>
       let cur :=
         f64_add (f64_div (f64_of_int (GoMap.get 0 bucketCount k))
                          (f64_of_int total)) prev in
       (GoMap.set histogram k cur, cur))
    keys ([], f64_of_int 0).

(** [func buildHistogram(series []float64, total int) map[float64]float64];
    [None] is the panic of [series[0]] on an empty slice. *)
Definition buildHistogram (series : list F) (total : Z) : option (list (F * F)) :=
  match index series 0, index series (int_add (len series) (-1)) with
  | Some slowest, Some fastest =>
      let steps := f64_div (f64_sub fastest slowest) (f64_of_int nBuckets) in
      let bucketCount := countBuckets slowest steps series in
      let keys := GoSort.Float64s (GoMap.keys bucketCount) in
      Some (fst (accumulate bucketCount total keys))
  | _, _ => None
  end.

(** The local variables of [buildSummary] that its loop updates. *)
Record tally : Type := mkTally {
  nMessagesPublished : Z;
  nErrors : Z;
  nCompleted : Z;
  nInProgress : Z;
  nConnectFailed : Z;
  nTimeoutExceeded : Z;
  nAborted : Z;
  publishPerformance : list F
}.

Definition tally0 : tally := mkTally 0 0 0 0 0 0 0 [].

(** One iteration of [for _, r := range results]. *)
Definition tallyStep (a : tally) (r : Result.t) : tally :=
  let ev := Result.Event r in
  let isErr := Result.Error r in
  let inc (c : bool) (n : Z) := if c then int_add n 1 else n in
  let eligible := String.eqb ev CompletedEvent || String.eqb ev ProgressReportEvent in
  {| nMessagesPublished := int_add (nMessagesPublished a) (Result.MessagesPublished r);
     nErrors := inc isErr (nErrors a);
     nConnectFailed :=
       inc (isErr && String.eqb ev ConnectFailedEvent) (nConnectFailed a);
     nTimeoutExceeded :=
       inc (isErr && negb (String.eqb ev ConnectFailedEvent)
                  && String.eqb ev TimeoutExceededEvent) (nTimeoutExceeded a);
     nAborted :=
       inc (isErr && negb (String.eqb ev ConnectFailedEvent)
                  && negb (String.eqb ev TimeoutExceededEvent)
                  && String.eqb ev AbortedEvent) (nAborted a);
     nCompleted := inc (String.eqb ev CompletedEvent) (nCompleted a);
     nInProgress := inc (String.eqb ev ProgressReportEvent) (nInProgress a);
     publishPerformance :=
       if eligible
       then publishPerformance a ++
            [f64_div (f64_of_int (Result.MessagesPublished r))
                     (Seconds (Result.PublishTime r))]
       else publishPerformance a |}.

Definition ErrNoResults : error := "no results collected"%string.
Definition ErrNoFeasible : error := "no feasible results found"%string.

(** The zero value [Summary{}]. *)
Definition Summary_zero : Summary.t F :=
  Summary.mk 0 0 0 0 (f64_of_int 0) 0 0 0 0 0 [] (f64_of_int 0) [].

(** [func buildSummary(nClient int, nMessages int, results []Result)
    (Summary, error)].  The outer [None] is a run-time panic; the second
    component is the returned [error] ([None] is [nil]). *)
Definition buildSummary (nClient nMessages : Z) (results : list Result.t)
  : option (Summary.t F * option error) :=
  if len results =? 0 then Some (Summary_zero, Some ErrNoResults) else
  let totalMessages := int_mul nClient nMessages in
  let a := fold_left tallyStep results tally0 in
  if len (publishPerformance a) =? 0
  then Some (Summary_zero, Some ErrNoFeasible) else
  let sorted := GoSort.Float64s (publishPerformance a) in
  let errorRate :=
    f64_mul (f64_div (f64_of_int (nErrors a)) (f64_of_int nClient))
            (f64_of_int 100) in
  match median sorted,
        buildHistogram sorted (int_add (nCompleted a) (nInProgress a)) with
  | Some med, Some hist =>
      Some ({| Summary.Clients := nClient;
               Summary.TotalMessages := totalMessages;
               Summary.MessagesPublished := nMessagesPublished a;
               Summary.Errors := nErrors a;
               Summary.ErrorRate := errorRate;
               Summary.Completed := nCompleted a;
               Summary.InProgress := nInProgress a;
               Summary.ConnectFailed := nConnectFailed a;
               Summary.TimeoutExceeded := nTimeoutExceeded a;
               Summary.Aborted := nAborted a;
               Summary.PublishPerformance := sorted;
               Summary.PublishPerformanceMedian := med;
               Summary.PublishPerformanceHistogram := hist |}, None)
  | _, _ => None
  end.

End Report.

(** ** worker.go *)

Definition bytes : Type := list Byte.byte.

Definition PayloadGenerator : Type := Z -> string.

(** [fmt.Sprintf("%d", i)] for an [int]: the decimal digits, after a minus
    sign when [i] is negative. *)
Definition formatInt (i : Z) : string :=
  DecimalString.NilZero.string_of_int (Z.to_int i).

(** [defaultPayloadGen]: [fmt.Sprintf("this is msg #%d!", i)]. *)
Definition defaultPayloadGen : PayloadGenerator :=
  fun i => ("this is msg #" ++ formatInt i ++ "!")%string.

(** [constantPayloadGenerator] *)
Definition constantPayloadGenerator (payload : string) : PayloadGenerator :=
  fun _ => payload.

Module Worker.
Record t : Type := mk {
  WorkerId : Z;
  BrokerUrl : string;
  Username : string;
  Password : string;
  SkipTLSVerification : bool;
  NumberOfMessages : Z;
  PayloadGen : PayloadGenerator;
  Timeout : Duration;
  Retained : bool;
  PublisherQoS : Z;
  CA : bytes;
  Cert : bytes;
  Key : bytes;
  PauseBetweenMessages : Duration
}.
End Worker.

(** The fields of [tls.Config] that worker.go sets.  A certificate pool is
    the list of the PEM blocks added to it, a certificate the pair of PEM
    blocks it was read from. *)
Record tlsConfig : Type := mkTls {
  RootCAs : list bytes;
  InsecureSkipVerify : bool;
  Certificates : list (bytes * bytes)
}.

(** The fields of [mqtt.ClientOptions] that worker.go sets.  [TLSConfig]
    is a pointer to a [tls.Config] ([setSkipTLS] and [Run] hand it and the
    pointer that [NewTLSConfig] returns to the same [SetTLSConfig]); [None]
    is the nil pointer. *)
Record ClientOptions : Type := mkOptions {
  ClientID : string;
  OptUsername : string;
  OptPassword : string;
  Broker : string;
  TLSConfig : option tlsConfig
}.

(** [mqtt.NewClientOptions().SetClientID(id).SetUsername(user)
    .SetPassword(password).AddBroker(url)]: new options have no TLS
    configuration, the pointer is nil. *)
Definition NewClientOptions (id user password url : string) : ClientOptions :=
  mkOptions id user password url None.

Definition SetTLSConfig (o : ClientOptions) (c : tlsConfig) : ClientOptions :=
  mkOptions (ClientID o) (OptUsername o) (OptPassword o) (Broker o) (Some c).

(** The run-time panic of a write through a nil pointer. *)
Definition ErrNilPointer : error :=
  "runtime error: invalid memory address or nil pointer dereference"%string.

(** What a run of the worker does to the outside, in order. *)
Inductive Action : Type :=
| Connect (o : ClientOptions)
| WaitTimeout (d : Duration) (completed : bool)
| Publish (topic : string) (qos : Z) (retained : bool) (payload : string)
| Sleep (d : Duration)
| Disconnect (quiesce : Z)
| Send (r : Result.t).

(** A computation that performs actions and returns, or panics. *)
Inductive ending (A : Type) : Type :=
| Returns (a : A)
| Panics (e : error).
Arguments Returns {A}.
Arguments Panics {A}.

Definition M (A : Type) : Type := list Action * ending A.

Definition ret {A} (a : A) : M A := ([], Returns a).
Definition panic {A} (e : error) : M A := ([], Panics e).
Definition act (a : Action) : M unit := ([a], Returns tt).
Definition bind {A B} (m : M A) (k : A -> M B) : M B :=
  match m with
  | (tr, Returns a) => let (tr', r) := k a in (tr ++ tr', r)
  | (tr, Panics e) => (tr, Panics e)
  end.

Notation "x <- m ;; k" := (bind m (fun x => k))
  (at level 61, m at next level, right associativity).
Notation "m ;;; k" := (bind m (fun _ => k))
  (at level 61, right associativity).

(** [func setSkipTLS(o *mqtt.ClientOptions)]: the assignment
    [oldTLSCfg.InsecureSkipVerify = true] writes through the pointer
    [o.TLSConfig], and panics when it is nil. *)
Definition setSkipTLS (o : ClientOptions) : M ClientOptions :=
  match TLSConfig o with
  | None => panic ErrNilPointer
  | Some oldTLSCfg =>
      ret (SetTLSConfig o (mkTls (RootCAs oldTLSCfg) true
                                 (Certificates oldTLSCfg)))
  end.

(** What the worker's environment answers: the operating system, the
    random source, package fmt applied to the two name templates (declared
    outside the two source files), the TLS library, the broker and the
    clock.  [ConnectWait] and [PublishWait i] are the results of
    [token.WaitTimeout]: [true] when the operation completed within the
    timeout, [false] when the wait timed out. *)
Record Env : Type := mkEnv {
  Hostname : string * option error;
  Int31 : Z;
  FormatId : Z -> string;
  FormatTopic : string -> string -> Z -> string;
  FormatClientId : string -> string;
  AppendCertsFromPEM : bytes -> bool;
  X509KeyPair : bytes -> bytes -> option error;
  ConnectWait : bool;
  ConnectError : option error;
  PublishWait : Z -> bool;
  Since : Duration
}.

(** [func NewTLSConfig(ca, certificate, privkey []byte)], which returns a
    pointer to a [tls.Config] or an error. *)
Definition NewTLSConfig (env : Env) (ca certificate privkey : bytes)
  : tlsConfig + error :=
  if negb (AppendCertsFromPEM env ca) then inr "CA is invalid"%string else
  match X509KeyPair env certificate privkey with
  | Some err => inr err
  | None => inl (mkTls [ca] false [(certificate, privkey)])
  end.

Section Run.
Variable w : Worker.t.
Variable env : Env.

(** The publish loop [for i := 0; i < w.NumberOfMessages; i++], with [n]
    iterations left to run. *)
Fixpoint publishLoop (topicName : string) (n : nat) (i publishedCount : Z) : M Z :=
  match n with
  | O => ret publishedCount
  | S n' =>
      let text := Worker.PayloadGen w i in
      act (Publish topicName (Worker.PublisherQoS w) (Worker.Retained w) text) ;;;
      let publishedCount := int_add publishedCount 1 in
      act (WaitTimeout (Worker.Timeout w) (PublishWait env i)) ;;;
      act (Sleep (Worker.PauseBetweenMessages w)) ;;;
      publishLoop topicName n' (int_add i 1) publishedCount
  end.

(** The number of iterations of the loop: [i] runs from 0 while
    [i < NumberOfMessages]. *)
Definition iterations : nat := Z.to_nat (Worker.NumberOfMessages w).

(** [func (w *Worker) Run(ctx context.Context)]; the lines written to the
    verbose logger are left out, and [ctx] is never read. *)
Definition Run : M unit :=
  let t := Int31 env in
  let (hostname, err) := Hostname env in
  match err with
  | Some e => panic e
  | None =>
  let id_num := FormatId env (Worker.WorkerId w) in
  let topicName := FormatTopic env hostname id_num t in
  let publisherClientId := FormatClientId env id_num in
  let publisherOptions :=
    NewClientOptions publisherClientId (Worker.Username w) (Worker.Password w)
                     (Worker.BrokerUrl w) in
  publisherOptions <-
    (if Worker.SkipTLSVerification w then setSkipTLS publisherOptions
     else ret publisherOptions) ;;
  publisherOptions <-
    (if (0 <? len (Worker.CA w)) || (0 <? len (Worker.Key w)) then
       match NewTLSConfig env (Worker.CA w) (Worker.Cert w) (Worker.Key w) with
       | inr e => panic e
       | inl tlsConfig => ret (SetTLSConfig publisherOptions tlsConfig)
       end
     else ret publisherOptions) ;;
  act (Connect publisherOptions) ;;;
  act (WaitTimeout (Worker.Timeout w) (ConnectWait env)) ;;;
  if ConnectWait env && notNil (ConnectError env) then
    act (Send {| Result.WorkerId := Worker.WorkerId w;
                 Result.Event := ConnectFailedEvent;
                 Result.PublishTime := 0;
                 Result.MessagesPublished := 0;
                 Result.Error := true;
                 Result.ErrorMessage := ConnectError env |})
  else
    publishedCount <- publishLoop topicName iterations 0 0 ;;
    act (Disconnect 5) ;;;
    let publishTime := Since env in
    act (Send {| Result.WorkerId := Worker.WorkerId w;
                 Result.Event := CompletedEvent;
                 Result.PublishTime := publishTime;
                 Result.MessagesPublished := publishedCount;
                 Result.Error := false;
                 Result.ErrorMessage := None |})
  end.

End Run.

(** The results a run sent on [resultChan], in order. *)
Definition sent (tr : list Action) : list Result.t :=
  flat_map (fun a => match a with Send r => [r] | _ => [] end) tr.

(** The messages a run published. *)
Definition published (tr : list Action) : list string :=
  flat_map (fun a => match a with Publish _ _ _ p => [p] | _ => [] end) tr.

(** Whether a run touched the network. *)
Definition isNetwork (a : Action) : bool :=
  match a with
  | Connect _ | Publish _ _ _ _ | Disconnect _ => true
  | _ => false
  end.

(** ** report.go: printing *)

(** An argument of [fmt.Printf]: an [int] or a [float64]. *)
Inductive fmtArg (F : Type) : Type :=
| ArgInt (i : Z)
| ArgFloat (f : F).
Arguments ArgInt {F}.
Arguments ArgFloat {F}.

(** A call of package fmt on the standard output.  The format strings
    are the literals of the source, escapes as written there; turning a
    format and its arguments into text is left to package fmt. *)
Inductive Output (F : Type) : Type :=
| Println
| Printf (format : string) (args : list (fmtArg F)).
Arguments Println {F}.
Arguments Printf {F}.

(** The run-time panic of an index out of range. *)
Definition ErrIndex : error := "runtime error: index out of range"%string.

Section ReportOutput.
Context {F : Type} `{Float64 F}.

(** The [less] function of [printHistogram]: [res[i].key < res[j].key]. *)
Definition lessKey (a b : F * F) : bool := f64_lt (fst a) (fst b).

Fixpoint insertEntry (e : F * F) (res : list (F * F)) : list (F * F) :=
  match res with
  | [] => [e]
  | e' :: res' => if lessKey e e' then e :: res else e' :: insertEntry e res'
  end.

(** [sort.Slice(res, less)], as the insertion sort (Go's sort is not
    stable: the results can differ in the order of entries that [less]
    does not separate). *)
Definition sortSlice (res : list (F * F)) : list (F * F) :=
  fold_right insertEntry [] res.

(** [func printHistogram(histogram map[float64]float64)]; the argument
    lists the entries in the order in which [range] visits the map. *)
Definition printHistogram (histogram : list (F * F)) : list (Output F) :=
  map (fun r =>
         Printf "  < %.0f msg/sec  %.0f%%\n"
                [ArgFloat (fst r);
                 ArgFloat (f64_mul (snd r) (f64_of_int 100))])
      (sortSlice histogram).

(** [float64(a) / float64(b) * 100] *)
Definition percent (a b : Z) : F :=
  f64_mul (f64_div (f64_of_int a) (f64_of_int b)) (f64_of_int 100).

(** What [printSummary] prints before it reads the samples. *)
Definition printCounts (summary : Summary.t F) : list (Output F) :=
  [ Println;
    Printf "# Configuration\n" [];
    Printf "Concurrent Clients: %d\n" [ArgInt (Summary.Clients summary)];
    Printf "Messages / Client:  %d\n" [ArgInt (Summary.TotalMessages summary)];
    Println;
    Printf "# Results\n" [];
    Printf "Published Messages: %d (%.0f%%)\n"
           [ArgInt (Summary.MessagesPublished summary);
            ArgFloat (percent (Summary.MessagesPublished summary)
                              (Summary.TotalMessages summary))];
    Printf "Completed:          %d (%.0f%%)\n"
           [ArgInt (Summary.Completed summary);
            ArgFloat (percent (Summary.Completed summary)
                              (Summary.Clients summary))];
    Printf "Errors:             %d (%.0f%%)\n"
           [ArgInt (Summary.Errors summary);
            ArgFloat (percent (Summary.Errors summary)
                              (Summary.Clients summary))] ] ++
  (if 0 <? Summary.Errors summary then
     [ Printf "- ConnectFailed:      %d (%.0f%%)\n"
              [ArgInt (Summary.ConnectFailed summary);
               ArgFloat (percent (Summary.ConnectFailed summary)
                                 (Summary.Errors summary))];
       Printf "- TimeoutExceeded:    %d (%.0f%%)\n"
              [ArgInt (Summary.TimeoutExceeded summary);
               ArgFloat (percent (Summary.TimeoutExceeded summary)
                                 (Summary.Errors summary))];
       Printf "- Aborted:            %d (%.0f%%)\n"
              [ArgInt (Summary.InProgress summary);
               ArgFloat (percent (Summary.InProgress summary)
                                 (Summary.Clients summary))] ]
   else []) ++
  [ Println;
    Printf "# Publishing Throughput\n" [] ].

(** [func printSummary(summary Summary)]: what it prints and how it ends;
    [histogram] lists the entries of [summary.PublishPerformanceHistogram]
    in the order in which [range] visits them.  The arguments of a call
    are evaluated before it prints, so an index out of range panics
    before the line is written. *)
Definition printSummaryIn (summary : Summary.t F) (histogram : list (F * F))
  : list (Output F) * ending unit :=
  let series := Summary.PublishPerformance summary in
  match index series (int_add (len series) (-1)) with
  | None => (printCounts summary, Panics ErrIndex)
  | Some fastest =>
  match index series 0 with
  | None =>
      (printCounts summary ++
       [Printf "Fastest: %.0f msg/sec\n" [ArgFloat fastest]],
       Panics ErrIndex)
  | Some slowest =>
      (printCounts summary ++
       [ Printf "Fastest: %.0f msg/sec\n" [ArgFloat fastest];
         Printf "Slowest: %.0f msg/sec\n" [ArgFloat slowest];
         Printf "Median: %.0f msg/sec\n"
                [ArgFloat (Summary.PublishPerformanceMedian summary)];
         Println ] ++
       printHistogram histogram ++
       [ Println ],
       Returns tt)
  end
  end.

(** [printSummary] when [range] visits the histogram in the order of the
    list that holds it. *)
Definition printSummary (summary : Summary.t F)
  : list (Output F) * ending unit :=
  printSummaryIn summary (Summary.PublishPerformanceHistogram summary).

End ReportOutput.

(** ** The order of float64 values *)

(** A position in the order of [sort.Float64s] for a binary64 value: NaN
    first, then minus infinity, the negative numbers, the two zeros, the
    positive numbers, plus infinity.  Within the finite numbers of one sign
    the exponent decides before the mantissa. *)
Definition rank (x : spec_float) : Z * (Z * Z) :=
  match x with
  | S754_nan => (-3, (0, 0))
  | S754_infinity true => (-2, (0, 0))
  | S754_finite true m e => (-1, (- e, Zneg m))
  | S754_zero _ => (0, (0, 0))
  | S754_finite false m e => (1, (e, Zpos m))
  | S754_infinity false => (2, (0, 0))
  end.

Definition lex (a b : Z * (Z * Z)) : comparison :=
  match fst a ?= fst b with
  | Eq => match fst (snd a) ?= fst (snd b) with
          | Eq => snd (snd a) ?= snd (snd b)
          | c => c
          end
  | c => c
  end.

Definition lexlt (a b : Z * (Z * Z)) : Prop :=
  fst a < fst b \/
  (fst a = fst b /\
   (fst (snd a) < fst (snd b) \/
    (fst (snd a) = fst (snd b) /\ snd (snd a) < snd (snd b)))).

Definition frank (x : float) : Z * (Z * Z) := rank (Prim2SF x).

(** What the generic development needs of the comparisons of a [Float64]
    instance; the binary64 instance has it. *)
Class Float64Laws (F : Type) `{Float64 F} : Prop := {
  f64_eq_sym : forall x y, f64_eq x y = true -> f64_eq y x = true;
  f64_eq_trans : forall x y z,
      f64_eq x y = true -> f64_eq y z = true -> f64_eq x z = true;
  f64_le_notnan : forall x y,
      f64_le x y = true -> f64_eq x x = true /\ f64_eq y y = true;
  f64_zero_notnan : f64_eq (f64_of_int 0) (f64_of_int 0) = true;
  Less_asym : forall x y, GoSort.Less x y = true -> GoSort.Less y x = false;
  Less_negtrans : forall x y z,
      GoSort.Less x y = false -> GoSort.Less y z = false ->
      GoSort.Less x z = false;
  Less_eq : forall x y, f64_eq x y = true -> GoSort.Less x y = false;
  Less_total : forall x y,
      f64_eq x x = true -> f64_eq y y = true ->
      GoSort.Less x y = false -> GoSort.Less y x = false -> f64_eq x y = true;
  notLess_le : forall x y,
      f64_eq x x = true -> f64_eq y y = true ->
      GoSort.Less y x = false -> f64_le x y = true
}.

(** ** The vocabulary of the properties *)

(** A result whose event is Completed or ProgressReport gives a throughput
    sample. *)
Definition eligible (r : Result.t) : bool :=
  String.eqb (Result.Event r) CompletedEvent ||
  String.eqb (Result.Event r) ProgressReportEvent.

Definition hasEvent (ev : string) (r : Result.t) : bool :=
  String.eqb (Result.Event r) ev.

Definition errorWith (ev : string) (r : Result.t) : bool :=
  Result.Error r && String.eqb (Result.Event r) ev.

(** The number of elements of [l] that satisfy [p]. *)
Definition count {A} (p : A -> bool) (l : list A) : Z := len (filter p l).

(** The published counts added up the way Go adds them. *)
Definition sumPublished (l : list Result.t) : Z :=
  fold_left (fun s r => int_add s (Result.MessagesPublished r)) l 0.

Section Vocabulary.
Context {F : Type} `{Float64 F}.

(** In increasing order of [Less]: no element is [Less] than an earlier one. *)
Definition ascending (l : list F) : Prop :=
  StronglySorted (fun a b => GoSort.Less b a = false) l.

(** No two keys of the list are equal (a NaN differs from itself). *)
Fixpoint distinct (l : list F) : Prop :=
  match l with
  | [] => True
  | x :: l' => Forall (fun y => f64_eq x y = false) l' /\ distinct l'
  end.

(** The throughput sample of a result: published count / seconds. *)
Definition sample (r : Result.t) : F :=
  f64_div (f64_of_int (Result.MessagesPublished r))
          (Seconds (Result.PublishTime r)).

(** What the loop of [buildSummary] leaves in its variables. *)
Definition tallyOf (results : list Result.t) : tally :=
  {| nMessagesPublished := sumPublished results;
     nErrors := count Result.Error results;
     nCompleted := count (hasEvent CompletedEvent) results;
     nInProgress := count (hasEvent ProgressReportEvent) results;
     nConnectFailed := count (errorWith ConnectFailedEvent) results;
     nTimeoutExceeded := count (errorWith TimeoutExceededEvent) results;
     nAborted := count (errorWith AbortedEvent) results;
     publishPerformance := map sample (filter eligible results) |}.

(** The histogram of a non-empty series, in terms of its three loops. *)
Definition histogramOf (series : list F) (total : Z) (d : F) : list (F * F) :=
  let slowest := nth 0 series d in
  let fastest := nth (List.length series - 1) series d in
  let steps := f64_div (f64_sub fastest slowest) (f64_of_int nBuckets) in
  let bucketCount := countBuckets slowest steps series in
  fst (accumulate bucketCount total (GoSort.Float64s (GoMap.keys bucketCount))).

(** The summary that [buildSummary] returns when it returns one. *)
Definition summaryOf (nClient nMessages : Z) (results : list Result.t)
  (med : F) (hist : list (F * F)) : Summary.t F :=
  {| Summary.Clients := nClient;
     Summary.TotalMessages := int_mul nClient nMessages;
     Summary.MessagesPublished := sumPublished results;
     Summary.Errors := count Result.Error results;
     Summary.ErrorRate :=
       f64_mul (f64_div (f64_of_int (count Result.Error results))
                        (f64_of_int nClient)) (f64_of_int 100);
     Summary.Completed := count (hasEvent CompletedEvent) results;
     Summary.InProgress := count (hasEvent ProgressReportEvent) results;
     Summary.ConnectFailed := count (errorWith ConnectFailedEvent) results;
     Summary.TimeoutExceeded := count (errorWith TimeoutExceededEvent) results;
     Summary.Aborted := count (errorWith AbortedEvent) results;
     Summary.PublishPerformance :=
       GoSort.Float64s (map sample (filter eligible results));
     Summary.PublishPerformanceMedian := med;
     Summary.PublishPerformanceHistogram := hist |}.

(** The number of samples of [series] whose bucket key equals [k]. *)
Definition inBucket (slowest steps : F) (series : list F) (k : F) : Z :=
  count (fun x => f64_eq (bucketKey slowest steps x) k) series.

(** The entries that the last loop of [buildHistogram] adds, for keys not
    yet in the map. *)
Fixpoint cumulative (bucketCount : list (F * Z)) (total : Z) (prev : F)
  (keys : list F) : list (F * F) :=
  match keys with
  | [] => []
  | k :: keys' =>
      let cur :=
        f64_add (f64_div (f64_of_int (GoMap.get 0 bucketCount k))
                         (f64_of_int total)) prev in
      (k, cur) :: cumulative bucketCount total cur keys'
  end.

(** The bucket width that [buildHistogram] computes for a series. *)
Definition stepsOf (series : list F) (d : F) : F :=
  f64_div (f64_sub (nth (List.length series - 1) series d) (nth 0 series d))
          (f64_of_int nBuckets).

(** The number of samples that [buildHistogram] counts under the key [k]. *)
Definition samplesIn (series : list F) (d : F) (k : F) : Z :=
  inBucket (nth 0 series d) (stepsOf series d) series k.

Definition bucketCountOf (series : list F) (d : F) : list (F * Z) :=
  countBuckets (nth 0 series d) (stepsOf series d) series.

End Vocabulary.

(** The exact value of a finite binary64 number. *)
Definition exactValue (x : float) : option Q :=
  match Prim2SF x with
  | S754_zero _ => Some 0%Q
  | S754_finite s m e =>
      Some ((if s then -1 else 1) * inject_Z (Z.pos m) * Qpower 2 e)%Q
  | _ => None
  end.

(** The scenario of the specification: three clients, ten messages each;
    two workers complete in one and in two seconds, the third fails to
    connect. *)
Definition scenario : list Result.t :=
  [ Result.mk 0 CompletedEvent (1 * Second) 10 false None;
    Result.mk 1 CompletedEvent (2 * Second) 10 false None;
    Result.mk 2 ConnectFailedEvent 0 0 true (Some "refused"%string) ].

(** The summary of the scenario, as binary64 computes it. *)
Definition scenarioSummary : Summary.t float :=
  {| Summary.Clients := 3;
     Summary.TotalMessages := 30;
     Summary.MessagesPublished := 20;
     Summary.Errors := 1;
     Summary.ErrorRate := 0x1.0aaaaaaaaaaaap+5%float;
     Summary.Completed := 2;
     Summary.InProgress := 0;
     Summary.ConnectFailed := 1;
     Summary.TimeoutExceeded := 0;
     Summary.Aborted := 0;
     Summary.PublishPerformance := [5%float; 10%float];
     Summary.PublishPerformanceMedian := 7.5%float;
     Summary.PublishPerformanceHistogram :=
       [(5.5%float, 0.5%float); (10.5%float, 1%float)] |}.

(** The numbers [i, i+1, ..., i+n-1]. *)
Fixpoint indices (i : Z) (n : nat) : list Z :=
  match n with
  | O => []
  | S n' => i :: indices (i + 1) n'
  end.

Section RunVocabulary.
Variable w : Worker.t.
Variable env : Env.

(** The actions of one iteration of the publish loop. *)
Definition iteration (topicName : string) (i : Z) : list Action :=
  [ Publish topicName (Worker.PublisherQoS w) (Worker.Retained w)
            (Worker.PayloadGen w i);
    WaitTimeout (Worker.Timeout w) (PublishWait env i);
    Sleep (Worker.PauseBetweenMessages w) ].

(** The worker gets as far as connecting: the host name is known,
    SkipTLSVerification is not set (with it [setSkipTLS] panics on the nil
    TLS configuration of the new options) and, if CA or key material is
    configured, the TLS configuration is built. *)
Definition startsUp : Prop :=
  snd (Hostname env) = None /\
  Worker.SkipTLSVerification w = false /\
  ((0 <? len (Worker.CA w)) || (0 <? len (Worker.Key w)) = true ->
   exists c, NewTLSConfig env (Worker.CA w) (Worker.Cert w) (Worker.Key w)
             = inl c).

(** The condition of the [if] after [publisher.Connect()]. *)
Definition connectFailed : bool :=
  ConnectWait env && notNil (ConnectError env).

Definition topicOf : string :=
  FormatTopic env (fst (Hostname env)) (FormatId env (Worker.WorkerId w))
              (Int31 env).

Definition completedResult (publishedCount : Z) : Result.t :=
  {| Result.WorkerId := Worker.WorkerId w;
     Result.Event := CompletedEvent;
     Result.PublishTime := Since env;
     Result.MessagesPublished := publishedCount;
     Result.Error := false;
     Result.ErrorMessage := None |}.

Definition connectFailedResult : Result.t :=
  {| Result.WorkerId := Worker.WorkerId w;
     Result.Event := ConnectFailedEvent;
     Result.PublishTime := 0;
     Result.MessagesPublished := 0;
     Result.Error := true;
     Result.ErrorMessage := ConnectError env |}.

End RunVocabulary.

(** A worker with two messages and no TLS material. *)
Definition worker2 : Worker.t :=
  Worker.mk 7 "tcp://broker:1883" "user" "secret" false 2
            (constantPayloadGenerator "payload") (5 * Second) false 1
            [] [] [] 0.

(** An environment in which the wait for the connect attempt times out. *)
Definition envConnectTimeout : Env :=
  mkEnv ("host"%string, None) 42 (fun _ => "00000000000007"%string)
        (fun _ _ _ => "topic"%string) (fun _ => "client"%string)
        (fun _ => true) (fun _ _ => None)
        false None (fun _ => true) (3 * Second).

(** An environment in which the connect attempt succeeds and every wait
    for a publish acknowledgment times out. *)
Definition envAckTimeout : Env :=
  mkEnv ("host"%string, None) 42 (fun _ => "00000000000007"%string)
        (fun _ _ _ => "topic"%string) (fun _ => "client"%string)
        (fun _ => true) (fun _ _ => None)
        true None (fun _ => false) (3 * Second).

(** A worker with CA material. *)
Definition workerTLS : Worker.t :=
  Worker.mk 7 "ssl://broker:8883" "user" "secret" false 2
            (constantPayloadGenerator "payload") (5 * Second) false 1
            [Byte.x2d] [] [] 0.


(** ** Further vocabulary: the worker *)

(** Whether the worker has CA or key material:
    [len(w.CA) > 0 || len(w.Key) > 0]. *)
Definition tlsMaterial (w : Worker.t) : bool :=
  (0 <? len (Worker.CA w)) || (0 <? len (Worker.Key w)).

(** The options of the publisher before the TLS configuration is built. *)
Definition plainOptions (w : Worker.t) (env : Env) : ClientOptions :=
  NewClientOptions (FormatClientId env (FormatId env (Worker.WorkerId w)))
                   (Worker.Username w) (Worker.Password w)
                   (Worker.BrokerUrl w).

(** What a run does once it is connected or has given up connecting. *)
Definition afterConnect (w : Worker.t) (env : Env) : list Action :=
  if connectFailed env then [Send (connectFailedResult w env)]
  else flat_map (iteration w env (topicOf w env)) (indices 0 (iterations w)) ++
       [Disconnect 5;
        Send (completedResult w env (Z.of_nat (iterations w)))].

(** A worker with TLS material and SkipTLSVerification set. *)
Definition workerSkipTLS : Worker.t :=
  Worker.mk 7 "ssl://broker:8883" "user" "secret" true 2
            (constantPayloadGenerator "payload") (5 * Second) false 1
            [Byte.x2d] [Byte.x2d] [Byte.x2d] 0.

(** A worker with three messages and the default payloads. *)
Definition worker3 : Worker.t :=
  Worker.mk 1 "tcp://broker:1883" "user" "secret" false 3
            defaultPayloadGen (5 * Second) false 1 [] [] [] 0.

(** The results that the runs of some workers send, one run after the
    other. *)
Definition outcomes (runs : list (Worker.t * Env)) : list Result.t :=
  flat_map (fun r => sent (fst (Run (fst r) (snd r)))) runs.

(** The result of a run that starts up. *)
Definition resultOf (r : Worker.t * Env) : Result.t :=
  if connectFailed (snd r) then connectFailedResult (fst r) (snd r)
  else completedResult (fst r) (snd r) (Worker.NumberOfMessages (fst r)).

(** A run that starts up with a message count that is not negative. *)
Definition regular (r : Worker.t * Env) : Prop :=
  startsUp (fst r) (snd r) /\
  0 <= Worker.NumberOfMessages (fst r) <= max_int.

(** ** Further vocabulary: the report *)

(** The line that [printHistogram] prints for an entry. *)
Definition histogramLine {F : Type} `{Float64 F} (r : F * F) : Output F :=
  Printf "  < %.0f msg/sec  %.0f%%\n"
         [ArgFloat (fst r); ArgFloat (f64_mul (snd r) (f64_of_int 100))].

(** Whether the interval [i] of the scan contains the sample. *)
Definition inInterval {F : Type} `{Float64 F} (slowest steps v : F) (i : Z)
  : bool :=
  f64_le (f64_add slowest (f64_mul steps (f64_of_int i))) v &&
  f64_le v (f64_add slowest (f64_mul steps (f64_of_int (int_add i 1)))).

(** The upper bound of the interval [i]. *)
Definition upperBound {F : Type} `{Float64 F} (slowest steps : F) (i : Z)
  : F :=
  f64_add slowest (f64_mul steps (f64_of_int (int_add i 1))).

(** ** The values of binary64 numbers *)

(** [2^e] and the value [m * 2^e] of a mantissa and an exponent. *)
Definition pow2 (e : Z) : Q := Qpower 2 e.

Definition binval (m e : Z) : Q := (inject_Z m * pow2 e)%Q.

(** The exponent of the binary64 numbers of a magnitude. *)
Definition fexp64 (e : Z) : Z := Z.max (e - 53) (-1074).

(** The value [v] was rounded to the float of mantissa [m'] and exponent
    [e']: one of the two neighbours of [v] on the grid of a normal
    exponent. *)
Definition rounds (v : Q) (m' : positive) (e' : Z) : Prop :=
  exists m1 e1,
    2 ^ 52 <= m1 < 2 ^ 53 /\
    (binval m1 e1 <= v < binval (m1 + 1) e1)%Q /\
    (binval (Zpos m') e' == binval m1 e1 \/ binval (Zpos m') e' == binval (m1 + 1) e1)%Q.

(** A normal positive binary64 number and its value. *)
Definition normal64 (x : float) (V : Q) : Prop :=
  exists m e, Prim2SF x = S754_finite false m e /\
              2 ^ 52 <= Zpos m < 2 ^ 53 /\ (V == binval (Zpos m) e)%Q.

(** The relative error of a rounding. *)
Definition u52 : Q := 1 # 4503599627370496.

(** Zero or a normal positive number. *)
Definition nonneg64 (x : float) (V : Q) : Prop :=
  (Prim2SF x = S754_zero false /\ (V == 0)%Q) \/ normal64 x V.

(** The keys that the scan of [buildHistogram] can give a sample: the zero
    value and the upper bounds of the eleven intervals. *)
Definition candidates {F : Type} `{Float64 F} (slowest steps : F) : list F :=
  f64_of_int 0 :: map (upperBound slowest steps) (indices 0 11).

(** * Properties *)

(** ** Go integers *)

Lemma wrap_in_range x : in_range x -> wrap x = x.
Proof.
  unfold in_range, min_int, max_int, wrap. intros Hx.
  rewrite Z.mod_small; lia.
Qed.

Lemma wrap_range x : in_range (wrap x).
Proof.
  unfold in_range, min_int, max_int, wrap.
  pose proof (Z.mod_pos_bound (x + 2 ^ 63) (2 ^ 64) ltac:(lia)). lia.
Qed.

Lemma int_add_small x y : in_range (x + y) -> int_add x y = x + y.
Proof. apply wrap_in_range. Qed.

Lemma len_nonneg {A} (s : list A) : 0 <= len s.
Proof. unfold len. lia. Qed.

Lemma len_app {A} (s t : list A) : len (s ++ t) = len s + len t.
Proof. unfold len. rewrite length_app. lia. Qed.

Lemma index_Some {A} (s : list A) i :
  0 <= i < len s -> exists a, index s i = Some a.
Proof.
  unfold index, len. intros Hi.
  destruct (Z.ltb_spec i 0); [lia|].
  destruct (nth_error s (Z.to_nat i)) eqn:E; eauto.
  apply nth_error_None in E. lia.
Qed.

(** ** The order of binary64 values *)

Lemma lex_spec a b : CompareSpec (a = b) (lexlt a b) (lexlt b a) (lex a b).
Proof.
  destruct a as [a1 [a2 a3]], b as [b1 [b2 b3]]. unfold lex, lexlt. simpl.
  destruct (Z.compare_spec a1 b1); [|constructor; lia|constructor; lia].
  destruct (Z.compare_spec a2 b2); [|constructor; lia|constructor; lia].
  destruct (Z.compare_spec a3 b3); constructor; subst; auto; lia.
Qed.

Lemma SFcompare_rank x y :
  SFcompare x y =
  match x, y with
  | S754_nan, _ | _, S754_nan => None
  | _, _ => Some (lex (rank x) (rank y))
  end.
Proof.
  destruct x as [[|]|[|]| |[|] m1 e1], y as [[|]|[|]| |[|] m2 e2];
    try reflexivity; unfold lex; simpl.
  rewrite Z.compare_opp, (Z.compare_antisym e1 e2).
  destruct (e1 ?= e2); reflexivity.
Qed.

Lemma rank_lower s : -3 <= fst (rank s).
Proof. destruct s as [[|]|[|]| |[|] m e]; simpl; lia. Qed.

Lemma rank_nan s : fst (rank s) = -3 <-> s = S754_nan.
Proof.
  destruct s as [[|]|[|]| |[|] m e]; simpl; split; intros E;
    try discriminate; try reflexivity; lia.
Qed.

Lemma SFcompare_cases x y :
  (SFcompare x y = None /\ (fst (rank x) = -3 \/ fst (rank y) = -3)) \/
  (SFcompare x y = Some (lex (rank x) (rank y)) /\
   fst (rank x) <> -3 /\ fst (rank y) <> -3).
Proof.
  rewrite SFcompare_rank.
  destruct x as [[|]|[|]| |[|] m1 e1], y as [[|]|[|]| |[|] m2 e2];
    simpl; first [ left; split; [reflexivity | lia]
                 | right; split; [reflexivity | lia] ].
Qed.

Lemma eqb_frank x y :
  PrimFloat.eqb x y = true <->
  fst (frank x) <> -3 /\ fst (frank y) <> -3 /\ frank x = frank y.
Proof.
  rewrite FloatAxioms.eqb_spec. unfold SFeqb, frank.
  destruct (SFcompare_cases (Prim2SF x) (Prim2SF y)) as [[-> Hn]|[-> [Hx Hy]]].
  - split; [discriminate | lia].
  - destruct (lex_spec (rank (Prim2SF x)) (rank (Prim2SF y))) as [E|L|L];
      split; try discriminate; auto.
    + intros (_ & _ & E). rewrite E in L. unfold lexlt in L. lia.
    + intros (_ & _ & E). rewrite E in L. unfold lexlt in L. lia.
Qed.

Lemma ltb_frank x y :
  PrimFloat.ltb x y = true <->
  fst (frank x) <> -3 /\ fst (frank y) <> -3 /\ lexlt (frank x) (frank y).
Proof.
  rewrite FloatAxioms.ltb_spec. unfold SFltb, frank.
  destruct (SFcompare_cases (Prim2SF x) (Prim2SF y)) as [[-> Hn]|[-> [Hx Hy]]].
  - split; [discriminate | lia].
  - destruct (lex_spec (rank (Prim2SF x)) (rank (Prim2SF y))) as [E|L|L];
      split; try discriminate; auto.
    + intros (_ & _ & L). rewrite E in L. unfold lexlt in L. lia.
    + intros (_ & _ & L'). unfold lexlt in L, L'. lia.
Qed.

Lemma leb_frank x y :
  PrimFloat.leb x y = true <->
  fst (frank x) <> -3 /\ fst (frank y) <> -3 /\
  (lexlt (frank x) (frank y) \/ frank x = frank y).
Proof.
  rewrite FloatAxioms.leb_spec. unfold SFleb, frank.
  destruct (SFcompare_cases (Prim2SF x) (Prim2SF y)) as [[-> Hn]|[-> [Hx Hy]]].
  - split; [discriminate | lia].
  - destruct (lex_spec (rank (Prim2SF x)) (rank (Prim2SF y))) as [E|L|L];
      split; try discriminate; auto.
    intros (_ & _ & [L'|E]).
    + unfold lexlt in L, L'. lia.
    + rewrite E in L. unfold lexlt in L. lia.
Qed.

Lemma notnan_frank x : PrimFloat.eqb x x = true <-> fst (frank x) <> -3.
Proof. rewrite eqb_frank. tauto. Qed.

Lemma Less_frank (x y : float) :
  GoSort.Less x y = true <-> lexlt (frank x) (frank y).
Proof.
  unfold GoSort.Less, IsNaN. cbn [f64_lt f64_eq binary64].
  rewrite orb_true_iff, andb_true_iff, !negb_true_iff, negb_false_iff.
  rewrite ltb_frank, notnan_frank.
  pose proof (rank_lower (Prim2SF x) : -3 <= fst (frank x)).
  pose proof (rank_lower (Prim2SF y) : -3 <= fst (frank y)).
  split.
  - intros [(_ & _ & L)|[Nx Ny]]; [exact L|].
    apply not_true_iff_false in Nx. rewrite notnan_frank in Nx.
    unfold lexlt. lia.
  - intros L.
    destruct (Z.eq_dec (fst (frank x)) (-3)) as [Ex|Nx].
    + right. split; [apply not_true_iff_false; rewrite notnan_frank; lia|].
      intros Ey. unfold frank in Ex, Ey. apply rank_nan in Ex, Ey.
      unfold lexlt, frank in L. rewrite Ex, Ey in L. simpl in L. lia.
    + left. repeat split; auto. unfold lexlt in L. lia.
Qed.

Lemma Less_frank_false (x y : float) :
  GoSort.Less x y = false <-> ~ lexlt (frank x) (frank y).
Proof. rewrite <- Less_frank. symmetry. apply not_true_iff_false. Qed.

Lemma frank_eq_components (a b : Z * (Z * Z)) :
  a = b <-> fst a = fst b /\ fst (snd a) = fst (snd b) /\ snd (snd a) = snd (snd b).
Proof.
  destruct a as [a1 [a2 a3]], b as [b1 [b2 b3]]. simpl.
  split; [intros E; inversion E; auto | intros (-> & -> & ->); reflexivity].
Qed.

#[export] Instance binary64_laws : Float64Laws float.
Proof.
  constructor; cbn [f64_eq f64_le f64_of_int binary64].
  - intros x y. rewrite !eqb_frank. intuition congruence.
  - intros x y z. rewrite !eqb_frank. intuition congruence.
  - intros x y. rewrite leb_frank, !notnan_frank. tauto.
  - vm_compute. reflexivity.
  - intros x y. rewrite Less_frank, Less_frank_false. unfold lexlt. lia.
  - intros x y z. rewrite !Less_frank_false. unfold lexlt. lia.
  - intros x y. rewrite eqb_frank, Less_frank_false.
    intros (_ & _ & E). rewrite E. unfold lexlt. lia.
  - intros x y. rewrite !notnan_frank, !Less_frank_false, eqb_frank.
    intros Hx Hy L1 L2. repeat split; auto.
    apply frank_eq_components. unfold lexlt in *. lia.
  - intros x y. rewrite !notnan_frank, Less_frank_false, leb_frank.
    intros Hx Hy L. repeat split; auto.
    destruct (lex_spec (frank x) (frank y)) as [E|L'|L']; auto. tauto.
Qed.

(** ** sort.Float64s *)

Section SortFacts.
Context {F : Type} `{Float64Laws F}.

Lemma insert_perm x l : Permutation (GoSort.insert x l) (x :: l).
Proof.
  induction l as [|y l IH]; simpl; [reflexivity|].
  destruct (GoSort.Less x y); [reflexivity|].
  rewrite IH. apply perm_swap.
Qed.

Lemma Float64s_perm l : Permutation (GoSort.Float64s l) l.
Proof.
  induction l as [|x l IH]; simpl; [reflexivity|].
  rewrite insert_perm. constructor. exact IH.
Qed.

Lemma Float64s_length l : List.length (GoSort.Float64s l) = List.length l.
Proof. apply Permutation_length, Float64s_perm. Qed.

Lemma insert_ascending x l : ascending l -> ascending (GoSort.insert x l).
Proof.
  unfold ascending. induction l as [|y l IH]; simpl; intros S.
  - repeat constructor.
  - inversion S as [|? ? S' Hy]; subst.
    destruct (GoSort.Less x y) eqn:E.
    + constructor; [exact S|]. constructor.
      * apply Less_asym. exact E.
      * rewrite Forall_forall in *. intros z Hz.
        apply Less_negtrans with y; [apply Hy; exact Hz|].
        apply Less_asym. exact E.
    + constructor; [apply IH; exact S'|].
      rewrite Forall_forall in *. intros z Hz.
      apply (Permutation_in _ (insert_perm x l)) in Hz.
      destruct Hz as [<-|Hz]; [exact E | apply Hy; exact Hz].
Qed.

Lemma Float64s_ascending l : ascending (GoSort.Float64s l).
Proof.
  induction l as [|x l IH]; simpl; [constructor|].
  apply insert_ascending. exact IH.
Qed.

(** Without NaN, increasing order is the order of [<=]. *)
Lemma ascending_le l :
  Forall (fun x => IsNaN x = false) l ->
  ascending l -> StronglySorted (fun a b => f64_le a b = true) l.
Proof.
  unfold ascending. induction 2 as [|x l S IH Hx]; [constructor|].
  inversion H1 as [|? ? Nx Nl]; subst.
  constructor; [apply IH; exact Nl|].
  rewrite Forall_forall in *. intros z Hz.
  apply notLess_le; [| |apply Hx; exact Hz].
  - unfold IsNaN in Nx. apply negb_false_iff. exact Nx.
  - specialize (Nl z Hz). unfold IsNaN in Nl. apply negb_false_iff. exact Nl.
Qed.

End SortFacts.

(** ** buildSummary: the loop over the results *)

Lemma count_app {A} (p : A -> bool) l r :
  count p (l ++ [r]) = count p l + (if p r then 1 else 0).
Proof.
  unfold count. rewrite filter_app, len_app. simpl.
  destruct (p r); reflexivity.
Qed.

Lemma count_cons {A} (p : A -> bool) r l :
  count p (r :: l) = (if p r then 1 else 0) + count p l.
Proof.
  unfold count, len. cbn [filter]. destruct (p r); [|lia].
  cbn [List.length]. rewrite Nat2Z.inj_succ. lia.
Qed.

Lemma count_bounds {A} (p : A -> bool) l : 0 <= count p l <= len l.
Proof.
  unfold count, len. pose proof (filter_length_le p l). lia.
Qed.

Lemma count_le {A} (p q : A -> bool) l :
  (forall x, p x = true -> q x = true) -> count p l <= count q l.
Proof.
  intros Hpq. unfold count, len.
  induction l as [|x l IH]; simpl; [lia|].
  destruct (p x) eqn:Ep.
  - rewrite (Hpq x Ep). simpl. lia.
  - destruct (q x); simpl; lia.
Qed.

Lemma count_pos_existsb {A} (p : A -> bool) l :
  0 < count p l <-> existsb p l = true.
Proof.
  unfold count, len. induction l as [|x l IH]; simpl.
  - split; [lia | discriminate].
  - destruct (p x); simpl; [split; [reflexivity | lia] | exact IH].
Qed.

Lemma events_distinct ev :
  (String.eqb ev ConnectFailedEvent = true ->
   String.eqb ev TimeoutExceededEvent = false /\
   String.eqb ev AbortedEvent = false) /\
  (String.eqb ev TimeoutExceededEvent = true ->
   String.eqb ev AbortedEvent = false).
Proof.
  split; intros E; apply String.eqb_eq in E; subst; split || idtac;
    reflexivity.
Qed.

Section SummaryFacts.
Context {F : Type} `{Float64 F}.

Lemma inc_count (p : Result.t -> bool) l r :
  len (l ++ [r]) <= max_int ->
  (if p r then int_add (count p l) 1 else count p l) = count p (l ++ [r]).
Proof.
  intros Hl. rewrite count_app. rewrite len_app in Hl.
  pose proof (count_bounds p l). change (len [r]) with 1 in Hl.
  destruct (p r); [|lia].
  apply int_add_small. unfold in_range, min_int, max_int in *. lia.
Qed.

Lemma tallyStep_tallyOf l r :
  len (l ++ [r]) <= max_int ->
  tallyStep (tallyOf l) r = tallyOf (l ++ [r]).
Proof.
  intros Hl. unfold tallyStep, tallyOf. cbn [nMessagesPublished nErrors
    nCompleted nInProgress nConnectFailed nTimeoutExceeded nAborted
    publishPerformance].
  f_equal.
  - unfold sumPublished. rewrite fold_left_app. reflexivity.
  - apply (inc_count Result.Error). exact Hl.
  - apply (inc_count (hasEvent CompletedEvent)). exact Hl.
  - apply (inc_count (hasEvent ProgressReportEvent)). exact Hl.
  - apply (inc_count (errorWith ConnectFailedEvent)). exact Hl.
  - rewrite <- (inc_count (errorWith TimeoutExceededEvent)) by exact Hl.
    unfold errorWith.
    destruct (events_distinct (Result.Event r)) as [E1 _].
    destruct (Result.Error r); simpl; [|reflexivity].
    destruct (String.eqb (Result.Event r) ConnectFailedEvent); simpl;
      [|reflexivity].
    destruct E1 as [-> _]; reflexivity.
  - rewrite <- (inc_count (errorWith AbortedEvent)) by exact Hl.
    unfold errorWith.
    destruct (events_distinct (Result.Event r)) as [E1 E2].
    destruct (Result.Error r); simpl; [|reflexivity].
    destruct (String.eqb (Result.Event r) ConnectFailedEvent); simpl.
    + destruct E1 as [_ ->]; reflexivity.
    + destruct (String.eqb (Result.Event r) TimeoutExceededEvent); simpl;
        [|reflexivity].
      rewrite E2; reflexivity.
  - rewrite filter_app, map_app. simpl. fold (eligible r).
    destruct (eligible r); simpl; [reflexivity | rewrite app_nil_r; reflexivity].
Qed.

Lemma fold_tallyStep results :
  len results <= max_int -> fold_left tallyStep results tally0 = tallyOf results.
Proof.
  induction results as [|r l IH] using rev_ind; intros Hl; [reflexivity|].
  rewrite fold_left_app. simpl. rewrite IH.
  - apply tallyStep_tallyOf. exact Hl.
  - rewrite len_app in Hl. pose proof (len_nonneg [r]). lia.
Qed.

(** The samples are collected whatever the length of the slice. *)
Lemma fold_tallyStep_samples results a :
  publishPerformance (fold_left tallyStep results a) =
  publishPerformance a ++ map sample (filter eligible results).
Proof.
  revert a. induction results as [|r l IH]; intros a; simpl.
  - rewrite app_nil_r. reflexivity.
  - rewrite IH. unfold tallyStep at 1. cbn [publishPerformance].
    fold (eligible r). destruct (eligible r); simpl.
    + rewrite <- app_assoc. reflexivity.
    + reflexivity.
Qed.

End SummaryFacts.

(** ** median, buildHistogram and buildSummary return *)

Lemma index_nth {A} (s : list A) i d :
  0 <= i < len s -> index s i = Some (nth (Z.to_nat i) s d).
Proof.
  unfold index, len. intros Hi.
  destruct (Z.ltb_spec i 0); [lia|].
  apply nth_error_nth'. lia.
Qed.

Lemma int_quo_2 x : 0 <= x <= max_int -> int_quo x 2 = x / 2.
Proof.
  intros Hx. unfold int_quo. rewrite Z.quot_div_nonneg by lia.
  apply wrap_in_range. unfold in_range, min_int, max_int in *.
  pose proof (Z.div_pos x 2). pose proof (Z.div_le_upper_bound x 2 x). lia.
Qed.

Lemma len_pos {A} (s : list A) : s <> [] -> 0 < len s.
Proof. destruct s; [congruence|]. intros _. unfold len. simpl. lia. Qed.

Lemma len_pred {A} (s : list A) :
  s <> [] -> len s <= max_int -> int_add (len s) (-1) = len s - 1.
Proof.
  intros Hs Hl. pose proof (len_pos s Hs).
  apply int_add_small. unfold in_range, min_int, max_int in *. lia.
Qed.

Section ReturnFacts.
Context {F : Type} `{Float64 F}.

Lemma median_nonempty (series : list F) d :
  series <> [] -> len series <= max_int ->
  median series =
  Some (f64_div
          (f64_add (nth ((List.length series - 1) / 2)%nat series d)
                   (nth (List.length series / 2)%nat series d))
          (f64_of_int 2)).
Proof.
  intros Hs Hl. pose proof (len_pos series Hs) as Hp. unfold median.
  rewrite (len_pred series Hs Hl).
  rewrite !int_quo_2 by lia.
  assert (E1 : Z.to_nat ((len series - 1) / 2) = ((List.length series - 1) / 2)%nat).
  { unfold len. replace (Z.of_nat (List.length series) - 1)
      with (Z.of_nat (List.length series - 1)) by (unfold len in Hp; lia).
    change 2 with (Z.of_nat 2). rewrite <- Nat2Z.inj_div. apply Nat2Z.id. }
  assert (E2 : Z.to_nat (len series / 2) = (List.length series / 2)%nat).
  { unfold len. change 2 with (Z.of_nat 2). rewrite <- Nat2Z.inj_div.
    apply Nat2Z.id. }
  rewrite (index_nth series ((len series - 1) / 2) d), E1.
  - rewrite (index_nth series (len series / 2) d), E2; [reflexivity|].
    split; [apply Z.div_pos; lia | apply Z.div_lt_upper_bound; lia].
  - split; [apply Z.div_pos; lia | apply Z.div_lt_upper_bound; lia].
Qed.

Lemma buildHistogram_nonempty (series : list F) total d :
  series <> [] -> len series <= max_int ->
  buildHistogram series total = Some (histogramOf series total d).
Proof.
  intros Hs Hl. pose proof (len_pos series Hs) as Hp. unfold buildHistogram.
  rewrite (len_pred series Hs Hl).
  rewrite (index_nth series 0 d) by lia.
  rewrite (index_nth series (len series - 1) d) by lia.
  unfold histogramOf. replace (Z.to_nat (len series - 1))
    with (List.length series - 1)%nat by (unfold len; lia).
  reflexivity.
Qed.

Lemma eligible_count results :
  count eligible results =
  count (hasEvent CompletedEvent) results +
  count (hasEvent ProgressReportEvent) results.
Proof.
  induction results as [|r l IH]; [reflexivity|].
  rewrite !count_cons, IH. unfold eligible, hasEvent.
  destruct (String.eqb (Result.Event r) CompletedEvent) eqn:E1.
  - apply String.eqb_eq in E1. rewrite E1.
    change (String.eqb CompletedEvent ProgressReportEvent) with false.
    cbn [orb]. lia.
  - destruct (String.eqb (Result.Event r) ProgressReportEvent); cbn [orb]; lia.
Qed.

Lemma buildSummary_empty nClient nMessages :
  buildSummary nClient nMessages [] = Some (Summary_zero, Some ErrNoResults).
Proof. reflexivity. Qed.

Lemma buildSummary_infeasible nClient nMessages results :
  results <> [] -> existsb eligible results = false ->
  buildSummary nClient nMessages results =
  Some (Summary_zero, Some ErrNoFeasible).
Proof.
  intros Hs He. unfold buildSummary.
  destruct (Z.eqb_spec (len results) 0) as [E|_].
  - pose proof (len_pos results Hs). lia.
  - rewrite fold_tallyStep_samples. simpl.
    assert (En : filter eligible results = []).
    { destruct (filter eligible results) as [|r l] eqn:Ef; [reflexivity|].
      assert (Hin : In r (filter eligible results)) by (rewrite Ef; left; auto).
      apply filter_In in Hin. destruct Hin as [Hin Hr].
      assert (existsb eligible results = true)
        by (apply existsb_exists; eauto).
      congruence. }
    rewrite En. reflexivity.
Qed.

Lemma buildSummary_feasible nClient nMessages results d :
  len results <= max_int -> existsb eligible results = true ->
  let pp := GoSort.Float64s (map sample (filter eligible results)) in
  let med := f64_div
               (f64_add (nth ((List.length pp - 1) / 2)%nat pp d)
                        (nth (List.length pp / 2)%nat pp d)) (f64_of_int 2) in
  let hist := histogramOf pp (count eligible results) d in
  buildSummary nClient nMessages results =
  Some (summaryOf nClient nMessages results med hist, None).
Proof.
  intros Hl He pp med hist.
  assert (Hc : 0 < count eligible results) by (apply count_pos_existsb; exact He).
  pose proof (count_bounds eligible results) as Hb.
  assert (Hpp : len pp = count eligible results).
  { unfold pp, len, count, len.
    rewrite Float64s_length, length_map.
    reflexivity. }
  assert (Hne : pp <> []).
  { intros E. rewrite E in Hpp. unfold len in Hpp. simpl in Hpp. lia. }
  unfold buildSummary.
  destruct (Z.eqb_spec (len results) 0) as [E|_]; [lia|].
  rewrite (fold_tallyStep results Hl).
  cbn [publishPerformance tallyOf nErrors nCompleted nInProgress
       nConnectFailed nTimeoutExceeded nAborted nMessagesPublished].
  destruct (Z.eqb_spec (len (map sample (filter eligible results))) 0) as [E|_].
  { unfold len in E. rewrite length_map in E. unfold count, len in Hc. lia. }
  fold pp.
  rewrite (median_nonempty pp d Hne) by lia.
  rewrite (buildHistogram_nonempty pp _ d Hne) by lia.
  rewrite int_add_small, <- eligible_count.
  - reflexivity.
  - rewrite <- eligible_count. unfold in_range, min_int, max_int in *. lia.
Qed.

End ReturnFacts.

(** ** buildSummary: the claims *)

(** C2: [buildSummary] returns the error "no results collected" exactly
    when the result list is empty, the error "no feasible results found"
    exactly when the list is not empty and no result has the event
    Completed or ProgressReport, and a summary without error (and without
    panic) exactly when some result has one of these two events.  The
    length bound holds of every Go slice. *)
Theorem buildSummary_error_conditions {F : Type} `{Float64 F}
  (nClient nMessages : Z) (results : list Result.t) :
  len results <= max_int ->
  ((exists s, buildSummary nClient nMessages results = Some (s, Some ErrNoResults))
   <-> results = []) /\
  ((exists s, buildSummary nClient nMessages results = Some (s, Some ErrNoFeasible))
   <-> results <> [] /\ existsb eligible results = false) /\
  ((exists s, buildSummary nClient nMessages results = Some (s, None))
   <-> existsb eligible results = true).
Proof.
  intros Hl.
  destruct results as [|r0 l].
  - rewrite buildSummary_empty. split; [|split]; split.
    + reflexivity.
    + intros _. exists Summary_zero. reflexivity.
    + intros [s E]. discriminate.
    + intros [E _]. congruence.
    + intros [s E]. discriminate.
    + discriminate.
  - destruct (existsb eligible (r0 :: l)) eqn:He.
    + rewrite (buildSummary_feasible nClient nMessages (r0 :: l)
                 (f64_of_int 0) Hl He).
      split; [|split]; split.
      * intros [s E]. discriminate.
      * discriminate.
      * intros [s E]. discriminate.
      * intros [_ E]. discriminate.
      * reflexivity.
      * intros _. eexists. reflexivity.
    + rewrite (buildSummary_infeasible nClient nMessages (r0 :: l))
        by (auto; discriminate).
      split; [|split]; split.
      * intros [s E]. discriminate.
      * discriminate.
      * intros _. split; [discriminate | reflexivity].
      * intros _. exists Summary_zero. reflexivity.
      * intros [s E]. discriminate.
      * discriminate.
Qed.

Lemma buildSummary_error_conditions_witness :
  len scenario <= max_int /\
  ((exists s, buildSummary (F:=float) 3 10 scenario = Some (s, None))
   <-> existsb eligible scenario = true).
Proof.
  split; [vm_compute; discriminate|].
  apply (buildSummary_error_conditions (F:=float) 3 10 scenario).
  vm_compute; discriminate.
Defined.

(** C4: for 3 clients with 10 messages each and the outcomes Completed (10
    published in 1 s), Completed (10 published in 2 s) and ConnectFailed
    (error), [buildSummary] returns without error the summary with 30
    expected and 20 published messages, 1 error, 2 completed, 1
    ConnectFailed, samples [5; 10] and median 7.5.  The error rate is the
    binary64 number 1/3*100 = 0x1.0aaaaaaaaaaaap+5, within 2^-47 of 100/3;
    in exact arithmetic it is 100/3. *)
Theorem buildSummary_scenario :
  buildSummary (F:=float) 3 10 scenario =
  Some ({| Summary.Clients := 3;
           Summary.TotalMessages := 30;
           Summary.MessagesPublished := 20;
           Summary.Errors := 1;
           Summary.ErrorRate := 0x1.0aaaaaaaaaaaap+5%float;
           Summary.Completed := 2;
           Summary.InProgress := 0;
           Summary.ConnectFailed := 1;
           Summary.TimeoutExceeded := 0;
           Summary.Aborted := 0;
           Summary.PublishPerformance := [5%float; 10%float];
           Summary.PublishPerformanceMedian := 7.5%float;
           Summary.PublishPerformanceHistogram :=
             [(5.5%float, 0.5%float); (10.5%float, 1%float)] |}, None) /\
  (exists q, exactValue 0x1.0aaaaaaaaaaaap+5%float = Some q /\
             (Qabs (q - (100 # 3)) <= 1 # 140737488355328)%Q) /\
  (exists s, buildSummary (F:=Q) 3 10 scenario = Some (s, None) /\
             (Summary.ErrorRate s == (100 # 3))%Q /\
             Summary.TotalMessages s = 30 /\
             Summary.MessagesPublished s = 20 /\
             Forall2 Qeq (Summary.PublishPerformance s) [5%Q; 10%Q] /\
             (Summary.PublishPerformanceMedian s == (75 # 10))%Q).
Proof.
  split; [vm_compute; reflexivity|]. split.
  - eexists. split; [vm_compute; reflexivity|]. vm_compute. discriminate.
  - eexists. split; [vm_compute; reflexivity|].
    cbn [Summary.ErrorRate Summary.TotalMessages Summary.MessagesPublished
         Summary.PublishPerformance Summary.PublishPerformanceMedian].
    repeat split; try reflexivity.
    repeat constructor; reflexivity.
Qed.

(** C5: when some result has the event Completed or ProgressReport,
    [buildSummary] returns a summary without error; its sample sequence
    has as many elements as the Completed and InProgress counters add up
    to, consists of the samples published / seconds of the results with
    these events, and is in increasing order (the order of
    [sort.Float64s], which puts NaN first; without NaN it is the order
    of [<=]). *)
Theorem buildSummary_samples {F : Type} `{Float64Laws F}
  (nClient nMessages : Z) (results : list Result.t) :
  len results <= max_int ->
  existsb eligible results = true ->
  exists s,
    buildSummary nClient nMessages results = Some (s, None) /\
    len (Summary.PublishPerformance s) =
      Summary.Completed s + Summary.InProgress s /\
    Permutation (Summary.PublishPerformance s)
                (map sample (filter eligible results)) /\
    ascending (Summary.PublishPerformance s) /\
    (Forall (fun x => IsNaN x = false) (Summary.PublishPerformance s) ->
     StronglySorted (fun a b => f64_le a b = true)
                    (Summary.PublishPerformance s)).
Proof.
  intros Hl He.
  eexists. split.
  - apply (buildSummary_feasible nClient nMessages results (f64_of_int 0) Hl He).
  - cbn [summaryOf Summary.PublishPerformance Summary.Completed
         Summary.InProgress].
    split; [|split; [|split]].
    + unfold len. rewrite Float64s_length, length_map.
      rewrite <- eligible_count. reflexivity.
    + apply Float64s_perm.
    + apply Float64s_ascending.
    + intros Hn. apply ascending_le; [exact Hn | apply Float64s_ascending].
Qed.

Lemma buildSummary_samples_witness :
  exists s,
    buildSummary (F:=float) 3 10 scenario = Some (s, None) /\
    len (Summary.PublishPerformance s) =
      Summary.Completed s + Summary.InProgress s /\
    Permutation (Summary.PublishPerformance s)
                (map sample (filter eligible scenario)) /\
    ascending (Summary.PublishPerformance s) /\
    (Forall (fun x => IsNaN x = false) (Summary.PublishPerformance s) ->
     StronglySorted (fun a b => f64_le a b = true)
                    (Summary.PublishPerformance s)).
Proof.
  apply (buildSummary_samples (F:=float) 3 10 scenario).
  - vm_compute; discriminate.
  - vm_compute; reflexivity.
Defined.

(** C6: the median of a non-empty series of length n is the binary64
    average (a + b) / 2 of its elements a and b at the positions
    floor((n-1)/2) and floor(n/2); the median of [5] is 5, of [1; 2; 3; 4]
    is 2.5 and of [1; 2; 3] is 2. *)
Theorem median_positions (series : list float) (d : float) :
  series <> [] ->
  len series <= max_int ->
  median series =
    Some (PrimFloat.div
            (PrimFloat.add (nth ((List.length series - 1) / 2)%nat series d)
                           (nth (List.length series / 2)%nat series d))
            2%float) /\
  median [5%float] = Some 5%float /\
  median [1; 2; 3; 4]%float = Some 2.5%float /\
  median [1; 2; 3]%float = Some 2%float.
Proof.
  intros Hs Hl. split; [|repeat split; vm_compute; reflexivity].
  rewrite (median_nonempty series d Hs Hl). reflexivity.
Qed.

Lemma median_positions_witness :
  median [1; 2; 3; 4]%float =
    Some (PrimFloat.div (PrimFloat.add 2%float 3%float) 2%float).
Proof.
  apply (median_positions [1; 2; 3; 4]%float 0%float).
  - discriminate.
  - vm_compute; discriminate.
Defined.

Lemma count_disjoint3 {A} (p1 p2 p3 q : A -> bool) l :
  (forall x, p1 x = true -> q x = true /\ p2 x = false /\ p3 x = false) ->
  (forall x, p2 x = true -> q x = true /\ p3 x = false) ->
  (forall x, p3 x = true -> q x = true) ->
  count p1 l + count p2 l + count p3 l <= count q l.
Proof.
  intros H1 H2 H3. induction l as [|x l IH]; [reflexivity|].
  rewrite !count_cons.
  destruct (p1 x) eqn:E1.
  - destruct (H1 x E1) as (-> & -> & ->). lia.
  - destruct (p2 x) eqn:E2.
    + destruct (H2 x E2) as (-> & ->). lia.
    + destruct (p3 x) eqn:E3.
      * rewrite (H3 x E3). lia.
      * destruct (q x); lia.
Qed.

(** C10: in a summary that [buildSummary] returns, Errors is the number
    of results with the error flag; ConnectFailed, TimeoutExceeded and
    Aborted are the numbers of results with the error flag and that
    event, so that their sum is at most Errors; Completed and InProgress
    are the numbers of results with the event Completed and
    ProgressReport, with or without the error flag, and each such result
    gives its sample. *)
Theorem buildSummary_counters {F : Type} `{Float64 F}
  (nClient nMessages : Z) (results : list Result.t) (s : Summary.t F) :
  len results <= max_int ->
  buildSummary nClient nMessages results = Some (s, None) ->
  Summary.Errors s = count Result.Error results /\
  Summary.ConnectFailed s = count (errorWith ConnectFailedEvent) results /\
  Summary.TimeoutExceeded s = count (errorWith TimeoutExceededEvent) results /\
  Summary.Aborted s = count (errorWith AbortedEvent) results /\
  Summary.ConnectFailed s + Summary.TimeoutExceeded s + Summary.Aborted s
    <= Summary.Errors s /\
  Summary.Completed s = count (hasEvent CompletedEvent) results /\
  Summary.InProgress s = count (hasEvent ProgressReportEvent) results /\
  (forall r, In r results ->
     hasEvent CompletedEvent r || hasEvent ProgressReportEvent r = true ->
     In (sample r) (Summary.PublishPerformance s)).
Proof.
  intros Hl Hs.
  destruct (existsb eligible results) eqn:He.
  - rewrite (buildSummary_feasible nClient nMessages results (f64_of_int 0)
               Hl He) in Hs.
    injection Hs as <-.
    cbn [summaryOf Summary.Errors Summary.ConnectFailed
         Summary.TimeoutExceeded Summary.Aborted Summary.Completed
         Summary.InProgress Summary.PublishPerformance].
    repeat (split; [reflexivity|]). split; [|repeat (split; [reflexivity|])].
    + apply count_disjoint3; unfold errorWith; intros r E;
        apply andb_true_iff in E; destruct E as [-> E]; simpl;
        destruct (events_distinct (Result.Event r)) as [D1 D2].
      * destruct (D1 E) as [-> ->]. auto.
      * rewrite (D2 E). auto.
      * reflexivity.
    + intros r Hin Hr.
      apply (Permutation_in _ (Permutation_sym (Float64s_perm _))).
      apply in_map. apply filter_In. fold (eligible r) in Hr. auto.
  - destruct results as [|r0 l].
    + rewrite buildSummary_empty in Hs. discriminate.
    + rewrite (buildSummary_infeasible nClient nMessages (r0 :: l)) in Hs
        by (auto; discriminate).
      discriminate.
Qed.

Lemma buildSummary_counters_witness :
  Summary.Errors scenarioSummary = count Result.Error scenario /\
  Summary.ConnectFailed scenarioSummary + Summary.TimeoutExceeded scenarioSummary
    + Summary.Aborted scenarioSummary <= Summary.Errors scenarioSummary /\
  Summary.Completed scenarioSummary = count (hasEvent CompletedEvent) scenario.
Proof.
  destruct (buildSummary_counters 3 10 scenario scenarioSummary)
    as (E & _ & _ & _ & L & C & _).
  - vm_compute; discriminate.
  - vm_compute; reflexivity.
  - exact (conj E (conj L C)).
Defined.

(** A result that is Completed and carries the error flag counts as an
    error and as completed, and gives its sample. *)
Example buildSummary_completed_with_error :
  buildSummary (F:=float) 1 10
    [Result.mk 0 CompletedEvent (1 * Second) 10 true (Some "late"%string)] =
  Some ({| Summary.Clients := 1;
           Summary.TotalMessages := 10;
           Summary.MessagesPublished := 10;
           Summary.Errors := 1;
           Summary.ErrorRate := 100%float;
           Summary.Completed := 1;
           Summary.InProgress := 0;
           Summary.ConnectFailed := 0;
           Summary.TimeoutExceeded := 0;
           Summary.Aborted := 0;
           Summary.PublishPerformance := [10%float];
           Summary.PublishPerformanceMedian := 10%float;
           Summary.PublishPerformanceHistogram := [(10%float, 1%float)] |},
        None).
Proof. vm_compute. reflexivity. Qed.

(** ** Maps keyed by float64 *)

Section MapFacts.
Context {F : Type} `{Float64Laws F}.

Lemma f64_eq_false_sym (x y : F) : f64_eq x y = false -> f64_eq y x = false.
Proof.
  intros E. destruct (f64_eq y x) eqn:E'; [|reflexivity].
  apply f64_eq_sym in E'. congruence.
Qed.

Lemma f64_eq_congr_l (x y z : F) :
  f64_eq x y = true -> f64_eq x z = f64_eq y z.
Proof.
  intros E. destruct (f64_eq y z) eqn:E1.
  - apply f64_eq_trans with y; assumption.
  - destruct (f64_eq x z) eqn:E2; [|reflexivity].
    rewrite <- E1. symmetry. apply f64_eq_trans with x; [|exact E2].
    apply f64_eq_sym. exact E.
Qed.

Lemma f64_eq_congr_r (x y z : F) :
  f64_eq x y = true -> f64_eq z x = f64_eq z y.
Proof.
  intros E. destruct (f64_eq z y) eqn:E1.
  - apply f64_eq_trans with y; [exact E1 | apply f64_eq_sym; exact E].
  - destruct (f64_eq z x) eqn:E2; [|reflexivity].
    rewrite <- E1. symmetry. apply f64_eq_trans with x; assumption.
Qed.

Lemma distinct_perm l l' : Permutation l l' -> distinct l -> distinct l'.
Proof.
  induction 1 as [|x l l' P IH|x y l|l l' l'' P1 IH1 P2 IH2]; simpl.
  - auto.
  - intros [Hx Hd]. split; [|apply IH; exact Hd].
    rewrite Forall_forall in *. intros z Hz. apply Hx.
    apply (Permutation_in _ (Permutation_sym P)). exact Hz.
  - intros [Hy [Hx Hd]]. inversion Hy as [|? ? Hyx Hyl]; subst.
    repeat split; auto. constructor; [apply f64_eq_false_sym; exact Hyx|auto].
  - auto.
Qed.

Section Get.
Context {V : Type} (d : V).

Lemma get_set (m : list (F * V)) (t k : F) (v : V) :
  GoMap.get d (GoMap.set m t v) k =
  if f64_eq t k then v else GoMap.get d m k.
Proof.
  induction m as [|[k' v'] m IH]; simpl; [reflexivity|].
  destruct (f64_eq k' t) eqn:E; simpl.
  - rewrite (f64_eq_congr_l k' t k E). destruct (f64_eq t k); reflexivity.
  - rewrite IH. destruct (f64_eq k' k) eqn:E1; [|reflexivity].
    destruct (f64_eq t k) eqn:E2; [|reflexivity].
    rewrite (f64_eq_congr_r t k k' E2) in E. congruence.
Qed.

Lemma keys_set (P : F -> Prop) (m : list (F * V)) (t : F) (v : V) :
  Forall P (GoMap.keys m) -> P t -> Forall P (GoMap.keys (GoMap.set m t v)).
Proof.
  unfold GoMap.keys. induction m as [|[k' v'] m IH]; simpl; intros Hm Ht.
  - constructor; auto.
  - inversion Hm; subst. destruct (f64_eq k' t); simpl; constructor; auto.
Qed.

Lemma distinct_set (m : list (F * V)) (t : F) (v : V) :
  distinct (GoMap.keys m) -> distinct (GoMap.keys (GoMap.set m t v)).
Proof.
  induction m as [|[k' v'] m IH]; simpl; intros Hd.
  - split; [constructor | exact I].
  - destruct Hd as [Hk Hd]. destruct (f64_eq k' t) eqn:E; simpl.
    + split; [|exact Hd]. fold (GoMap.keys m) in *.
      rewrite Forall_forall in *. intros y Hy.
      rewrite <- (f64_eq_congr_l k' t y E). apply Hk. exact Hy.
    + split; [|apply IH; exact Hd].
      apply keys_set; assumption.
Qed.

(** A key that is looked up with a result other than the zero value is
    equal to a key of the map. *)
Lemma get_found (m : list (F * V)) (k : F) :
  GoMap.get d m k <> d ->
  exists k', In k' (GoMap.keys m) /\ f64_eq k' k = true.
Proof.
  induction m as [|[k' v'] m IH]; simpl; intros Hg; [congruence|].
  destruct (f64_eq k' k) eqn:E.
  - exists k'. auto.
  - destruct (IH Hg) as (k'' & Hin & E'). exists k''. auto.
Qed.

(** The append below is what [set] does for a key that is not in the map. *)
Lemma set_fresh (m : list (F * V)) (t : F) (v : V) :
  Forall (fun k => f64_eq k t = false) (GoMap.keys m) ->
  GoMap.set m t v = m ++ [(t, v)].
Proof.
  induction m as [|[k' v'] m IH]; simpl; intros Hm; [reflexivity|].
  inversion Hm as [|? ? E Hm']; subst. simpl in E. rewrite E.
  rewrite IH by exact Hm'. reflexivity.
Qed.

End Get.
End MapFacts.

(** ** buildHistogram: the three loops *)

Lemma count_ext {A} (p q : A -> bool) l :
  (forall x, p x = q x) -> count p l = count q l.
Proof.
  intros E. unfold count. rewrite (filter_ext p q E). reflexivity.
Qed.

Section HistogramFacts.
Context {F : Type} `{Float64Laws F}.
Variables slowest steps : F.

Local Abbreviation key := (bucketKey slowest steps).
Local Abbreviation counts := (countBuckets slowest steps).

Lemma bucketKey_notnan v : f64_eq (key v) (key v) = true.
Proof.
  unfold bucketKey.
  assert (G : forall l tmp, f64_eq tmp tmp = true ->
    let r := fold_left
      (fun tmp i =>
         let f0 := f64_add slowest (f64_mul steps (f64_of_int i)) in
         let f1 := f64_add slowest (f64_mul steps (f64_of_int (int_add i 1))) in
         if f64_le f0 v && f64_le v f1 then f1 else tmp) l tmp in
    f64_eq r r = true).
  { induction l as [|i l IH]; intros tmp Ht; simpl; [exact Ht|].
    apply IH.
    destruct (f64_le _ v && f64_le v _) eqn:E; [|exact Ht].
    apply andb_true_iff in E. destruct E as [_ E].
    apply (f64_le_notnan _ _ E). }
  apply G. apply f64_zero_notnan.
Qed.

Lemma countBuckets_snoc l x :
  counts (l ++ [x]) =
  GoMap.set (counts l) (key x) (int_add (GoMap.get 0 (counts l) (key x)) 1).
Proof. unfold countBuckets. rewrite fold_left_app. reflexivity. Qed.

(** The count kept for a key is the number of samples in that bucket. *)
Lemma countBuckets_get l k :
  len l <= max_int -> GoMap.get 0 (counts l) k = inBucket slowest steps l k.
Proof.
  revert k. induction l as [|x l IH] using rev_ind; intros k Hl; [reflexivity|].
  rewrite len_app in Hl. change (len [x]) with 1 in Hl.
  rewrite countBuckets_snoc, get_set, !IH by lia.
  unfold inBucket. rewrite count_app.
  destruct (f64_eq (key x) k) eqn:E.
  - rewrite (count_ext _ (fun y => f64_eq (key y) k)).
    + pose proof (count_bounds (fun y => f64_eq (key y) k) l).
      apply int_add_small. unfold in_range, min_int, max_int in *. lia.
    + intros y. apply f64_eq_congr_r. exact E.
  - lia.
Qed.

Lemma countBuckets_distinct l : distinct (GoMap.keys (counts l)).
Proof.
  induction l as [|x l IH] using rev_ind; [exact I|].
  rewrite countBuckets_snoc. apply distinct_set. exact IH.
Qed.

Lemma countBuckets_notnan l :
  Forall (fun k => f64_eq k k = true) (GoMap.keys (counts l)).
Proof.
  induction l as [|x l IH] using rev_ind; [constructor|].
  rewrite countBuckets_snoc. apply keys_set; [exact IH|].
  apply bucketKey_notnan.
Qed.

(** Every sample is counted under a key of the map. *)
Lemma countBuckets_covers l x :
  len l <= max_int -> In x l ->
  exists k, In k (GoMap.keys (counts l)) /\ f64_eq k (key x) = true.
Proof.
  intros Hl Hx. apply (get_found 0).
  rewrite countBuckets_get by exact Hl.
  assert (0 < inBucket slowest steps l (key x)); [|lia].
  apply count_pos_existsb. apply existsb_exists.
  exists x. split; [exact Hx | apply bucketKey_notnan].
Qed.

(** Every key of the map counts at least one sample. *)
Lemma countBuckets_positive l k :
  len l <= max_int -> In k (GoMap.keys (counts l)) -> 1 <= inBucket slowest steps l k.
Proof.
  revert k. induction l as [|x l IH] using rev_ind; intros k Hl Hk;
    [destruct Hk|].
  rewrite len_app in Hl. change (len [x]) with 1 in Hl.
  pose proof (len_nonneg l).
  unfold inBucket. rewrite count_app. fold (inBucket slowest steps l k).
  pose proof (count_bounds (fun y => f64_eq (key y) k) l) as Hb.
  fold (inBucket slowest steps l k) in Hb.
  rewrite countBuckets_snoc in Hk.
  assert (Hk' : k = key x \/ In k (GoMap.keys (counts l))).
  { revert Hk. generalize (int_add (GoMap.get 0 (counts l) (key x)) 1).
    generalize (counts l). intros m v.
    induction m as [|[k' v'] m IHm]; simpl.
    - intros [E|[]]; auto.
    - destruct (f64_eq k' (key x)); simpl; intros [E|Hin]; auto.
      destruct (IHm Hin); auto. }
  destruct Hk' as [->|Hin].
  - rewrite bucketKey_notnan. lia.
  - specialize (IH k ltac:(lia) Hin).
    destruct (f64_eq (key x) k); lia.
Qed.

(** The buckets partition the samples. *)
Lemma bucket_indicator ks t :
  distinct ks ->
  (exists k, In k ks /\ f64_eq k t = true) ->
  fold_right Z.add 0 (map (fun k => if f64_eq t k then 1 else 0) ks) = 1.
Proof.
  induction ks as [|k0 ks IH]; simpl; intros Hd (k & Hk & E); [destruct Hk|].
  destruct Hd as [Hk0 Hd].
  destruct (f64_eq t k0) eqn:E0.
  - assert (Z0 : fold_right Z.add 0
                   (map (fun k => if f64_eq t k then 1 else 0) ks) = 0).
    { clear IH Hk. induction ks as [|k1 ks IH1]; simpl; [reflexivity|].
      inversion Hk0 as [|? ? E1 Hk0']; subst. destruct Hd as [_ Hd].
      rewrite (f64_eq_congr_l t k0 k1 E0), E1. rewrite IH1; auto. }
    lia.
  - destruct Hk as [->|Hk].
    + apply f64_eq_sym in E. congruence.
    + rewrite IH; eauto.
Qed.

Lemma buckets_partition ks l :
  distinct ks ->
  (forall x, In x l -> exists k, In k ks /\ f64_eq k (key x) = true) ->
  fold_right Z.add 0 (map (inBucket slowest steps l) ks) = len l.
Proof.
  intros Hd. induction l as [|x l IH]; intros Hc.
  - unfold inBucket, count, len. simpl. clear.
    induction ks as [|k ks IHks]; simpl; [reflexivity | exact IHks].
  - assert (E : forall ks',
      fold_right Z.add 0 (map (inBucket slowest steps (x :: l)) ks') =
      fold_right Z.add 0 (map (fun k => if f64_eq (key x) k then 1 else 0) ks')
      + fold_right Z.add 0 (map (inBucket slowest steps l) ks')).
    { induction ks' as [|k ks' IH']; simpl; [reflexivity|].
      rewrite IH'. unfold inBucket at 1. rewrite count_cons.
      fold (inBucket slowest steps l k). lia. }
    rewrite E, IH, bucket_indicator.
    + unfold len. cbn [List.length]. rewrite Nat2Z.inj_succ. lia.
    + exact Hd.
    + apply Hc. left. reflexivity.
    + intros y Hy. apply Hc. right. exact Hy.
Qed.

Section Cumulative.
Variable bucketCount : list (F * Z).
Variable total : Z.

Lemma cumulative_keys prev keys : map fst (cumulative bucketCount total prev keys) = keys.
Proof.
  revert prev. induction keys as [|k keys IH]; intros prev; simpl;
    [reflexivity | rewrite IH; reflexivity].
Qed.

Lemma accumulate_cumulative keys :
  distinct keys ->
  forall histogram prev,
    Forall (fun k' => Forall (fun k => f64_eq k' k = false) keys)
           (GoMap.keys histogram) ->
    fst (fold_left
           (fun '(histogram, prev) k =>
              let cur :=
                f64_add (f64_div (f64_of_int (GoMap.get 0 bucketCount k))
                                 (f64_of_int total)) prev in
              (GoMap.set histogram k cur, cur))
           keys (histogram, prev)) =
    histogram ++ cumulative bucketCount total prev keys.
Proof.
  induction keys as [|k keys IH]; intros Hd histogram prev Hh; simpl.
  - rewrite app_nil_r. reflexivity.
  - destruct Hd as [Hk Hd].
    rewrite set_fresh.
    + rewrite IH; [rewrite <- app_assoc; reflexivity | exact Hd |].
      unfold GoMap.keys. rewrite map_app. apply Forall_app. split.
      * eapply Forall_impl; [|exact Hh]. intros k' Hk'.
        inversion Hk'; assumption.
      * simpl. constructor; [exact Hk | constructor].
    + eapply Forall_impl; [|exact Hh]. intros k' Hk'.
      inversion Hk'; assumption.
Qed.

Lemma accumulate_fst keys :
  distinct keys ->
  fst (accumulate bucketCount total keys) =
  cumulative bucketCount total (f64_of_int 0) keys.
Proof.
  intros Hd. unfold accumulate.
  apply (accumulate_cumulative keys Hd [] (f64_of_int 0)). constructor.
Qed.

End Cumulative.

End HistogramFacts.

(** ** buildHistogram: the histogram *)

Section HistogramOf.
Context {F : Type} `{Float64Laws F}.

Lemma histogramOf_cumulative (series : list F) (total : Z) (d : F) :
  histogramOf series total d =
  cumulative (bucketCountOf series d) total (f64_of_int 0)
    (GoSort.Float64s (GoMap.keys (bucketCountOf series d))).
Proof.
  unfold histogramOf, bucketCountOf, stepsOf. cbv zeta.
  apply accumulate_fst.
  apply (distinct_perm _ _ (Permutation_sym (Float64s_perm _))).
  apply countBuckets_distinct.
Qed.

Lemma ascending_distinct_lt (l : list F) :
  ascending l -> distinct l -> Forall (fun k => f64_eq k k = true) l ->
  StronglySorted (fun a b => f64_lt a b = true) l.
Proof.
  unfold ascending. induction 1 as [|x l S IH Hx]; intros Hd Hn;
    [constructor|].
  destruct Hd as [Dx Hd]. inversion Hn as [|? ? Nx Nl]; subst.
  constructor; [apply IH; assumption|].
  rewrite Forall_forall in *. intros y Hy.
  specialize (Hx y Hy). specialize (Dx y Hy). specialize (Nl y Hy).
  destruct (GoSort.Less x y) eqn:L.
  - unfold GoSort.Less, IsNaN in L. rewrite Nx in L. simpl in L.
    rewrite orb_false_r in L. exact L.
  - rewrite (Less_total x y Nx Nl L Hx) in Dx. discriminate.
Qed.

(** The keys of the histogram are in strictly increasing order, each of
    them counts at least one sample, and together they count every
    sample once. *)
Lemma histogram_buckets (series : list F) (total : Z) (d : F) :
  len series <= max_int ->
  let hist := histogramOf series total d in
  StronglySorted (fun a b => f64_lt a b = true) (map fst hist) /\
  Forall (fun k => 1 <= samplesIn series d k) (map fst hist) /\
  Forall (fun k => GoMap.get 0 (bucketCountOf series d) k = samplesIn series d k)
         (map fst hist) /\
  fold_right Z.add 0 (map (samplesIn series d) (map fst hist)) = len series.
Proof.
  intros Hl hist. unfold hist. rewrite histogramOf_cumulative, cumulative_keys.
  set (bc := bucketCountOf series d).
  pose proof (Float64s_perm (GoMap.keys bc)) as P.
  split; [|split; [|split]].
  - apply ascending_distinct_lt.
    + apply Float64s_ascending.
    + apply (distinct_perm _ _ (Permutation_sym P)).
      apply countBuckets_distinct.
    + apply (Permutation_Forall (Permutation_sym P)).
      apply countBuckets_notnan.
  - apply Forall_forall. intros k Hk.
    apply (Permutation_in _ P) in Hk.
    apply countBuckets_positive; assumption.
  - apply Forall_forall. intros k _. apply countBuckets_get. exact Hl.
  - apply buckets_partition.
    + apply (distinct_perm _ _ (Permutation_sym P)).
      apply countBuckets_distinct.
    + intros x Hx.
      destruct (countBuckets_covers (nth 0 series d) (stepsOf series d)
                  series x Hl Hx) as (k & Hk & E).
      exists k. split; [|exact E].
      apply (Permutation_in _ (Permutation_sym P)). exact Hk.
Qed.

End HistogramOf.

(** At binary64: the keys that [buildHistogram] returns are in strictly
    increasing order, none of them has a zero count, and the counts add up
    to the number of samples. *)
Lemma histogram_buckets_binary64 (series : list float) (total : Z) hist :
  len series <= max_int ->
  buildHistogram series total = Some hist ->
  StronglySorted (fun a b => PrimFloat.ltb a b = true) (map fst hist) /\
  Forall (fun k => 1 <= samplesIn series 0%float k) (map fst hist) /\
  fold_right Z.add 0 (map (samplesIn series 0%float) (map fst hist)) = len series.
Proof.
  intros Hl Hb. destruct series as [|x l].
  - discriminate.
  - rewrite (buildHistogram_nonempty (x :: l) total 0%float) in Hb
      by (auto; discriminate).
    injection Hb as <-.
    destruct (histogram_buckets (x :: l) total 0%float Hl) as (S & P & _ & E).
    auto.
Qed.

(** ** buildHistogram: the bucket of a sample *)

Lemma bucketIndices_indices : bucketIndices = indices 0 11.
Proof. reflexivity. Qed.

Section LastMatch.
Context {F : Type} `{Float64 F}.
Variables slowest steps v : F.

(** The scan keeps the upper bound of the last interval that contains the
    sample, and the zero value when no interval does. *)
Lemma scan_last_match (n : nat) : forall (a : Z) (tmp : F),
  let r := fold_left
    (fun tmp i =>
       let f0 := f64_add slowest (f64_mul steps (f64_of_int i)) in
       let f1 := f64_add slowest (f64_mul steps (f64_of_int (int_add i 1))) in
       if f64_le f0 v && f64_le v f1 then f1 else tmp)
    (indices a n) tmp in
  (r = tmp /\ forall j, a <= j < a + Z.of_nat n -> inInterval slowest steps v j = false) \/
  (exists i, a <= i < a + Z.of_nat n /\ inInterval slowest steps v i = true /\
             (forall j, i < j < a + Z.of_nat n -> inInterval slowest steps v j = false) /\
             r = upperBound slowest steps i).
Proof.
  induction n as [|n IH]; intros a tmp; cbn [indices fold_left]; cbv zeta.
  - left. split; [reflexivity|]. intros j Hj. lia.
  - fold (inInterval slowest steps v a). fold (upperBound slowest steps a).
    destruct (IH (a + 1) (if inInterval slowest steps v a then upperBound slowest steps a else tmp))
      as [[Er Hn]|(i & Hi & Mi & Hn & Er)].
    + destruct (inInterval slowest steps v a) eqn:Ma.
      * right. exists a. split; [lia|]. split; [exact Ma|].
        split; [|exact Er]. intros j Hj. apply Hn. lia.
      * left. split; [exact Er|]. intros j Hj.
        destruct (Z.eq_dec j a) as [->|Hja]; [exact Ma|]. apply Hn. lia.
    + right. exists i. split; [lia|]. split; [exact Mi|].
      split; [|exact Er]. intros j Hj. apply Hn. lia.
Qed.

Lemma bucketKey_last_match :
  (bucketKey slowest steps v = f64_of_int 0 /\
   forall j, 0 <= j <= 10 -> inInterval slowest steps v j = false) \/
  (exists i, 0 <= i <= 10 /\ inInterval slowest steps v i = true /\
             (forall j, i < j <= 10 -> inInterval slowest steps v j = false) /\
             bucketKey slowest steps v = upperBound slowest steps i).
Proof.
  unfold bucketKey. rewrite bucketIndices_indices.
  destruct (scan_last_match 11 0 (f64_of_int 0))
    as [[Er Hn]|(i & Hi & Mi & Hn & Er)].
  - left. split; [exact Er|]. intros j Hj. apply Hn. lia.
  - right. exists i. split; [lia|]. split; [exact Mi|].
    split; [|exact Er]. intros j Hj. apply Hn. lia.
Qed.

End LastMatch.

(** ** Lists *)

Lemma last_cons {A} (a d : A) l : last (a :: l) d = last l a.
Proof.
  revert a d. induction l as [|b l IH]; intros a d; [reflexivity|].
  change (last (a :: b :: l) d) with (last (b :: l) d).
  rewrite !IH. reflexivity.
Qed.

(** ** binary64: rounding to nearest

    What the specification of the primitive floats ([SpecFloat]: the
    operations round with [binary_round_aux]) gives for the numbers that
    the last loop of [buildHistogram] computes: conversions of counts,
    their quotients and the sums of these, all positive and normal. *)

Lemma pow2_pos e : (0 < pow2 e)%Q.
Proof. apply Qpower_0_lt. reflexivity. Qed.

Lemma pow2_add e f : (pow2 (e + f) == pow2 e * pow2 f)%Q.
Proof. apply Qpower_plus. discriminate. Qed.

Lemma pow2_Z n : 0 <= n -> (pow2 n == inject_Z (2 ^ n))%Q.
Proof. intros Hn. unfold pow2. rewrite Zpower_Qpower by exact Hn. reflexivity. Qed.

Lemma pow2_le e f : e <= f -> (pow2 e <= pow2 f)%Q.
Proof. intros H. apply Qpower_le_compat_l; [exact H|]. discriminate. Qed.

Lemma pow2_lt e f : e < f -> (pow2 e < pow2 f)%Q.
Proof. intros H. apply Qpower_lt_compat_l; [exact H|]. reflexivity. Qed.

Lemma pow2_lt_inv e f : (pow2 e < pow2 f)%Q -> e < f.
Proof. intros H. apply (Qpower_lt_compat_l_inv 2); [exact H | reflexivity]. Qed.

Lemma binval_le m m' e : m <= m' -> (binval m e <= binval m' e)%Q.
Proof.
  intros H. unfold binval. apply Qmult_le_compat_r.
  - rewrite <- Zle_Qle. exact H.
  - apply Qlt_le_weak, pow2_pos.
Qed.

Lemma binval_lt m m' e : m < m' -> (binval m e < binval m' e)%Q.
Proof.
  intros H. unfold binval. apply Qmult_lt_compat_r.
  - apply pow2_pos.
  - rewrite <- Zlt_Qlt. exact H.
Qed.

Lemma binval_lt_inv m m' e : (binval m e < binval m' e)%Q -> m < m'.
Proof.
  intros H. destruct (Z_lt_le_dec m m') as [L|L]; [exact L|].
  apply (binval_le _ _ e) in L. lra.
Qed.

Lemma binval_le_inv m m' e : (binval m e <= binval m' e)%Q -> m <= m'.
Proof.
  intros H. destruct (Z_le_gt_dec m m') as [L|L]; [exact L|].
  assert (m' < m) as L' by lia. apply (binval_lt _ _ e) in L'. lra.
Qed.

Lemma binval_shift m n e : 0 <= n -> (binval (m * 2 ^ n) e == binval m (e + n))%Q.
Proof.
  intros Hn. unfold binval. rewrite pow2_add, inject_Z_mult, (pow2_Z n Hn). ring.
Qed.

Lemma binval_pow2 n e : 0 <= n -> (binval (2 ^ n) e == pow2 (n + e))%Q.
Proof. intros Hn. unfold binval. rewrite pow2_add, (pow2_Z n Hn). reflexivity. Qed.

Lemma binval_add m m' e : (binval (m + m') e == binval m e + binval m' e)%Q.
Proof. unfold binval. rewrite inject_Z_plus. ring. Qed.

(** *** Digits *)

Lemma digits_bounds p :
  2 ^ (Zpos (digits2_pos p) - 1) <= Zpos p < 2 ^ Zpos (digits2_pos p).
Proof.
  induction p as [p IH|p IH|]; cbn [digits2_pos].
  - rewrite Pos2Z.inj_succ.
    replace (Z.succ (Z.pos (digits2_pos p)) - 1) with
      (Z.succ (Z.pos (digits2_pos p) - 1)) by lia.
    rewrite !Z.pow_succ_r by lia. lia.
  - rewrite Pos2Z.inj_succ.
    replace (Z.succ (Z.pos (digits2_pos p)) - 1) with
      (Z.succ (Z.pos (digits2_pos p) - 1)) by lia.
    rewrite !Z.pow_succ_r by lia. lia.
  - simpl. lia.
Qed.

Lemma digits_unique p k :
  2 ^ (k - 1) <= Zpos p < 2 ^ k -> Zpos (digits2_pos p) = k.
Proof.
  intros [Lo Hi]. pose proof (digits_bounds p) as [Lo' Hi'].
  assert (Hk : 0 < k).
  { destruct (Z_lt_le_dec 0 k) as [L|L]; [exact L|].
    destruct (Z.eq_dec k 0) as [->|N].
    - simpl in Hi. lia.
    - rewrite (Z.pow_neg_r 2 k) in Hi by lia. lia. }
  destruct (Z.lt_trichotomy (Zpos (digits2_pos p)) k) as [L|[E|G]];
    [|exact E|].
  - assert (2 ^ Zpos (digits2_pos p) <= 2 ^ (k - 1))
      by (apply Z.pow_le_mono_r; lia). lia.
  - assert (2 ^ k <= 2 ^ (Zpos (digits2_pos p) - 1))
      by (apply Z.pow_le_mono_r; lia). lia.
Qed.

(** *** Shifts *)

Lemma shr_1_m mrs : 0 <= shr_m mrs -> shr_m (shr_1 mrs) = shr_m mrs / 2.
Proof.
  destruct mrs as [m r s]. cbn [shr_m]. intros Hm.
  destruct m as [|p|p]; [reflexivity| |lia].
  destruct p as [p|p|]; cbn [shr_1 shr_m].
  - apply (Z.div_unique _ _ _ 1); lia.
  - apply (Z.div_unique _ _ _ 0); lia.
  - reflexivity.
Qed.

Lemma iter_pos_shr_m n : forall mrs,
  0 <= shr_m mrs ->
  shr_m (iter_pos shr_1 n mrs) = shr_m mrs / 2 ^ Zpos n.
Proof.
  induction n as [n IH|n IH|]; intros mrs Hm; cbn [iter_pos].
  - assert (H1 : 0 <= shr_m (shr_1 mrs))
      by (rewrite shr_1_m by exact Hm; apply Z.div_pos; lia).
    assert (H2 : 0 <= shr_m (iter_pos shr_1 n (shr_1 mrs)))
      by (rewrite IH by exact H1; apply Z.div_pos; [exact H1|];
          apply Z.pow_pos_nonneg; lia).
    rewrite IH, IH, shr_1_m by assumption.
    rewrite !Z.div_div by (try apply Z.pow_pos_nonneg; lia).
    f_equal.
    replace (Z.pos n~1) with (1 + Z.pos n + Z.pos n) by lia.
    rewrite (Z.pow_add_r 2 (1 + Z.pos n)), (Z.pow_add_r 2 1) by lia. lia.
  - assert (H2 : 0 <= shr_m (iter_pos shr_1 n mrs))
      by (rewrite IH by exact Hm; apply Z.div_pos; [exact Hm|];
          apply Z.pow_pos_nonneg; lia).
    rewrite IH, IH by assumption.
    rewrite !Z.div_div by (try apply Z.pow_pos_nonneg; lia).
    f_equal.
    replace (Z.pos n~0) with (Z.pos n + Z.pos n) by lia.
    rewrite (Z.pow_add_r 2 (Z.pos n)) by lia. lia.
  - apply shr_1_m. exact Hm.
Qed.

Lemma shr_record_of_loc_m m l : shr_m (shr_record_of_loc m l) = m.
Proof. destruct l as [|[| |]]; reflexivity. Qed.

Lemma shr_m_spec mrs e n :
  0 <= shr_m mrs -> 0 <= n ->
  shr_m (fst (shr mrs e n)) = shr_m mrs / 2 ^ n /\ snd (shr mrs e n) = e + n.
Proof.
  intros Hm Hn. destruct n as [|p|p]; [| |lia]; cbn [shr fst snd].
  - rewrite Z.div_1_r. split; [reflexivity | lia].
  - split; [apply iter_pos_shr_m; exact Hm | reflexivity].
Qed.

Lemma fexp_64 e : fexp prec emax e = fexp64 e.
Proof. reflexivity. Qed.

Lemma rne_bracket m l :
  m <= round_nearest_even m l <= m + 1.
Proof.
  destruct l as [|[| |]]; cbn [round_nearest_even]; try lia.
  destruct (Z.even m); lia.
Qed.

(** *** Rounding *)

Lemma shr_fexp_spec m e l :
  0 < m -> e <= fexp64 (Zdigits2 m + e) ->
  exists mrs,
    shr_fexp prec emax m e l = (mrs, fexp64 (Zdigits2 m + e)) /\
    shr_m mrs = m / 2 ^ (fexp64 (Zdigits2 m + e) - e).
Proof.
  intros Hm He. unfold shr_fexp. rewrite fexp_64.
  set (n := fexp64 (Zdigits2 m + e) - e).
  destruct (shr_m_spec (shr_record_of_loc m l) e n) as [A B].
  - rewrite shr_record_of_loc_m. lia.
  - unfold n. lia.
  - destruct (shr (shr_record_of_loc m l) e n) as [mrs e'].
    cbn [fst snd] in A, B. exists mrs. split.
    + f_equal. unfold n in B. lia.
    + rewrite A, shr_record_of_loc_m. reflexivity.
Qed.

(** [binary_round_aux] on a mantissa that is aligned with, or finer than,
    the grid of its magnitude, in the normal range: the result is the
    grid point below the value or the one above. *)
Lemma round_aux_normal (mx : positive) (ex : Z) (lx : location) (v : Q) :
  let e1 := Zpos (digits2_pos mx) + ex - 53 in
  ex <= e1 -> -1074 <= e1 -> e1 < 971 ->
  (binval (Zpos mx) ex <= v < binval (Zpos mx + 1) ex)%Q ->
  exists m' e',
    binary_round_aux prec emax false (Zpos mx) ex lx = S754_finite false m' e' /\
    2 ^ 52 <= Zpos m' < 2 ^ 53 /\
    rounds v m' e'.
Proof.
  intros e1 Hal Hn Ho Hv.
  pose proof (digits_bounds mx) as Hd.
  set (d := Zpos (digits2_pos mx)) in *.
  set (n := e1 - ex).
  assert (Hn0 : 0 <= n) by (unfold n; lia).
  assert (Hf : fexp64 (Zdigits2 (Zpos mx) + ex) = e1).
  { cbn [Zdigits2]. fold d. unfold fexp64, e1. lia. }
  destruct (shr_fexp_spec (Zpos mx) ex lx) as (mrs & E1 & M1);
    [lia | rewrite Hf; lia |].
  rewrite Hf in E1, M1. fold n in M1.
  set (m1 := Zpos mx / 2 ^ n) in *.
  assert (Hp : 0 < 2 ^ n) by (apply Z.pow_pos_nonneg; lia).
  assert (Hdn : d = 53 + n) by (unfold n, e1; lia).
  assert (Hm1 : 2 ^ 52 <= m1 < 2 ^ 53).
  { unfold m1. split.
    - apply Z.div_le_lower_bound; [exact Hp|].
      rewrite <- Z.pow_add_r by lia.
      replace (n + 52) with (d - 1) by lia. lia.
    - apply Z.div_lt_upper_bound; [exact Hp|].
      rewrite <- Z.pow_add_r by lia.
      replace (n + 53) with d by lia. lia. }
  assert (Hfl : m1 * 2 ^ n <= Zpos mx < (m1 + 1) * 2 ^ n).
  { unfold m1. pose proof (Z.mul_div_le (Zpos mx) (2 ^ n) Hp).
    pose proof (Z.mul_succ_div_gt (Zpos mx) (2 ^ n) Hp). lia. }
  assert (Hbr : (binval m1 e1 <= v < binval (m1 + 1) e1)%Q).
  { replace e1 with (ex + n) by (unfold n; lia).
    rewrite <- !binval_shift by exact Hn0. split.
    - apply Qle_trans with (binval (Zpos mx) ex); [apply binval_le; lia | tauto].
    - apply Qlt_le_trans with (binval (Zpos mx + 1) ex); [tauto|].
      apply binval_le. lia. }
  unfold binary_round_aux. rewrite E1.
  pose proof (rne_bracket (shr_m mrs) (loc_of_shr_record mrs)) as Hr.
  rewrite M1 in *.
  set (m2 := round_nearest_even m1 (loc_of_shr_record mrs)) in *.
  destruct m2 as [|p2|p2] eqn:E2; [lia| |lia].
  destruct (Z_lt_le_dec (Zpos p2) (2 ^ 53)) as [L|L].
  - assert (D2 : Zpos (digits2_pos p2) = 53).
    { apply digits_unique. lia. }
    destruct (shr_fexp_spec (Zpos p2) e1 loc_Exact) as (mrs2 & E3 & M3);
      [lia | cbn [Zdigits2]; rewrite D2; unfold fexp64; lia |].
    cbn [Zdigits2] in E3, M3. rewrite D2 in E3, M3.
    replace (fexp64 (53 + e1)) with e1 in E3, M3 by (unfold fexp64; lia).
    rewrite Z.sub_diag, Z.div_1_r in M3.
    rewrite E3, M3.
    replace (e1 <=? emax - prec) with true
      by (symmetry; apply Z.leb_le; unfold emax, prec; lia).
    exists p2, e1. split; [reflexivity|]. split; [lia|].
    exists m1, e1. split; [exact Hm1|]. split; [exact Hbr|].
    assert (Zpos p2 = m1 \/ Zpos p2 = m1 + 1) as [->| ->] by lia;
      [left | right]; reflexivity.
  - assert (E53 : Zpos p2 = 2 ^ 53) by lia.
    assert (Ep : p2 = (2 ^ 53)%positive) by (apply Pos2Z.inj; exact E53).
    subst p2.
    assert (D2 : Zdigits2 (Zpos (2 ^ 53)) = 54) by (vm_compute; reflexivity).
    destruct (shr_fexp_spec (Zpos (2 ^ 53)) e1 loc_Exact) as (mrs2 & E3 & M3);
      [lia | rewrite D2; unfold fexp64; lia |].
    rewrite D2 in E3, M3.
    replace (fexp64 (54 + e1)) with (e1 + 1) in E3, M3
      by (unfold fexp64; lia).
    replace (e1 + 1 - e1) with 1 in M3 by lia.
    rewrite E3, M3.
    change (Z.pos (2 ^ 53) / 2 ^ 1) with (Zpos (2 ^ 52)).
    replace (e1 + 1 <=? emax - prec) with true
      by (symmetry; apply Z.leb_le; unfold emax, prec; lia).
    exists (2 ^ 52)%positive, (e1 + 1). split; [reflexivity|].
    split; [vm_compute; split; [discriminate | reflexivity]|].
    exists m1, e1. split; [exact Hm1|]. split; [exact Hbr|].
    right. replace (m1 + 1) with (2 ^ 52 * 2 ^ 1) by lia.
    rewrite binval_shift by lia. reflexivity.
Qed.

Lemma iter_xO p d : Zpos (Pos.iter xO p d) = Zpos p * 2 ^ Zpos d.
Proof.
  induction d as [|d IH] using Pos.peano_ind.
  - cbn [Pos.iter]. rewrite Z.pow_1_r. lia.
  - rewrite Pos.iter_succ.
    change (Zpos (Pos.iter xO p d)~0) with (2 * Zpos (Pos.iter xO p d)).
    rewrite IH, Pos2Z.inj_succ, Z.pow_succ_r by lia. lia.
Qed.

Lemma shl_align_spec mx ex ex' :
  let r := shl_align mx ex ex' in
  snd r = Z.min ex ex' /\ Zpos (fst r) = Zpos mx * 2 ^ (ex - snd r).
Proof.
  unfold shl_align. destruct (ex' - ex) as [|d|d] eqn:E; cbn [fst snd].
  - split; [lia|]. rewrite Z.sub_diag. lia.
  - split; [lia|]. rewrite Z.sub_diag. lia.
  - split; [lia|]. rewrite iter_xO. f_equal. f_equal. lia.
Qed.

Lemma digits_shift p k :
  0 <= k -> forall q, Zpos q = Zpos p * 2 ^ k ->
  Zpos (digits2_pos q) = Zpos (digits2_pos p) + k.
Proof.
  intros Hk q Hq. apply digits_unique. rewrite Hq.
  pose proof (digits_bounds p) as [Lo Hi].
  assert (Hp : 0 < 2 ^ k) by (apply Z.pow_pos_nonneg; lia).
  replace (Zpos (digits2_pos p) + k - 1) with (Zpos (digits2_pos p) - 1 + k)
    by lia.
  rewrite !Z.pow_add_r by lia. split; nia.
Qed.

Lemma binary_round_normal (m : positive) (e : Z) :
  -1074 <= Zpos (digits2_pos m) + e - 53 < 971 ->
  exists m' e',
    binary_round prec emax false m e = S754_finite false m' e' /\
    2 ^ 52 <= Zpos m' < 2 ^ 53 /\
    rounds (binval (Zpos m) e) m' e'.
Proof.
  intros Hr. unfold binary_round. rewrite fexp_64.
  set (d := Zpos (digits2_pos m)) in *.
  replace (fexp64 (d + e)) with (d + e - 53) by (unfold fexp64; lia).
  pose proof (shl_align_spec m e (d + e - 53)) as [Ez Mz].
  destruct (shl_align m e (d + e - 53)) as [mz ez]. cbn [fst snd] in Ez, Mz.
  assert (Hk : 0 <= e - ez) by lia.
  pose proof (digits_shift m (e - ez) Hk mz Mz) as Dz. fold d in Dz.
  apply round_aux_normal; rewrite ?Dz; try lia.
  assert (Ev : (binval (Zpos mz) ez == binval (Zpos m) e)%Q).
  { rewrite Mz, binval_shift by exact Hk.
    replace (ez + (e - ez)) with e by lia. reflexivity. }
  split.
  - rewrite Ev. apply Qle_refl.
  - rewrite <- Ev. apply binval_lt. lia.
Qed.

Lemma binval_digits p e :
  (pow2 (Zpos (digits2_pos p) - 1 + e) <= binval (Zpos p) e)%Q /\
  (binval (Zpos p) e < pow2 (Zpos (digits2_pos p) + e))%Q.
Proof.
  pose proof (digits_bounds p) as [Lo Hi]. split.
  - rewrite <- binval_pow2 by lia. apply binval_le. exact Lo.
  - rewrite <- binval_pow2 by lia. apply binval_lt. exact Hi.
Qed.

Lemma binary_round_range (m : positive) (e a b : Z) :
  (pow2 a <= binval (Zpos m) e)%Q -> (binval (Zpos m) e < pow2 b)%Q ->
  -1021 <= a -> b <= 1023 ->
  exists m' e',
    binary_round prec emax false m e = S754_finite false m' e' /\
    2 ^ 52 <= Zpos m' < 2 ^ 53 /\
    rounds (binval (Zpos m) e) m' e'.
Proof.
  intros Ha Hb La Lb. apply binary_round_normal.
  pose proof (binval_digits m e) as [Lo Hi].
  assert (a < Zpos (digits2_pos m) + e).
  { apply pow2_lt_inv. lra. }
  assert (Zpos (digits2_pos m) - 1 + e < b).
  { apply pow2_lt_inv. lra. }
  lia.
Qed.

(** What rounding does to a positive value: a relative error of at most
    2^-52. *)
Lemma rounds_error v m e :
  rounds v m e ->
  (0 < v)%Q /\
  (v - v * (1 # 2 ^ 52) <= binval (Zpos m) e <= v + v * (1 # 2 ^ 52))%Q.
Proof.
  intros (m1 & e1 & Hm & Hv & Hr).
  assert (Hw : (binval (m1 + 1) e1 == binval m1 e1 + pow2 e1)%Q).
  { unfold binval. rewrite inject_Z_plus. change (inject_Z 1) with 1%Q. ring. }
  assert (Hlo : (inject_Z (2 ^ 52) * pow2 e1 <= binval m1 e1)%Q).
  { change (inject_Z (2 ^ 52) * pow2 e1)%Q with (binval (2 ^ 52) e1).
    apply binval_le. lia. }
  pose proof (pow2_pos e1) as Hp.
  set (w := pow2 e1) in *. set (lo := binval m1 e1) in *.
  set (R := binval (Zpos m) e) in *. rewrite Hw in Hv, Hr.
  change (inject_Z (2 ^ 52)) with (4503599627370496 # 1)%Q in Hlo.
  change (1 # 2 ^ 52)%Q with (1 # 4503599627370496)%Q.
  destruct Hr as [Hr|Hr]; rewrite Hr; split; try split; lra.
Qed.

(** The neighbour below: rounding never goes below a float that the
    value is not below. *)
Lemma rounds_monotone v m e mp ep :
  rounds v m e ->
  0 < Zpos mp < 2 ^ 53 ->
  (binval (Zpos mp) ep <= v)%Q ->
  (binval (Zpos mp) ep <= binval (Zpos m) e)%Q.
Proof.
  intros (m1 & e1 & Hm & Hv & Hr) Hp Hle.
  assert (Hlo : (binval (Zpos mp) ep <= binval m1 e1)%Q).
  { destruct (Z_le_gt_dec e1 ep) as [L|G].
    - assert (E : (binval (Zpos mp) ep == binval (Zpos mp * 2 ^ (ep - e1)) e1)%Q).
      { rewrite binval_shift by lia. replace (e1 + (ep - e1)) with ep by lia.
        reflexivity. }
      rewrite E in *. apply binval_le.
      assert (Zpos mp * 2 ^ (ep - e1) < m1 + 1); [|lia].
      apply (binval_lt_inv _ _ e1). lra.
    - apply Qle_trans with (pow2 (53 + ep)).
      + rewrite <- binval_pow2 by lia. apply binval_le. lia.
      + apply Qle_trans with (pow2 (52 + e1)); [apply pow2_le; lia|].
        rewrite <- binval_pow2 by lia. apply binval_le. lia. }
  assert (Hm' : (binval m1 e1 <= binval (m1 + 1) e1)%Q) by (apply binval_le; lia).
  destruct Hr as [Hr|Hr]; rewrite Hr; lra.
Qed.

Lemma rounds_ext v v' m e : (v == v')%Q -> rounds v m e -> rounds v' m e.
Proof.
  intros E (m1 & e1 & Hm & Hv & Hr). exists m1, e1.
  split; [exact Hm|]. split; [|exact Hr]. rewrite <- E. exact Hv.
Qed.

Lemma normal64_exp m e a b :
  2 ^ 52 <= m < 2 ^ 53 ->
  (pow2 a <= binval m e)%Q -> (binval m e < pow2 b)%Q ->
  a - 53 < e < b - 52.
Proof.
  intros Hm Ha Hb.
  assert (L : (pow2 (52 + e) <= binval m e)%Q).
  { rewrite <- binval_pow2 by lia. apply binval_le. lia. }
  assert (U : (binval m e < pow2 (53 + e))%Q).
  { rewrite <- binval_pow2 by lia. apply binval_lt. lia. }
  assert (a < 53 + e) by (apply pow2_lt_inv; lra).
  assert (52 + e < b) by (apply pow2_lt_inv; lra).
  lia.
Qed.

(** *** The operations

    [float64(c)] for a positive [int]. *)
Lemma of_int_normal64 (c : Z) :
  1 <= c < 2 ^ 63 ->
  exists m e,
    Prim2SF (float64_of_int c) = S754_finite false m e /\
    2 ^ 52 <= Zpos m < 2 ^ 53 /\
    rounds (inject_Z c) m e.
Proof.
  intros Hc. unfold float64_of_int.
  replace (c <? 0) with false by (symmetry; apply Z.ltb_ge; lia).
  rewrite of_uint63_spec, Uint63.of_Z_spec.
  rewrite Z.mod_small by (change Uint63.wB with (2 ^ 63); lia).
  destruct c as [|p|p]; [lia| |lia]. cbn [binary_normalize].
  assert (Ev : (binval (Zpos p) 0 == inject_Z (Zpos p))%Q).
  { unfold binval. change (pow2 0) with 1%Q. ring. }
  destruct (binary_round_range p 0 0 63) as (m & e & E & Hm & Hr).
  - rewrite Ev. change (pow2 0) with (inject_Z 1). rewrite <- Zle_Qle. lia.
  - rewrite Ev, (pow2_Z 63) by lia. rewrite <- Zlt_Qlt. lia.
  - lia.
  - lia.
  - exists m, e. split; [exact E|]. split; [exact Hm|].
    apply (rounds_ext _ _ _ _ Ev). exact Hr.
Qed.

(** The sum of two positive numbers is their exact sum, rounded. *)
Lemma add_normal64 (x y : float) mx ex my ey a b :
  Prim2SF x = S754_finite false mx ex ->
  Prim2SF y = S754_finite false my ey ->
  (pow2 a <= binval (Zpos mx) ex + binval (Zpos my) ey)%Q ->
  (binval (Zpos mx) ex + binval (Zpos my) ey < pow2 b)%Q ->
  -1021 <= a -> b <= 1023 ->
  exists m e,
    Prim2SF (x + y)%float = S754_finite false m e /\
    2 ^ 52 <= Zpos m < 2 ^ 53 /\
    rounds (binval (Zpos mx) ex + binval (Zpos my) ey) m e.
Proof.
  intros Ex Ey Ha Hb La Lb.
  rewrite add_spec, Ex, Ey. unfold SF64add, SFadd. cbn [cond_Zopp].
  set (ez := Z.min ex ey).
  pose proof (shl_align_spec mx ex ez) as [Sx Mx].
  pose proof (shl_align_spec my ey ez) as [Sy My].
  destruct (shl_align mx ex ez) as [mx' ex'].
  destruct (shl_align my ey ez) as [my' ey'].
  cbn [fst snd] in *.
  assert (Ex' : ex' = ez) by (unfold ez in *; lia).
  assert (Ey' : ey' = ez) by (unfold ez in *; lia).
  clear Sx Sy. subst ex' ey'.
  change (Zpos mx' + Zpos my') with (Zpos (mx' + my')).
  cbn [binary_normalize].
  assert (Ev : (binval (Zpos (mx' + my')) ez ==
                binval (Zpos mx) ex + binval (Zpos my) ey)%Q).
  { rewrite Pos2Z.inj_add, binval_add, Mx, My.
    rewrite !binval_shift by (unfold ez; lia).
    replace (ez + (ex - ez)) with ex by lia.
    replace (ez + (ey - ez)) with ey by lia. reflexivity. }
  destruct (binary_round_range (mx' + my') ez a b) as (m & e & E & Hm & Hr);
    try lia; try (rewrite Ev; assumption).
  exists m, e. split; [exact E|]. split; [exact Hm|].
  apply (rounds_ext _ _ _ _ Ev). exact Hr.
Qed.

(** The quotient of two normal positive numbers is their exact quotient,
    rounded. *)
Lemma div_normal64 (x y : float) mx ex my ey :
  Prim2SF x = S754_finite false mx ex ->
  Prim2SF y = S754_finite false my ey ->
  2 ^ 52 <= Zpos mx < 2 ^ 53 -> 2 ^ 52 <= Zpos my < 2 ^ 53 ->
  -900 <= ex - ey <= 900 ->
  exists m e,
    Prim2SF (x / y)%float = S754_finite false m e /\
    2 ^ 52 <= Zpos m < 2 ^ 53 /\
    rounds (binval (Zpos mx) ex / binval (Zpos my) ey) m e.
Proof.
  intros Ex Ey Hx Hy He.
  rewrite div_spec, Ex, Ey. unfold SF64div, SFdiv, SFdiv_core_binary.
  cbn [Zdigits2 xorb].
  rewrite (digits_unique mx 53), (digits_unique my 53) by lia.
  rewrite fexp_64.
  replace (Z.min (fexp64 (53 + ex - (53 + ey))) (ex - ey))
    with (ex - ey - 53) by (unfold fexp64; lia).
  replace (ex - ey - (ex - ey - 53)) with 53 by lia.
  cbv iota beta.
  rewrite Z.shiftl_mul_pow2 by lia.
  pose proof (Z_div_mod (Zpos mx * 2 ^ 53) (Zpos my) ltac:(lia)) as Hdm.
  destruct (Z.div_eucl (Zpos mx * 2 ^ 53) (Zpos my)) as [q r].
  destruct Hdm as [Eq Hr].
  assert (Hq : 2 ^ 52 <= q < 2 ^ 54) by nia.
  destruct q as [|pq|pq]; [lia| |lia].
  set (e' := ex - ey - 53).
  assert (Hqv : (binval (Zpos pq) e' <= binval (Zpos mx) ex / binval (Zpos my) ey
                 < binval (Zpos pq + 1) e')%Q).
  { assert (Py : (0 < binval (Zpos my) ey)%Q).
    { unfold binval. apply Qmult_lt_0_compat; [reflexivity | apply pow2_pos]. }
    assert (Evx : (binval (Zpos mx) ex == binval (Zpos mx * 2 ^ 53) e' * pow2 ey)%Q).
    { assert (Ee : ex = 53 + e' + ey) by (unfold e'; lia).
      rewrite Ee at 1. unfold binval.
      rewrite !pow2_add, inject_Z_mult, (pow2_Z 53) by lia. ring. }
    assert (Evy : forall k, (binval (k * Zpos my) e' * pow2 ey ==
                             binval k e' * binval (Zpos my) ey)%Q).
    { intros k. unfold binval. rewrite inject_Z_mult. ring. }
    split.
    - apply Qle_shift_div_l; [exact Py|].
      rewrite <- Evy, Evx. apply Qmult_le_compat_r;
        [apply binval_le; lia | apply Qlt_le_weak, pow2_pos].
    - apply Qlt_shift_div_r; [exact Py|].
      rewrite <- Evy, Evx. apply Qmult_lt_compat_r;
        [apply pow2_pos | apply binval_lt; lia]. }
  pose proof (digits_bounds pq) as Hd.
  assert (Hdq : 53 <= Zpos (digits2_pos pq) <= 54).
  { split.
    - destruct (Z_lt_le_dec (Zpos (digits2_pos pq)) 53) as [L|L]; [|lia].
      assert (2 ^ Zpos (digits2_pos pq) <= 2 ^ 52)
        by (apply Z.pow_le_mono_r; lia). lia.
    - destruct (Z_lt_le_dec 54 (Zpos (digits2_pos pq))) as [L|L]; [|lia].
      assert (2 ^ 54 <= 2 ^ (Zpos (digits2_pos pq) - 1))
        by (apply Z.pow_le_mono_r; lia). lia. }
  apply round_aux_normal; try (unfold e'; lia). exact Hqv.
Qed.

(** [<=] on normal positive numbers follows their values. *)
Lemma leb_normal64 x y X Y :
  normal64 x X -> normal64 y Y -> (X <= Y)%Q -> (x <=? y)%float = true.
Proof.
  intros (mx & ex & Ex & Hx & Vx) (my & ey & Ey & Hy & Vy) Hle.
  rewrite leb_spec, Ex, Ey. unfold SFleb, SFcompare.
  destruct (Z.compare_spec ex ey) as [E|L|G].
  - subst ey. rewrite Pos.compare_cont_spec. cbn [Pos.switch_Eq].
    destruct (Pos.compare_spec mx my) as [E|L|G]; try reflexivity.
    exfalso. assert ((binval (Zpos my) ex < binval (Zpos mx) ex)%Q)
      by (apply binval_lt; lia). lra.
  - reflexivity.
  - exfalso.
    assert ((binval (Zpos my) ey < pow2 (53 + ey))%Q).
    { rewrite <- binval_pow2 by lia. apply binval_lt. lia. }
    assert ((pow2 (52 + ex) <= binval (Zpos mx) ex)%Q).
    { rewrite <- binval_pow2 by lia. apply binval_le. lia. }
    assert ((pow2 (53 + ey) <= pow2 (52 + ex))%Q) by (apply pow2_le; lia).
    lra.
Qed.


Section ErrorBounds.
Local Open Scope Q_scope.

(** The quotient of two rounded counts. *)
Lemma err_ratio (c T X Y : Q) :
  1 <= c -> c <= T -> T <= 9223372036854775808 # 1 ->
  c - c * u52 <= X <= c + c * u52 ->
  T - T * u52 <= Y <= T + T * u52 ->
  c / T - 3 * u52 <= X / Y <= c / T + 3 * u52 /\
  (1 # 18446744073709551616) <= X / Y <= 1 + 3 * u52 /\
  0 < c / T <= 1.
Proof.
  intros Hc HT HB HX HY. unfold u52 in *.
  assert (PT : 0 < T) by lra.
  assert (PY : 0 < Y) by lra.
  assert (Er : c / T * T == c) by (field; lra).
  assert (Eq : X / Y * Y == X) by (field; lra).
  assert (Hr : 0 < c / T <= 1).
  { split.
    - apply Qlt_shift_div_l; lra.
    - apply Qle_shift_div_r; lra. }
  set (r := c / T) in *. set (p := X / Y) in *.
  assert (Hr' : (1 # 9223372036854775808) <= r) by nra.
  assert (Up : p <= r + r * (3 # 4503599627370496)).
  { apply Qle_shift_div_r; [exact PY|].
    apply Qle_trans with (c + c * (1 # 4503599627370496)); [lra|].
    rewrite <- Er. nra. }
  assert (Lo : r - r * (3 # 4503599627370496) <= p).
  { apply Qle_shift_div_l; [exact PY|].
    apply Qle_trans with (c - c * (1 # 4503599627370496)); [|lra].
    rewrite <- Er. nra. }
  repeat split; try lra.
Qed.

(** One iteration of the last loop of [buildHistogram]:
    [cur := float64(c)/float64(total) + prev]. *)
Lemma cum_step (p : float) (P : Q) (c T : Z) :
  (1 <= c)%Z -> (c <= T)%Z -> (T < 2 ^ 63)%Z ->
  nonneg64 p P -> 0 <= P <= 3 # 2 ->
  exists V,
    normal64 (float64_of_int c / float64_of_int T + p)%float V /\
    P <= V /\
    P + inject_Z c / inject_Z T - 8 * u52 <= V
      <= P + inject_Z c / inject_Z T + 8 * u52.
Proof.
  intros Hc HcT HT Hp HP.
  destruct (of_int_normal64 c) as (mx & ex & Ex & Hx & Rx); [lia|].
  destruct (of_int_normal64 T) as (my & ey & Ey & Hy & Ry); [lia|].
  destruct (rounds_error _ _ _ Rx) as [_ Bx].
  destruct (rounds_error _ _ _ Ry) as [_ By].
  change (1 # 2 ^ 52) with u52 in Bx, By.
  assert (Qc : 1 <= inject_Z c).
  { change 1 with (inject_Z 1). rewrite <- Zle_Qle. lia. }
  assert (QcT : inject_Z c <= inject_Z T) by (rewrite <- Zle_Qle; lia).
  assert (QT : inject_Z T <= 9223372036854775808 # 1).
  { change (9223372036854775808 # 1) with (inject_Z (2 ^ 63)).
    rewrite <- Zle_Qle. lia. }
  assert (P64 : pow2 64 == 18446744073709551616 # 1)
    by (rewrite pow2_Z by lia; reflexivity).
  assert (Pm1 : pow2 (-1) == 1 # 2) by reflexivity.
  assert (Hex : (-54 < ex < 12)%Z).
  { apply (normal64_exp (Zpos mx) ex (-1) 64 Hx); [rewrite Pm1|rewrite P64];
      unfold u52 in *; lra. }
  assert (Hey : (-54 < ey < 12)%Z).
  { apply (normal64_exp (Zpos my) ey (-1) 64 Hy); [rewrite Pm1|rewrite P64];
      unfold u52 in *; lra. }
  destruct (div_normal64 (float64_of_int c) (float64_of_int T) mx ex my ey)
    as (mq & eq & Eq & Hq & Rq); try assumption; try lia.
  destruct (rounds_error _ _ _ Rq) as [_ Bq].
  change (1 # 2 ^ 52) with u52 in Bq.
  destruct (err_ratio (inject_Z c) (inject_Z T) (binval (Zpos mx) ex)
              (binval (Zpos my) ey) Qc QcT QT Bx By) as (Br & Bp & Hr).
  set (r := inject_Z c / inject_Z T) in *.
  set (rho := binval (Zpos mx) ex / binval (Zpos my) ey) in *.
  set (Vq := binval (Zpos mq) eq) in *.
  assert (Bq5 : r - 5 * u52 <= Vq <= r + 5 * u52) by (unfold u52 in *; lra).
  assert (Lq : (1 # 36893488147419103232) <= Vq) by (unfold u52 in *; lra).
  destruct Hp as [[Ez Pz]|(mp & ep & Ep & Hmp & Vp)].
  - exists Vq. split.
    + exists mq, eq. split; [|split; [exact Hq | reflexivity]].
      rewrite add_spec, Eq, Ez. reflexivity.
    + unfold u52 in *. lra.
  - assert (P2 : pow2 2 == 4) by reflexivity.
    assert (Pm66 : pow2 (-66) == 1 # 73786976294838206464) by reflexivity.
    destruct (add_normal64 (float64_of_int c / float64_of_int T)%float p
                mq eq mp ep (-66) 2 Eq Ep) as (m & e & E & Hm & Rm);
      try lia.
    + rewrite Pm66. fold Vq. rewrite <- Vp. unfold u52 in *. lra.
    + rewrite P2. fold Vq. rewrite <- Vp. unfold u52 in *. lra.
    + destruct (rounds_error _ _ _ Rm) as [_ Bm].
      change (1 # 2 ^ 52) with u52 in Bm.
      pose proof (rounds_monotone _ _ _ mp ep Rm ltac:(lia)) as Mono.
      fold Vq in Bm, Mono. rewrite <- Vp in Bm, Mono.
      exists (binval (Zpos m) e). split.
      * exists m, e. split; [exact E|]. split; [exact Hm | reflexivity].
      * unfold u52 in *. split; [apply Mono|]; lra.
Qed.

End ErrorBounds.

(** ** buildHistogram: the cumulative values *)

Section BucketCount.
Context {F : Type} `{Float64Laws F}.
Variables slowest steps : F.

Lemma bucketKey_candidate (v : F) :
  In (bucketKey slowest steps v) (candidates slowest steps).
Proof.
  unfold candidates.
  destruct (bucketKey_last_match slowest steps v)
    as [[E _]|(i & Hi & _ & _ & E)]; rewrite E.
  - left. reflexivity.
  - right. apply in_map.
    assert (Hc : i = 0 \/ i = 1 \/ i = 2 \/ i = 3 \/ i = 4 \/ i = 5 \/
                 i = 6 \/ i = 7 \/ i = 8 \/ i = 9 \/ i = 10) by lia.
    repeat (destruct Hc as [->|Hc]; [simpl; auto 20|]).
    subst i. simpl. auto 20.
Qed.

Lemma countBuckets_candidates (l : list F) :
  Forall (fun k => In k (candidates slowest steps))
         (GoMap.keys (countBuckets slowest steps l)).
Proof.
  induction l as [|x l IH] using rev_ind; [constructor|].
  rewrite countBuckets_snoc. apply keys_set; [exact IH|].
  apply bucketKey_candidate.
Qed.

Lemma distinct_NoDup (l : list F) :
  distinct l -> Forall (fun k => f64_eq k k = true) l -> NoDup l.
Proof.
  induction l as [|x l IH]; intros Hd Hn; [constructor|].
  destruct Hd as [Hx Hd]. inversion Hn as [|? ? Nx Nl]; subst.
  constructor; [|apply IH; assumption].
  intros Hin. rewrite Forall_forall in Hx. specialize (Hx x Hin). congruence.
Qed.

(** The map of [buildHistogram] never has more than twelve keys. *)
Lemma countBuckets_at_most_12 (l : list F) :
  (List.length (GoMap.keys (countBuckets slowest steps l)) <= 12)%nat.
Proof.
  change 12%nat with (List.length (candidates slowest steps)).
  apply NoDup_incl_length.
  - apply distinct_NoDup;
      [apply countBuckets_distinct | apply countBuckets_notnan].
  - intros k Hk. pose proof (countBuckets_candidates l) as Hc.
    rewrite Forall_forall in Hc. apply Hc. exact Hk.
Qed.

End BucketCount.

Lemma sum_counts_nonneg {A} (f : A -> Z) (l : list A) :
  Forall (fun k => 1 <= f k) l -> 0 <= fold_right Z.add 0 (map f l).
Proof.
  induction 1 as [|k l Hk _ IH]; simpl; lia.
Qed.

Lemma normal64_pos (x : float) (V : Q) : normal64 x V -> (0 < V)%Q.
Proof.
  intros (m & e & _ & _ & E). rewrite E. unfold binval.
  apply Qmult_lt_0_compat; [reflexivity | apply pow2_pos].
Qed.

Lemma normal64_exactValue (x : float) (V : Q) :
  normal64 x V -> exists q, exactValue x = Some q /\ (q == V)%Q.
Proof.
  intros (m & e & E & _ & EV). unfold exactValue. rewrite E.
  eexists. split; [reflexivity|]. rewrite EV. unfold binval, pow2. ring.
Qed.

Section CumulativeBinary64.
Variable bucketCount : list (float * Z).
Variable total : Z.
Hypothesis Htotal : 1 <= total < 2 ^ 63.

Local Abbreviation countOf := (GoMap.get 0 bucketCount).
Local Abbreviation sumOf keys :=
  (fold_right Z.add 0%Z (map countOf keys)).

(** The last loop of [buildHistogram] at binary64, from a point where the
    counts of [n] keys, [s] in all, have been added up to [prev]: every
    further value is a normal number that is not less than the one
    before, and the last one is within [8 * 2^-52] per key of the exact
    fraction. *)
Lemma cumulative_binary64 : forall keys prev P s n,
  nonneg64 prev P ->
  0 <= s -> 0 <= n ->
  Forall (fun k => 1 <= countOf k) keys ->
  s + sumOf keys <= total ->
  n + len keys <= 12 ->
  (inject_Z s / inject_Z total - inject_Z n * (8 * u52) <= P
     <= inject_Z s / inject_Z total + inject_Z n * (8 * u52))%Q ->
  let l := cumulative bucketCount total prev keys in
  StronglySorted (fun a b => PrimFloat.leb a b = true) (map snd l) /\
  Forall (fun v => exists V, normal64 v V /\ (P <= V)%Q) (map snd l) /\
  (keys <> [] ->
   exists V,
     normal64 (last (map snd l) prev) V /\
     (inject_Z (s + sumOf keys) / inject_Z total
        - inject_Z (n + len keys) * (8 * u52) <= V
      <= inject_Z (s + sumOf keys) / inject_Z total
        + inject_Z (n + len keys) * (8 * u52))%Q).
Proof.
  induction keys as [|k keys IH]; intros prev P s n Hp Hs Hn Hc Hsum HN HP l.
  - split; [constructor|]. split; [constructor|]. intros C. congruence.
  - inversion Hc as [|? ? Hk Hc']; subst.
    pose proof (sum_counts_nonneg countOf keys Hc') as Hrest.
    pose proof (len_nonneg keys) as Hlen.
    assert (Elen : len (k :: keys) = 1 + len keys)
      by (unfold len; simpl List.length; lia).
    rewrite Elen in *.
    cbn [map fold_right] in Hsum |- *.
    set (c := countOf k) in *.
    set (rest := sumOf keys) in *.
    assert (QT : (0 < inject_Z total)%Q).
    { change 0%Q with (inject_Z 0). rewrite <- Zlt_Qlt. lia. }
    assert (Qs : (0 <= inject_Z s / inject_Z total <= 1)%Q).
    { split.
      - apply Qle_shift_div_l; [exact QT|]. rewrite Qmult_0_l.
        change 0%Q with (inject_Z 0). rewrite <- Zle_Qle. lia.
      - apply Qle_shift_div_r; [exact QT|]. rewrite Qmult_1_l.
        rewrite <- Zle_Qle. lia. }
    assert (Qn : (0 <= inject_Z n <= 12)%Q).
    { change 0%Q with (inject_Z 0). change 12%Q with (inject_Z 12).
      rewrite <- !Zle_Qle. lia. }
    assert (HP0 : (0 <= P)%Q).
    { destruct Hp as [[_ E]|Hp]; [rewrite E; apply Qle_refl|].
      apply Qlt_le_weak. apply (normal64_pos _ _ Hp). }
    assert (HP1 : (0 <= P <= 3 # 2)%Q).
    { split; [exact HP0|]. unfold u52 in *. nra. }
    destruct (cum_step prev P c total) as (V & FV & PV & BV);
      try assumption; try lia.
    assert (Esum : (inject_Z (s + c) / inject_Z total ==
                    inject_Z s / inject_Z total + inject_Z c / inject_Z total)%Q).
    { rewrite inject_Z_plus. field. lra. }
    assert (En : (inject_Z (n + 1) == inject_Z n + 1)%Q).
    { rewrite inject_Z_plus. reflexivity. }
    assert (HV : (inject_Z (s + c) / inject_Z total
                    - inject_Z (n + 1) * (8 * u52) <= V
                  <= inject_Z (s + c) / inject_Z total
                    + inject_Z (n + 1) * (8 * u52))%Q).
    { rewrite Esum, En. unfold u52 in *. lra. }
    unfold l. cbn [cumulative map snd].
    change (f64_add (f64_div (f64_of_int (countOf k)) (f64_of_int total)) prev)
      with (float64_of_int c / float64_of_int total + prev)%float.
    set (cur := (float64_of_int c / float64_of_int total + prev)%float) in *.
    destruct (IH cur V (s + c) (n + 1)) as (Sd & Fa & La);
      try assumption; try lia; [right; exact FV|].
    fold rest in La.
    split; [|split].
    + constructor; [exact Sd|].
      revert Fa. apply Forall_impl. intros v (V' & FV' & LV').
      apply (leb_normal64 cur v V V' FV FV' LV').
    + constructor; [exists V; split; assumption|].
      revert Fa. apply Forall_impl. intros v (V' & FV' & LV').
      exists V'. split; [exact FV'|]. lra.
    + intros _. destruct keys as [|k' keys'].
      * exists V. split; [exact FV|].
        unfold rest. cbn [map fold_right len List.length].
        replace (s + (c + 0)) with (s + c) by lia.
        change (1 + len (@nil float)) with 1 in *.
        exact HV.
      * destruct La as (V' & FV' & BV'); [discriminate|].
        exists V'. split.
        -- rewrite last_cons. exact FV'.
        -- replace (s + (c + rest)) with (s + c + rest) by lia.
           replace (n + (1 + len (k' :: keys'))) with
             (n + 1 + len (k' :: keys')) by lia.
           exact BV'.
Qed.

End CumulativeBinary64.

(** The histogram of a non-empty series at binary64, for [total] the
    number of samples. *)
Lemma histogramOf_binary64 (series : list float) (total : Z) :
  series <> [] ->
  len series <= max_int ->
  total = len series ->
  let hist := histogramOf series total 0%float in
  StronglySorted (fun a b => PrimFloat.ltb a b = true) (map fst hist) /\
  StronglySorted (fun a b => PrimFloat.leb a b = true) (map snd hist) /\
  (exists q, exactValue (last (map snd hist) 0%float) = Some q /\
             (Qabs (q - 1) <= 1 # 2 ^ 45)%Q) /\
  Forall (fun k => 1 <= samplesIn series 0%float k) (map fst hist).
Proof.
  intros Hs Hl Ht hist. unfold hist.
  destruct (histogram_buckets series total 0%float Hl) as (K & P & G & E).
  pose proof (len_pos series Hs) as Hp.
  split; [exact K|].
  rewrite histogramOf_cumulative in *. rewrite cumulative_keys in *.
  set (bc := bucketCountOf series 0%float) in *.
  set (keys := GoSort.Float64s (GoMap.keys bc)) in *.
  assert (HT : 1 <= total < 2 ^ 63) by (unfold max_int in Hl; lia).
  assert (Hcounts : Forall (fun k => 1 <= GoMap.get 0 bc k) keys).
  { rewrite Forall_forall in *. intros k Hk.
    rewrite (G k Hk). apply P. exact Hk. }
  assert (Esum : fold_right Z.add 0 (map (GoMap.get 0 bc) keys) = total).
  { rewrite (map_ext_in _ (samplesIn series 0%float)); [lia|].
    intros k Hk. rewrite Forall_forall in G. apply G. exact Hk. }
  assert (Hlen : len keys <= 12).
  { unfold keys, len. rewrite Float64s_length. unfold bc, bucketCountOf.
    pose proof (countBuckets_at_most_12 (nth 0 series 0%float)
                  (stepsOf series 0%float) series). lia. }
  assert (Hne : keys <> []).
  { intros C. rewrite C in Esum. simpl in Esum. lia. }
  destruct (cumulative_binary64 bc total HT keys (f64_of_int 0) 0%Q 0 0)
    as (Sd & _ & La); try lia; try assumption.
  - left. split; [reflexivity | apply Qeq_refl].
  - unfold u52. change (inject_Z 0) with 0%Q. split.
    + assert (E0 : (0 / inject_Z total == 0)%Q) by (unfold Qdiv; ring).
      rewrite E0. lra.
    + assert (E0 : (0 / inject_Z total == 0)%Q) by (unfold Qdiv; ring).
      rewrite E0. lra.
  - split; [exact Sd|]. split; [|exact P].
    destruct (La Hne) as (V & FV & BV).
    destruct (normal64_exactValue _ _ FV) as (q & Eq & EV).
    exists q. split; [exact Eq|].
    cbn [Z.add] in BV. rewrite Esum in BV.
    assert (E1 : (inject_Z total / inject_Z total == 1)%Q).
    { field. change 0%Q with (inject_Z 0). rewrite inject_Z_injective. lia. }
    assert (Qn : (0 <= inject_Z (len keys) <= 12)%Q).
    { change 0%Q with (inject_Z 0). change 12%Q with (inject_Z 12).
      rewrite <- !Zle_Qle. unfold len in *. lia. }
    rewrite E1 in BV. apply Qabs_Qle_condition.
    change (1 # 2 ^ 45)%Q with (1 # 35184372088832)%Q.
    unfold u52 in BV. rewrite EV.
    set (N := inject_Z (len keys)) in *. split; lra.
Qed.

(** C7: at binary64, for a non-empty series and [total] the number of its
    samples, the histogram that [buildHistogram] returns has its keys in
    strictly increasing order and, in that order, non-decreasing
    cumulative values; the last cumulative value is a finite number
    within 2^-45 of 1; and every key in it counts at least one sample of
    the series (no bucket with a zero count is listed). *)
Theorem histogram_cumulative (series : list float) (total : Z) :
  series <> [] ->
  len series <= max_int ->
  total = len series ->
  exists hist,
    buildHistogram series total = Some hist /\
    StronglySorted (fun a b => PrimFloat.ltb a b = true) (map fst hist) /\
    StronglySorted (fun a b => PrimFloat.leb a b = true) (map snd hist) /\
    (exists q, exactValue (last (map snd hist) 0%float) = Some q /\
               (Qabs (q - 1) <= 1 # 2 ^ 45)%Q) /\
    Forall (fun k => 1 <= samplesIn series 0%float k) (map fst hist).
Proof.
  intros Hs Hl Ht.
  exists (histogramOf series total 0%float).
  split; [apply buildHistogram_nonempty; assumption|].
  apply histogramOf_binary64; assumption.
Qed.

Lemma histogram_cumulative_witness :
  exists hist,
    buildHistogram
      [0x1p-3; 0x1p-2; 0x1.8p-2; 0x1p-1; 0x1.4p-1; 0x1.8p-1]%float 6
      = Some hist /\
    map snd hist =
      [0x1.5555555555555p-3; 0x1.5555555555555p-2; 0x1p-1;
       0x1.5555555555555p-1; 0x1.aaaaaaaaaaaaap-1;
       0x1.fffffffffffffp-1]%float /\
    StronglySorted (fun a b => PrimFloat.leb a b = true) (map snd hist) /\
    (exists q, exactValue (last (map snd hist) 0%float) = Some q /\
               (Qabs (q - 1) <= 1 # 2 ^ 45)%Q).
Proof.
  destruct (histogram_cumulative
              [0x1p-3; 0x1p-2; 0x1.8p-2; 0x1p-1; 0x1.4p-1; 0x1.8p-1]%float 6)
    as (hist & E & _ & Sd & Lq & _).
  - discriminate.
  - vm_compute. discriminate.
  - reflexivity.
  - exists hist. split; [exact E|]. split; [|split; assumption].
    vm_compute in E. injection E as <-. reflexivity.
Defined.

(** At binary64 the last cumulative value is 1 only up to rounding: six
    samples, one per bucket, add up to 1 - 2^-53. *)
Example histogram_binary64_rounding :
  buildHistogram
    [0x1p-3; 0x1p-2; 0x1.8p-2; 0x1p-1; 0x1.4p-1; 0x1.8p-1]%float 6 =
  Some [ (0x1.8p-3, 0x1.5555555555555p-3);
         (0x1.4p-2, 0x1.5555555555555p-2);
         (0x1.cp-2, 0x1p-1);
         (0x1.2p-1, 0x1.5555555555555p-1);
         (0x1.6p-1, 0x1.aaaaaaaaaaaaap-1);
         (0x1.ap-1, 0x1.fffffffffffffp-1) ]%float.
Proof. vm_compute. reflexivity. Qed.

(** ** buildHistogram: the key of the largest sample *)

(** C3: [buildHistogram] on the series [5; 10] (minimum 5, maximum 10,
    bucket width 0.5).  The scan visits the eleven intervals
    [5 + 0.5 i, 5 + 0.5 (i + 1)] for i = 0 .. 10 and keeps the upper bound
    of the last one that contains the sample: the sample 10 lies in
    [9.5, 10] but is counted under the key 10.5 of [10, 10.5], a key above
    the maximum; a sample 5.5 on the bound between [5, 5.5] and [5.5, 6]
    would be counted under 6, the upper bound of the higher bucket. *)
Theorem buildHistogram_key_above_max :
  buildHistogram [5; 10]%float 2 =
    Some [(5.5, 0.5); (10.5, 1)]%float /\
  bucketKey 5%float 0.5%float 10%float = 10.5%float /\
  PrimFloat.leb 9.5 10 && PrimFloat.leb 10 10 = true /\
  PrimFloat.ltb 10 10.5 = true /\
  bucketKey 5%float 0.5%float 5.5%float = 6%float /\
  PrimFloat.leb 5 5.5 && PrimFloat.leb 5.5 5.5 = true.
Proof. repeat split; vm_compute; reflexivity. Qed.

(** ** Worker.Run *)

Lemma bind_act {B} (a : Action) (k : M B) :
  (act a ;;; k) = (a :: fst k, snd k).
Proof. unfold bind, act. destruct k. reflexivity. Qed.

Section RunFacts.
Variable w : Worker.t.
Variable env : Env.

Lemma publishLoop_trace topicName n : forall i publishedCount,
  0 <= i -> 0 <= publishedCount ->
  i + Z.of_nat n <= max_int -> publishedCount + Z.of_nat n <= max_int ->
  publishLoop w env topicName n i publishedCount =
  (flat_map (iteration w env topicName) (indices i n),
   Returns (publishedCount + Z.of_nat n)).
Proof.
  induction n as [|n IH]; intros i c Hi Hc Hin Hcn.
  - simpl. unfold ret. rewrite Z.add_0_r. reflexivity.
  - cbn [publishLoop]. rewrite !bind_act.
    rewrite !int_add_small
      by (unfold in_range, min_int, max_int in *; lia).
    rewrite IH by lia.
    cbn [fst snd indices flat_map iteration app].
    f_equal. f_equal. lia.
Qed.

(** A run that starts up: connect, wait, then either the ConnectFailed
    result alone or the publish loop, disconnect and the Completed
    result. *)
Lemma Run_startsUp :
  startsUp w env ->
  0 <= Worker.NumberOfMessages w <= max_int ->
  exists o,
    Run w env =
    (Connect o :: WaitTimeout (Worker.Timeout w) (ConnectWait env) ::
     (if connectFailed env then [Send (connectFailedResult w env)]
      else flat_map (iteration w env (topicOf w env))
                    (indices 0 (iterations w)) ++
           [Disconnect 5;
            Send (completedResult w env (Worker.NumberOfMessages w))]),
     Returns tt).
Proof.
  intros (Hh & Hskip & Htls) HN. unfold Run, topicOf.
  destruct (Hostname env) as [hostname err]. simpl in Hh. subst err.
  cbn [fst]. rewrite Hskip.
  set (o0 := NewClientOptions _ _ _ _).
  unfold bind at 1. unfold ret at 1. cbn [app].
  assert (Ho : exists o,
    (if (0 <? len (Worker.CA w)) || (0 <? len (Worker.Key w))
     then match NewTLSConfig env (Worker.CA w) (Worker.Cert w) (Worker.Key w) with
          | inl tlsConfig => ret (SetTLSConfig o0 tlsConfig)
          | inr e => panic e
          end
     else ret o0) = ret o).
  { destruct ((0 <? len (Worker.CA w)) || (0 <? len (Worker.Key w))).
    - destruct (Htls eq_refl) as [c ->]. eauto.
    - eauto. }
  destruct Ho as [o ->]. exists o.
  unfold bind at 1. unfold ret at 1.
  rewrite !bind_act. fold (connectFailed env).
  destruct (connectFailed env).
  - reflexivity.
  - unfold iterations.
    rewrite publishLoop_trace by (rewrite ?Z2Nat.id; lia).
    unfold bind at 1. rewrite !bind_act.
    rewrite Z2Nat.id by lia. reflexivity.
Qed.

End RunFacts.

Section TraceFacts.
Variable w : Worker.t.
Variable env : Env.

Lemma sent_app tr tr' : sent (tr ++ tr') = sent tr ++ sent tr'.
Proof. apply flat_map_app. Qed.

Lemma published_app tr tr' :
  published (tr ++ tr') = published tr ++ published tr'.
Proof. apply flat_map_app. Qed.

Lemma sent_iterations topicName l :
  sent (flat_map (iteration w env topicName) l) = [].
Proof.
  induction l as [|i l IH]; [reflexivity|].
  cbn [flat_map]. rewrite sent_app, IH. reflexivity.
Qed.

Lemma published_iterations topicName l :
  published (flat_map (iteration w env topicName) l) =
  map (Worker.PayloadGen w) l.
Proof.
  induction l as [|i l IH]; [reflexivity|].
  cbn [flat_map]. rewrite published_app, IH. reflexivity.
Qed.

Lemma indices_length i n : List.length (indices i n) = n.
Proof.
  revert i. induction n as [|n IH]; intros i; simpl;
    [reflexivity | rewrite IH; reflexivity].
Qed.

(** When the connect check does not fire, the run publishes every message
    and sends the Completed result alone. *)
Lemma Run_completes :
  startsUp w env ->
  connectFailed env = false ->
  0 <= Worker.NumberOfMessages w <= max_int ->
  snd (Run w env) = Returns tt /\
  published (fst (Run w env)) =
    map (Worker.PayloadGen w) (indices 0 (iterations w)) /\
  sent (fst (Run w env)) =
    [completedResult w env (Worker.NumberOfMessages w)].
Proof.
  intros Hs Hc HN. destruct (Run_startsUp w env Hs HN) as [o ->].
  rewrite Hc. cbn [fst snd]. split; [reflexivity|]. split.
  - change (published (Connect o :: WaitTimeout (Worker.Timeout w)
                         (ConnectWait env) :: ?t)) with (published t).
    rewrite published_app, published_iterations. simpl.
    rewrite app_nil_r. reflexivity.
  - change (sent (Connect o :: WaitTimeout (Worker.Timeout w)
                    (ConnectWait env) :: ?t)) with (sent t).
    rewrite sent_app, sent_iterations. reflexivity.
Qed.

(** When the connect attempt ends within the timeout with an error, the run
    sends the ConnectFailed result alone and publishes nothing. *)
Lemma Run_connect_error e :
  startsUp w env ->
  0 <= Worker.NumberOfMessages w <= max_int ->
  ConnectWait env = true ->
  ConnectError env = Some e ->
  snd (Run w env) = Returns tt /\
  published (fst (Run w env)) = [] /\
  sent (fst (Run w env)) = [connectFailedResult w env].
Proof.
  intros Hs HN Hw He. destruct (Run_startsUp w env Hs HN) as [o ->].
  unfold connectFailed. rewrite Hw, He. simpl. auto.
Qed.

(** When the wait for the connect attempt times out, the connect check
    does not fire, whatever the token's error. *)
Lemma connect_timeout_not_failed :
  ConnectWait env = false -> connectFailed env = false.
Proof. unfold connectFailed. intros ->. reflexivity. Qed.

(** So a worker whose connect attempt times out runs the publish loop and
    sends Completed, never ConnectFailed. *)
Lemma Run_connect_timeout_completes :
  startsUp w env ->
  0 <= Worker.NumberOfMessages w <= max_int ->
  ConnectWait env = false ->
  sent (fst (Run w env)) =
    [completedResult w env (Worker.NumberOfMessages w)] /\
  len (published (fst (Run w env))) = Worker.NumberOfMessages w.
Proof.
  intros Hs HN Hw.
  destruct (Run_completes Hs (connect_timeout_not_failed Hw) HN)
    as (_ & P & S).
  split; [exact S|]. rewrite P. unfold len, iterations.
  rewrite length_map, indices_length. lia.
Qed.

End TraceFacts.

(** C9: a worker that enters the publish loop with a message count N
    publishes the N payloads of the indices 0 .. N-1 in order, whatever
    the waits for the acknowledgments answer, and then sends one result,
    Completed with N published messages. *)
Theorem publish_loop_counts_all (w : Worker.t) (env : Env) :
  startsUp w env ->
  connectFailed env = false ->
  0 <= Worker.NumberOfMessages w <= max_int ->
  forall ack : Z -> bool,
    let env' :=
      mkEnv (Hostname env) (Int31 env) (FormatId env) (FormatTopic env)
            (FormatClientId env) (AppendCertsFromPEM env) (X509KeyPair env)
            (ConnectWait env) (ConnectError env) ack (Since env) in
    let tr := fst (Run w env') in
    snd (Run w env') = Returns tt /\
    published tr =
      map (Worker.PayloadGen w)
          (indices 0 (Z.to_nat (Worker.NumberOfMessages w))) /\
    len (published tr) = Worker.NumberOfMessages w /\
    sent tr = [ {| Result.WorkerId := Worker.WorkerId w;
                   Result.Event := CompletedEvent;
                   Result.PublishTime := Since env;
                   Result.MessagesPublished := Worker.NumberOfMessages w;
                   Result.Error := false;
                   Result.ErrorMessage := None |} ].
Proof.
  intros Hs Hc HN ack env' tr.
  assert (Hs' : startsUp w env') by exact Hs.
  assert (Hc' : connectFailed env' = false) by exact Hc.
  destruct (Run_completes w env' Hs' Hc' HN) as (R & P & S).
  split; [exact R|]. split; [exact P|]. split; [|exact S].
  unfold tr. rewrite P. unfold len, iterations.
  rewrite length_map, indices_length. lia.
Qed.

Lemma publish_loop_counts_all_witness :
  (forall i, PublishWait envAckTimeout i = false) /\
  ConnectWait envAckTimeout = true /\
  published (fst (Run worker2 envAckTimeout)) =
    [ "payload"; "payload" ]%string /\
  sent (fst (Run worker2 envAckTimeout)) =
    [ Result.mk 7 CompletedEvent (3 * Second) 2 false None ].
Proof.
  split; [reflexivity|]. split; [reflexivity|].
  destruct (publish_loop_counts_all worker2 envAckTimeout) with
    (ack := fun _ : Z => false) as (_ & P & _ & S).
  - split; [reflexivity|]. split; [reflexivity | discriminate].
  - reflexivity.
  - vm_compute. split; discriminate.
  - split; [exact P | exact S].
Defined.

(** C1: a worker whose wait for the connect attempt times out
    ([WaitTimeout] answers false).  The check
    [token.WaitTimeout(w.Timeout) && token.Error() != nil] is false, so the
    run enters the publish loop: it publishes its two messages and sends
    Completed with 2 published messages; it sends no ConnectFailed. *)
Theorem Run_connect_timeout :
  ConnectWait envConnectTimeout = false /\
  Run worker2 envConnectTimeout =
  ([ Connect (mkOptions "client" "user" "secret" "tcp://broker:1883"
                        None);
     WaitTimeout (5 * Second) false;
     Publish "topic" 1 false "payload";
     WaitTimeout (5 * Second) true;
     Sleep 0;
     Publish "topic" 1 false "payload";
     WaitTimeout (5 * Second) true;
     Sleep 0;
     Disconnect 5;
     Send (Result.mk 7 CompletedEvent (3 * Second) 2 false None) ],
   Returns tt) /\
  sent (fst (Run worker2 envConnectTimeout)) =
    [ Result.mk 7 CompletedEvent (3 * Second) 2 false None ].
Proof. repeat split. Qed.




(** * Further properties *)

(** ** Worker.Run: every run *)

Lemma publishLoop_any_count (w : Worker.t) (env : Env) topicName :
  Worker.NumberOfMessages w <= max_int ->
  publishLoop w env topicName (iterations w) 0 0 =
  (flat_map (iteration w env topicName) (indices 0 (iterations w)),
   Returns (Z.of_nat (iterations w))).
Proof.
  intros HN. unfold iterations, max_int in *.
  rewrite publishLoop_trace; [reflexivity | | | |]; unfold max_int; lia.
Qed.

(** The whole of a run, for every worker and environment: a panic before
    any action when the host name fails, when SkipTLSVerification is set
    or when the TLS configuration fails, and otherwise connect, wait, and
    [afterConnect]. *)
Lemma Run_cases (w : Worker.t) (env : Env) :
  Worker.NumberOfMessages w <= max_int ->
  Run w env =
  match snd (Hostname env) with
  | Some e => ([], Panics e)
  | None =>
      if Worker.SkipTLSVerification w then ([], Panics ErrNilPointer)
      else if tlsMaterial w then
        match NewTLSConfig env (Worker.CA w) (Worker.Cert w) (Worker.Key w) with
        | inr e => ([], Panics e)
        | inl c =>
            (Connect (SetTLSConfig (plainOptions w env) c) ::
             WaitTimeout (Worker.Timeout w) (ConnectWait env) ::
             afterConnect w env, Returns tt)
        end
      else
        (Connect (plainOptions w env) ::
         WaitTimeout (Worker.Timeout w) (ConnectWait env) ::
         afterConnect w env, Returns tt)
  end.
Proof.
  intros HN. unfold Run, afterConnect, topicOf, tlsMaterial, plainOptions.
  destruct (Hostname env) as [hostname [e|]]; cbn [fst snd]; [reflexivity|].
  assert (Hrest : forall o,
    (act (Connect o) ;;;
     act (WaitTimeout (Worker.Timeout w) (ConnectWait env)) ;;;
     (if ConnectWait env && notNil (ConnectError env)
      then act (Send {| Result.WorkerId := Worker.WorkerId w;
                        Result.Event := ConnectFailedEvent;
                        Result.PublishTime := 0;
                        Result.MessagesPublished := 0;
                        Result.Error := true;
                        Result.ErrorMessage := ConnectError env |})
      else
        publishedCount <-
          publishLoop w env
            (FormatTopic env hostname (FormatId env (Worker.WorkerId w))
                         (Int31 env)) (iterations w) 0 0 ;;
        act (Disconnect 5) ;;;
        act (Send {| Result.WorkerId := Worker.WorkerId w;
                     Result.Event := CompletedEvent;
                     Result.PublishTime := Since env;
                     Result.MessagesPublished := publishedCount;
                     Result.Error := false;
                     Result.ErrorMessage := None |})))
    = (Connect o :: WaitTimeout (Worker.Timeout w) (ConnectWait env) ::
       (if connectFailed env then [Send (connectFailedResult w env)]
        else flat_map
               (iteration w env
                  (FormatTopic env hostname (FormatId env (Worker.WorkerId w))
                               (Int31 env)))
               (indices 0 (iterations w)) ++
             [Disconnect 5;
              Send (completedResult w env (Z.of_nat (iterations w)))]),
       Returns tt)).
  { intros o. rewrite !bind_act. fold (connectFailed env).
    destruct (connectFailed env); [reflexivity|].
    rewrite publishLoop_any_count by exact HN.
    unfold bind at 1. rewrite !bind_act. reflexivity. }
  destruct (Worker.SkipTLSVerification w); [reflexivity|].
  unfold bind at 1, ret at 1. cbn [app].
  destruct ((0 <? len (Worker.CA w)) || (0 <? len (Worker.Key w))).
  - destruct (NewTLSConfig env (Worker.CA w) (Worker.Cert w) (Worker.Key w))
      as [c|e].
    + unfold bind at 1, ret at 1. cbn [app].
      rewrite Hrest. reflexivity.
    + reflexivity.
  - unfold bind at 1, ret at 1. cbn [app].
    rewrite Hrest. reflexivity.
Qed.

(** A run sends at most one result: either it panics before any action
    and sends none, or it returns and its last action sends its only
    result, ConnectFailed after no publish or Completed with the number
    of published messages, which is the message count, or 0 for a
    negative count. *)
Theorem Run_one_result_or_panic (w : Worker.t) (env : Env) :
  Worker.NumberOfMessages w <= max_int ->
  (exists e, Run w env = ([], Panics e)) \/
  (exists tr r,
     Run w env = (tr ++ [Send r], Returns tt) /\
     sent tr = [] /\
     ((r = connectFailedResult w env /\ published tr = []) \/
      (r = completedResult w env (Z.max 0 (Worker.NumberOfMessages w)) /\
       len (published tr) = Z.max 0 (Worker.NumberOfMessages w)))).
Proof.
  intros HN. rewrite (Run_cases w env HN).
  assert (Hafter : forall o,
    exists tr r,
      (Connect o :: WaitTimeout (Worker.Timeout w) (ConnectWait env) ::
       afterConnect w env, Returns tt) = (tr ++ [Send r], Returns tt) /\
      sent tr = [] /\
      ((r = connectFailedResult w env /\ published tr = []) \/
       (r = completedResult w env (Z.max 0 (Worker.NumberOfMessages w)) /\
        len (published tr) = Z.max 0 (Worker.NumberOfMessages w)))).
  { intros o. unfold afterConnect.
    assert (Hn : Z.of_nat (iterations w) = Z.max 0 (Worker.NumberOfMessages w))
      by (unfold iterations; lia).
    destruct (connectFailed env).
    - exists [Connect o; WaitTimeout (Worker.Timeout w) (ConnectWait env)].
      eexists. split; [reflexivity|]. split; [reflexivity|]. left. auto.
    - exists (Connect o :: WaitTimeout (Worker.Timeout w) (ConnectWait env) ::
              flat_map (iteration w env (topicOf w env))
                       (indices 0 (iterations w)) ++ [Disconnect 5]).
      exists (completedResult w env (Z.of_nat (iterations w))). split.
      { rewrite <- !app_comm_cons, <- app_assoc. reflexivity. }
      change (sent (Connect o :: WaitTimeout (Worker.Timeout w)
                      (ConnectWait env) :: ?t)) with (sent t).
      change (published (Connect o :: WaitTimeout (Worker.Timeout w)
                           (ConnectWait env) :: ?t)) with (published t).
      rewrite sent_app, sent_iterations, published_app, published_iterations.
      split; [reflexivity|]. right. rewrite Hn. split; [reflexivity|].
      cbn [published flat_map app]. rewrite app_nil_r.
      unfold len. rewrite length_map, indices_length. exact Hn. }
  destruct (snd (Hostname env)) as [e|]; [left; eauto|].
  destruct (Worker.SkipTLSVerification w); [left; eauto|].
  destruct (tlsMaterial w).
  - destruct (NewTLSConfig env (Worker.CA w) (Worker.Cert w) (Worker.Key w))
      as [c|e]; [right; apply Hafter | left; eauto].
  - right. apply Hafter.
Qed.

Lemma Run_one_result_or_panic_witness :
  (exists e, Run worker2 envConnectTimeout = ([], Panics e)) \/
  (exists tr r,
     Run worker2 envConnectTimeout = (tr ++ [Send r], Returns tt) /\
     sent tr = [] /\
     ((r = connectFailedResult worker2 envConnectTimeout /\
       published tr = []) \/
      (r = completedResult worker2 envConnectTimeout
             (Z.max 0 (Worker.NumberOfMessages worker2)) /\
       len (published tr) = Z.max 0 (Worker.NumberOfMessages worker2)))).
Proof.
  apply (Run_one_result_or_panic worker2 envConnectTimeout).
  vm_compute. discriminate.
Defined.

Lemma network_iterations (w : Worker.t) (env : Env) topicName l :
  filter isNetwork (flat_map (iteration w env topicName) l) =
  map (fun i => Publish topicName (Worker.PublisherQoS w) (Worker.Retained w)
                        (Worker.PayloadGen w i)) l.
Proof.
  induction l as [|i l IH]; [reflexivity|].
  cbn [flat_map map]. rewrite filter_app, IH. reflexivity.
Qed.

(** What a run that returns does on the network.  It connects once, first.
    When the connect check fires it does nothing more: it publishes
    nothing and never disconnects.  Otherwise it publishes the payloads of
    the indices 0 .. N-1 in order, all of them on its one topic with its
    QoS and its retained flag, and then disconnects once, with a quiesce
    of 5 ms. *)
Theorem Run_network_actions (w : Worker.t) (env : Env) :
  Worker.NumberOfMessages w <= max_int ->
  snd (Run w env) = Returns tt ->
  exists o,
    filter isNetwork (fst (Run w env)) =
    Connect o ::
    (if connectFailed env then []
     else map (fun i => Publish (topicOf w env) (Worker.PublisherQoS w)
                                (Worker.Retained w) (Worker.PayloadGen w i))
              (indices 0 (iterations w)) ++ [Disconnect 5]).
Proof.
  intros HN. rewrite (Run_cases w env HN).
  assert (Hafter : forall o,
    filter isNetwork
      (Connect o :: WaitTimeout (Worker.Timeout w) (ConnectWait env) ::
       afterConnect w env) =
    Connect o ::
    (if connectFailed env then []
     else map (fun i => Publish (topicOf w env) (Worker.PublisherQoS w)
                                (Worker.Retained w) (Worker.PayloadGen w i))
              (indices 0 (iterations w)) ++ [Disconnect 5])).
  { intros o. cbn [filter isNetwork]. f_equal. unfold afterConnect.
    destruct (connectFailed env); [reflexivity|].
    rewrite filter_app, network_iterations. reflexivity. }
  destruct (snd (Hostname env)) as [e|]; [discriminate|].
  destruct (Worker.SkipTLSVerification w); [discriminate|].
  destruct (tlsMaterial w).
  - destruct (NewTLSConfig env (Worker.CA w) (Worker.Cert w) (Worker.Key w))
      as [c|e]; [|discriminate].
    intros _. eexists. cbn [fst]. apply Hafter.
  - intros _. eexists. cbn [fst]. apply Hafter.
Qed.

Lemma Run_network_actions_witness :
  exists o,
    filter isNetwork (fst (Run worker3 envConnectTimeout)) =
    [ Connect o;
      Publish "topic" 1 false "this is msg #0!";
      Publish "topic" 1 false "this is msg #1!";
      Publish "topic" 1 false "this is msg #2!";
      Disconnect 5 ]%string.
Proof.
  destruct (Run_network_actions worker3 envConnectTimeout) as [o E].
  - vm_compute. discriminate.
  - reflexivity.
  - exists o. rewrite E. reflexivity.
Defined.

(** SkipTLSVerification never takes effect.  A worker with the flag set
    does not get as far as connecting: once the host name is known,
    [setSkipTLS] writes through the nil TLS configuration of the new
    options and the run panics, before any action and without a result,
    whatever the broker and the TLS material. *)
Theorem Run_skipTLS_panics (w : Worker.t) (env : Env) :
  Worker.SkipTLSVerification w = true ->
  snd (Hostname env) = None ->
  Run w env = ([], Panics ErrNilPointer) /\
  sent (fst (Run w env)) = [] /\
  filter isNetwork (fst (Run w env)) = [].
Proof.
  intros Hskip Hh.
  assert (E : Run w env = ([], Panics ErrNilPointer)).
  { unfold Run. destruct (Hostname env) as [hostname err]. simpl in Hh.
    subst err. rewrite Hskip. reflexivity. }
  rewrite E. auto.
Qed.

Lemma Run_skipTLS_panics_witness :
  Run workerSkipTLS envConnectTimeout = ([], Panics ErrNilPointer) /\
  sent (fst (Run workerSkipTLS envConnectTimeout)) = [] /\
  filter isNetwork (fst (Run workerSkipTLS envConnectTimeout)) = [].
Proof.
  apply (Run_skipTLS_panics workerSkipTLS envConnectTimeout);
    reflexivity.
Defined.

(** The options a worker connects with.  A run that connects has
    SkipTLSVerification unset, and certificate verification is never
    switched off: with CA or key material the TLS configuration is the
    one of [NewTLSConfig], which trusts the CA, presents the certificate
    and verifies the broker; without, the options have no TLS
    configuration at all.  The client is named after the worker and uses
    its credentials and broker address. *)
Theorem Run_connect_options (w : Worker.t) (env : Env) (o : ClientOptions)
  (tr : list Action) :
  Worker.NumberOfMessages w <= max_int ->
  fst (Run w env) = Connect o :: tr ->
  Worker.SkipTLSVerification w = false /\
  TLSConfig o =
    (if tlsMaterial w
     then Some (mkTls [Worker.CA w] false [(Worker.Cert w, Worker.Key w)])
     else None) /\
  ClientID o = FormatClientId env (FormatId env (Worker.WorkerId w)) /\
  OptUsername o = Worker.Username w /\
  OptPassword o = Worker.Password w /\
  Broker o = Worker.BrokerUrl w.
Proof.
  intros HN. rewrite (Run_cases w env HN).
  destruct (snd (Hostname env)) as [e|]; [discriminate|].
  destruct (Worker.SkipTLSVerification w); [discriminate|].
  destruct (tlsMaterial w).
  - unfold NewTLSConfig.
    destruct (AppendCertsFromPEM env (Worker.CA w)); [|discriminate].
    destruct (X509KeyPair env (Worker.Cert w) (Worker.Key w)); [discriminate|].
    cbn [negb fst]. intros E. injection E as <- _. auto 10.
  - cbn [fst]. intros E. injection E as <- _. auto 10.
Qed.

Lemma Run_connect_options_witness :
  exists o tr,
    fst (Run workerTLS envConnectTimeout) = Connect o :: tr /\
    TLSConfig o = Some (mkTls [[Byte.x2d]] false [([], [])]).
Proof.
  eexists. eexists. split; [reflexivity|].
  destruct (Run_connect_options workerTLS envConnectTimeout _ _
              ltac:(vm_compute; discriminate) eq_refl) as (_ & -> & _).
  reflexivity.
Defined.

(** ** defaultPayloadGen *)

Lemma to_int_printable (i : Z) :
  Z.to_int i <> Decimal.Pos Decimal.Nil /\ Z.to_int i <> Decimal.Neg Decimal.Nil.
Proof.
  destruct i as [|p|p]; simpl; split; try discriminate;
    intros E; injection E as E;
    apply (DecimalPos.Unsigned.to_uint_nonnil p E).
Qed.

Lemma formatInt_inj (i j : Z) : formatInt i = formatInt j -> i = j.
Proof.
  unfold formatInt. intros E.
  apply (f_equal DecimalString.NilZero.int_of_string) in E.
  destruct (to_int_printable i) as [Pi Ni], (to_int_printable j) as [Pj Nj].
  rewrite !DecimalString.NilZero.isi in E by assumption.
  injection E as E. apply (f_equal Z.of_int) in E.
  rewrite !DecimalZ.of_to in E. exact E.
Qed.

Lemma append_inj_l (p s t : string) : (p ++ s = p ++ t)%string -> s = t.
Proof.
  induction p as [|c p IH]; simpl; intros E; [exact E|].
  injection E as E. apply IH. exact E.
Qed.

Lemma append_inj_r (s t : string) (c : ascii) :
  (s ++ String c EmptyString = t ++ String c EmptyString)%string -> s = t.
Proof.
  revert t. induction s as [|a s IH]; intros [|b t]; simpl; intros E.
  - reflexivity.
  - injection E as _ E. destruct t; discriminate.
  - injection E as _ E. destruct s; discriminate.
  - injection E as <- E. f_equal. apply IH. exact E.
Qed.

(** The default payloads of different message indices are different, so
    a payload identifies its message. *)
Theorem defaultPayloadGen_inj (i j : Z) :
  defaultPayloadGen i = defaultPayloadGen j -> i = j.
Proof.
  unfold defaultPayloadGen. intros E.
  apply append_inj_l in E. apply append_inj_r in E.
  apply formatInt_inj. exact E.
Qed.

Lemma defaultPayloadGen_inj_witness :
  defaultPayloadGen 7 = "this is msg #7!"%string /\ 7 = 7.
Proof.
  split; [reflexivity|].
  apply (defaultPayloadGen_inj 7 7). reflexivity.
Defined.

Lemma indices_lower i n k : In k (indices i n) -> i <= k.
Proof.
  revert i. induction n as [|n IH]; intros i; simpl; [tauto|].
  intros [<-|Hk]; [lia|]. specialize (IH _ Hk). lia.
Qed.

Lemma indices_NoDup i n : NoDup (indices i n).
Proof.
  revert i. induction n as [|n IH]; intros i; simpl; constructor.
  - intros Hin. apply indices_lower in Hin. lia.
  - apply IH.
Qed.

Lemma NoDup_map_injective {A B} (f : A -> B) (l : list A) :
  (forall x y, f x = f y -> x = y) -> NoDup l -> NoDup (map f l).
Proof.
  intros Hf. induction 1 as [|x l Hx Hl IH]; simpl; constructor; [|exact IH].
  intros Hin. apply in_map_iff in Hin. destruct Hin as (y & E & Hy).
  apply Hf in E. subst y. contradiction.
Qed.

(** A worker with the default payload generator never publishes the same
    payload twice. *)
Theorem Run_default_payloads_distinct (w : Worker.t) (env : Env) :
  Worker.PayloadGen w = defaultPayloadGen ->
  Worker.NumberOfMessages w <= max_int ->
  NoDup (published (fst (Run w env))).
Proof.
  intros Hg HN. rewrite (Run_cases w env HN).
  assert (Hafter : forall o,
    NoDup (published (Connect o ::
                      WaitTimeout (Worker.Timeout w) (ConnectWait env) ::
                      afterConnect w env))).
  { intros o.
    change (published (Connect o :: WaitTimeout (Worker.Timeout w)
                         (ConnectWait env) :: ?t)) with (published t).
    unfold afterConnect. destruct (connectFailed env); [constructor|].
    rewrite published_app, published_iterations. cbn [published flat_map app].
    rewrite app_nil_r, Hg.
    apply NoDup_map_injective; [|apply indices_NoDup].
    intros i j E. unfold defaultPayloadGen in E.
    apply append_inj_l, append_inj_r in E. apply formatInt_inj. exact E. }
  destruct (snd (Hostname env)); [constructor|].
  destruct (Worker.SkipTLSVerification w); [constructor|].
  destruct (tlsMaterial w); [|apply Hafter].
  destruct (NewTLSConfig env (Worker.CA w) (Worker.Cert w) (Worker.Key w));
    [apply Hafter | constructor].
Qed.

Lemma Run_default_payloads_distinct_witness :
  published (fst (Run worker3 envConnectTimeout)) =
    [ "this is msg #0!"; "this is msg #1!"; "this is msg #2!" ]%string /\
  NoDup (published (fst (Run worker3 envConnectTimeout))).
Proof.
  split; [reflexivity|].
  apply (Run_default_payloads_distinct worker3 envConnectTimeout).
  - reflexivity.
  - vm_compute. discriminate.
Defined.

(** ** median and buildHistogram: the empty series *)

(** [median] and [buildHistogram] panic on the empty series, and on no
    other slice. *)
Theorem median_buildHistogram_panic_iff_empty {F : Type} `{Float64 F}
  (series : list F) (total : Z) :
  len series <= max_int ->
  (median series = None <-> series = []) /\
  (buildHistogram series total = None <-> series = []).
Proof.
  intros Hl. destruct series as [|x l].
  - split; split; reflexivity.
  - assert (Hne : x :: l <> []) by discriminate.
    rewrite (median_nonempty (x :: l) x Hne Hl).
    rewrite (buildHistogram_nonempty (x :: l) total x Hne Hl).
    split; split; discriminate.
Qed.

Lemma median_buildHistogram_panic_iff_empty_witness :
  median (@nil float) = None <-> @nil float = [].
Proof.
  apply (median_buildHistogram_panic_iff_empty (@nil float) 0).
  vm_compute. discriminate.
Defined.

(** ** buildSummary: slowest, median and fastest *)

Section Extremes.
Context {F : Type} `{Float64Laws F}.

Lemma ascending_first (l : list F) (d : F) :
  ascending l -> Forall (fun x => GoSort.Less x (nth 0 l d) = false) l.
Proof.
  unfold ascending. intros S. destruct S as [|x l S Hx]; [constructor|].
  simpl. constructor; [|exact Hx].
  destruct (GoSort.Less x x) eqn:E; [|reflexivity].
  rewrite (Less_asym x x E) in E. discriminate.
Qed.

Lemma ascending_last (l : list F) (d : F) :
  ascending l ->
  Forall (fun x => GoSort.Less (nth (List.length l - 1) l d) x = false) l.
Proof.
  unfold ascending. induction 1 as [|x l HS IH Hx]; [constructor|].
  destruct l as [|y l'].
  - simpl. constructor; [|constructor].
    destruct (GoSort.Less x x) eqn:E; [|reflexivity].
    rewrite (Less_asym x x E) in E. discriminate.
  - replace (List.length (x :: y :: l') - 1)%nat
      with (S (List.length (y :: l') - 1)) by (simpl; lia).
    set (n := (List.length (y :: l') - 1)%nat) in *.
    change (nth (S n) (x :: y :: l') d) with (nth n (y :: l') d).
    constructor; [|exact IH].
    rewrite Forall_forall in Hx. apply Hx.
    apply nth_In. unfold n. simpl. lia.
Qed.

(** In a summary that [buildSummary] returns, the first sample (printed as
    the slowest) is a sample that no sample is less than, and the last
    one (printed as the fastest) is a sample that is less than no
    sample, in the order of [sort.Float64s]. *)
Theorem buildSummary_slowest_fastest (nClient nMessages : Z)
  (results : list Result.t) (s : Summary.t F) (d : F) :
  len results <= max_int ->
  buildSummary nClient nMessages results = Some (s, None) ->
  let series := Summary.PublishPerformance s in
  let slowest := nth 0 series d in
  let fastest := nth (List.length series - 1) series d in
  In slowest (map sample (filter eligible results)) /\
  In fastest (map sample (filter eligible results)) /\
  Forall (fun x => GoSort.Less x slowest = false) series /\
  Forall (fun x => GoSort.Less fastest x = false) series.
Proof.
  intros Hl Hs.
  destruct (existsb eligible results) eqn:He.
  - rewrite (buildSummary_feasible nClient nMessages results d Hl He) in Hs.
    injection Hs as <-. cbn [summaryOf Summary.PublishPerformance]. cbv zeta.
    set (series := GoSort.Float64s (map sample (filter eligible results))).
    assert (Hne : (0 < List.length series)%nat).
    { unfold series. rewrite Float64s_length, length_map.
      apply count_pos_existsb in He. unfold count, len in He. lia. }
    pose proof (Float64s_perm (map sample (filter eligible results))) as P.
    fold series in P.
    split; [|split; [|split]].
    + apply (Permutation_in _ P). apply nth_In. exact Hne.
    + apply (Permutation_in _ P). apply nth_In. lia.
    + apply ascending_first. apply Float64s_ascending.
    + apply ascending_last. apply Float64s_ascending.
  - destruct results as [|r0 l].
    + rewrite buildSummary_empty in Hs. discriminate.
    + rewrite (buildSummary_infeasible nClient nMessages (r0 :: l)) in Hs
        by (auto; discriminate).
      discriminate.
Qed.

End Extremes.

Lemma buildSummary_slowest_fastest_witness :
  Forall (fun x => GoSort.Less x 5%float = false) [5; 10]%float /\
  Forall (fun x => GoSort.Less 10%float x = false) [5; 10]%float.
Proof.
  destruct (buildSummary_slowest_fastest (F:=float) 3 10 scenario
              scenarioSummary 0%float) as (_ & _ & L & U).
  - vm_compute. discriminate.
  - vm_compute. reflexivity.
  - exact (conj L U).
Defined.

(** ** buildSummary: the order of the results *)

Lemma wrap_add_l (a b : Z) : wrap (wrap a + b) = wrap (a + b).
Proof.
  unfold wrap. f_equal.
  replace ((a + 2 ^ 63) mod 2 ^ 64 - 2 ^ 63 + b + 2 ^ 63)
    with ((a + 2 ^ 63) mod 2 ^ 64 + b) by lia.
  rewrite Z.add_mod_idemp_l by lia. f_equal. lia.
Qed.

(** The published total is the sum of the published counts, wrapped once. *)
Lemma sumPublished_wrap (l : list Result.t) :
  sumPublished l =
  wrap (fold_right Z.add 0 (map Result.MessagesPublished l)).
Proof.
  unfold sumPublished.
  assert (G : forall l a,
    fold_left (fun s r => int_add s (Result.MessagesPublished r)) l (wrap a) =
    wrap (a + fold_right Z.add 0 (map Result.MessagesPublished l))).
  { clear l. induction l as [|r l IH]; intros a; simpl.
    - rewrite Z.add_0_r. reflexivity.
    - unfold int_add at 2. rewrite wrap_add_l, IH. f_equal. lia. }
  change 0 with (wrap 0) at 1. rewrite G. reflexivity.
Qed.

Lemma sum_perm (l l' : list Z) :
  Permutation l l' -> fold_right Z.add 0 l = fold_right Z.add 0 l'.
Proof. induction 1; simpl; lia. Qed.

Lemma count_perm {A} (p : A -> bool) (l l' : list A) :
  Permutation l l' -> count p l = count p l'.
Proof.
  induction 1 as [|x l l' P IH|x y l|l l' l'' P1 IH1 P2 IH2].
  - reflexivity.
  - rewrite !count_cons, IH. reflexivity.
  - rewrite !count_cons. lia.
  - congruence.
Qed.

Lemma filter_perm {A} (p : A -> bool) (l l' : list A) :
  Permutation l l' -> Permutation (filter p l) (filter p l').
Proof.
  induction 1 as [|x l l' P IH|x y l|l l' l'' P1 IH1 P2 IH2]; simpl.
  - constructor.
  - destruct (p x); [constructor|]; exact IH.
  - destruct (p x), (p y); try reflexivity. apply perm_swap.
  - eapply Permutation_trans; eassumption.
Qed.

(** The workers report in the order in which they finish.  A summary does
    not depend on that order: for the same results in another order
    [buildSummary] returns a summary too, with the same counters, totals
    and error rate and with the same samples. *)
Theorem buildSummary_order_independent {F : Type} `{Float64 F}
  (nClient nMessages : Z) (results results' : list Result.t)
  (s : Summary.t F) :
  Permutation results results' ->
  len results <= max_int ->
  buildSummary nClient nMessages results = Some (s, None) ->
  exists s',
    buildSummary nClient nMessages results' = Some (s', None) /\
    Summary.Clients s' = Summary.Clients s /\
    Summary.TotalMessages s' = Summary.TotalMessages s /\
    Summary.MessagesPublished s' = Summary.MessagesPublished s /\
    Summary.Errors s' = Summary.Errors s /\
    Summary.ErrorRate s' = Summary.ErrorRate s /\
    Summary.Completed s' = Summary.Completed s /\
    Summary.InProgress s' = Summary.InProgress s /\
    Summary.ConnectFailed s' = Summary.ConnectFailed s /\
    Summary.TimeoutExceeded s' = Summary.TimeoutExceeded s /\
    Summary.Aborted s' = Summary.Aborted s /\
    Permutation (Summary.PublishPerformance s')
                (Summary.PublishPerformance s).
Proof.
  intros P Hl Hs.
  assert (Hl' : len results' <= max_int).
  { unfold len in *. rewrite <- (Permutation_length P). exact Hl. }
  destruct (existsb eligible results) eqn:He.
  - assert (He' : existsb eligible results' = true).
    { apply count_pos_existsb. rewrite <- (count_perm eligible _ _ P).
      apply count_pos_existsb. exact He. }
    rewrite (buildSummary_feasible nClient nMessages results (f64_of_int 0)
               Hl He) in Hs.
    injection Hs as <-.
    rewrite (buildSummary_feasible nClient nMessages results' (f64_of_int 0)
               Hl' He').
    eexists. split; [reflexivity|].
    cbn [summaryOf Summary.Clients Summary.TotalMessages
         Summary.MessagesPublished Summary.Errors Summary.ErrorRate
         Summary.Completed Summary.InProgress Summary.ConnectFailed
         Summary.TimeoutExceeded Summary.Aborted Summary.PublishPerformance].
    rewrite !(count_perm _ _ _ P).
    repeat (split; [reflexivity|]).
    split.
    { rewrite !sumPublished_wrap. f_equal. apply sum_perm.
      apply Permutation_map. apply Permutation_sym. exact P. }
    repeat (split; [reflexivity|]).
    rewrite !Float64s_perm. apply Permutation_map, filter_perm.
    apply Permutation_sym. exact P.
  - destruct results as [|r0 l].
    + rewrite buildSummary_empty in Hs. discriminate.
    + rewrite (buildSummary_infeasible nClient nMessages (r0 :: l)) in Hs
        by (auto; discriminate).
      discriminate.
Qed.

Lemma buildSummary_order_independent_witness :
  exists s' : Summary.t float,
    buildSummary 3 10 (List.rev scenario) = Some (s', None) /\
    Summary.MessagesPublished s' = 20 /\
    Summary.ConnectFailed s' = 1.
Proof.
  destruct (buildSummary_order_independent (F:=float) 3 10 scenario
              (List.rev scenario) scenarioSummary)
    as (s' & E & _ & _ & M & _ & _ & _ & _ & C & _).
  - apply Permutation_rev.
  - vm_compute. discriminate.
  - vm_compute. reflexivity.
  - exists s'. auto.
Defined.

(** ** buildHistogram at binary64: an instance *)

Lemma histogram_buckets_binary64_witness :
  exists hist,
    buildHistogram [5; 6; 10]%float 3 = Some hist /\
    map fst hist = [5.5; 6.5; 10.5]%float /\
    Forall (fun k => 1 <= samplesIn [5; 6; 10]%float 0%float k)
           (map fst hist) /\
    fold_right Z.add 0
      (map (samplesIn [5; 6; 10]%float 0%float) (map fst hist)) = 3.
Proof.
  eexists. split; [vm_compute; reflexivity|].
  split; [reflexivity|].
  destruct (histogram_buckets_binary64 [5; 6; 10]%float 3 _
              ltac:(vm_compute; discriminate) eq_refl) as (_ & P & E).
  split; [exact P | exact E].
Defined.

(** ** buildSummary: the histogram of a summary *)

(** [buildSummary] hands [buildHistogram] the sorted samples and
    Completed + InProgress, which is their number.  So in every summary
    that it returns at binary64 the histogram is not empty and has no
    more entries than there are samples; its keys are strictly
    increasing and its values non-decreasing in that order; and its last
    value is a finite number within 2^-45 of 1. *)
Theorem buildSummary_histogram_cumulative (nClient nMessages : Z)
  (results : list Result.t) (s : Summary.t float) :
  len results <= max_int ->
  buildSummary nClient nMessages results = Some (s, None) ->
  let hist := Summary.PublishPerformanceHistogram s in
  hist <> [] /\
  (List.length hist <= List.length (Summary.PublishPerformance s))%nat /\
  StronglySorted (fun a b => PrimFloat.ltb a b = true) (map fst hist) /\
  StronglySorted (fun a b => PrimFloat.leb a b = true) (map snd hist) /\
  (exists q, exactValue (last (map snd hist) 0%float) = Some q /\
             (Qabs (q - 1) <= 1 # 2 ^ 45)%Q).
Proof.
  intros Hl Hs hist.
  destruct (existsb eligible results) eqn:He.
  - pose proof Hs as Hs'.
    rewrite (buildSummary_feasible nClient nMessages results 0%float Hl He)
      in Hs'.
    injection Hs' as Es.
    set (pp := GoSort.Float64s (map sample (filter eligible results))) in *.
    assert (Eh : hist = histogramOf pp (count eligible results) 0%float).
    { unfold hist. rewrite <- Es. reflexivity. }
    assert (Ep : Summary.PublishPerformance s = pp).
    { rewrite <- Es. reflexivity. }
    assert (Hlen : len pp = count eligible results).
    { unfold pp, len, count, len. rewrite Float64s_length, length_map.
      reflexivity. }
    pose proof (count_bounds eligible results) as Hb.
    assert (Hc : 0 < count eligible results)
      by (apply count_pos_existsb; exact He).
    assert (Hne : pp <> []).
    { intros E. rewrite E in Hlen. unfold len in Hlen. simpl in Hlen. lia. }
    destruct (histogramOf_binary64 pp (count eligible results) Hne
                ltac:(lia) ltac:(lia)) as (K & Sd & Lq & Pk).
    destruct (histogram_buckets pp (count eligible results) 0%float
                ltac:(lia)) as (_ & P1 & _ & Esum).
    rewrite Eh, Ep. split; [|split; [|repeat split; assumption]].
    + intros C. rewrite C in Esum. simpl in Esum. lia.
    + rewrite <- (length_map fst).
      assert (Z.of_nat (List.length
                (map fst (histogramOf pp (count eligible results) 0%float)))
              <= len pp); [|unfold len in *; lia].
      rewrite <- Esum.
      set (ks := map fst (histogramOf pp (count eligible results) 0%float))
        in *.
      clear - P1. induction P1 as [|k ks Hk _ IH]; simpl List.length;
        [simpl; lia|].
      cbn [map fold_right]. lia.
  - destruct results as [|r0 l].
    + rewrite buildSummary_empty in Hs. discriminate.
    + rewrite (buildSummary_infeasible nClient nMessages (r0 :: l)) in Hs
        by (auto; discriminate).
      discriminate.
Qed.

Lemma buildSummary_histogram_cumulative_witness :
  Summary.PublishPerformanceHistogram scenarioSummary =
    [(5.5, 0.5); (10.5, 1)]%float /\
  StronglySorted (fun a b => PrimFloat.leb a b = true)
    (map snd (Summary.PublishPerformanceHistogram scenarioSummary)) /\
  (exists q,
     exactValue
       (last (map snd (Summary.PublishPerformanceHistogram scenarioSummary))
             0%float) = Some q /\
     (Qabs (q - 1) <= 1 # 2 ^ 45)%Q).
Proof.
  split; [vm_compute; reflexivity|].
  destruct (buildSummary_histogram_cumulative 3 10 scenario scenarioSummary)
    as (_ & _ & _ & Sd & Lq).
  - vm_compute. discriminate.
  - vm_compute. reflexivity.
  - split; assumption.
Defined.

(** ** buildSummary: a NaN sample *)

Lemma IsNaN_nan (x : float) : IsNaN x = true -> Prim2SF x = S754_nan.
Proof.
  unfold IsNaN. cbn [f64_eq binary64]. rewrite negb_true_iff.
  intros E. apply rank_nan. fold (frank x).
  destruct (Z.eq_dec (fst (frank x)) (-3)) as [R|R]; [exact R|].
  apply notnan_frank in R. congruence.
Qed.

Lemma add_nan_l (x y : float) :
  Prim2SF x = S754_nan -> Prim2SF (x + y)%float = S754_nan.
Proof. intros E. rewrite FloatAxioms.add_spec, E. reflexivity. Qed.

Lemma leb_nan_l (x y : float) :
  Prim2SF x = S754_nan -> (x <=? y)%float = false.
Proof. intros E. rewrite FloatAxioms.leb_spec, E. reflexivity. Qed.

(** With a NaN as the first sample no interval contains any sample: every
    sample gets the key 0. *)
Lemma bucketKey_NaN (slowest steps v : float) :
  IsNaN slowest = true -> bucketKey slowest steps v = 0%float.
Proof.
  intros Hn. apply IsNaN_nan in Hn.
  destruct (bucketKey_last_match slowest steps v)
    as [[E _]|(i & _ & Mi & _)]; [exact E|].
  unfold inInterval in Mi. cbn [f64_le f64_add binary64] in Mi.
  rewrite (leb_nan_l _ v (add_nan_l slowest _ Hn)) in Mi. discriminate.
Qed.

Lemma countBuckets_NaN (slowest steps : float) (l : list float) :
  IsNaN slowest = true ->
  Forall (fun k => k = 0%float) (GoMap.keys (countBuckets slowest steps l)).
Proof.
  intros Hn. induction l as [|x l IH] using rev_ind; [constructor|].
  rewrite countBuckets_snoc. apply keys_set; [exact IH|].
  apply bucketKey_NaN. exact Hn.
Qed.

Lemma histogramOf_NaN (series : list float) (total : Z) :
  series <> [] ->
  len series <= max_int ->
  IsNaN (nth 0 series 0%float) = true ->
  exists c, histogramOf series total 0%float = [(0%float, c)].
Proof.
  intros Hs Hl Hn.
  destruct (histogram_buckets series total 0%float Hl) as (K & _ & _ & E).
  pose proof (len_pos series Hs) as Hp.
  assert (Hz : Forall (fun k => k = 0%float)
                      (map fst (histogramOf series total 0%float))).
  { rewrite histogramOf_cumulative, cumulative_keys.
    apply (Permutation_Forall (Permutation_sym (Float64s_perm _))).
    apply countBuckets_NaN. exact Hn. }
  destruct (histogramOf series total 0%float) as [|[k c] [|[k' c'] h]].
  - simpl in E. lia.
  - apply Forall_inv in Hz. simpl in Hz. subst k.
    exists c. reflexivity.
  - exfalso. pose proof (Forall_inv Hz) as Ek.
    pose proof (Forall_inv (Forall_inv_tail Hz)) as Ek'.
    simpl in Ek, Ek'. subst k k'.
    simpl in K. apply StronglySorted_inv in K. destruct K as [_ Hlt].
    apply Forall_inv in Hlt. vm_compute in Hlt. discriminate.
Qed.

(** A NaN sample, as a result with no message published in no time
    gives (0/0), wrecks the histogram of the summary: [sort.Float64s]
    puts the NaN first, it becomes the slowest sample and the bucket
    width, no interval contains any sample, and the histogram is the
    single entry of key 0. *)
Theorem buildSummary_NaN_sample (nClient nMessages : Z)
  (results : list Result.t) (s : Summary.t float) (r : Result.t) :
  len results <= max_int ->
  buildSummary nClient nMessages results = Some (s, None) ->
  In r results -> eligible r = true -> IsNaN (sample (F:=float) r) = true ->
  IsNaN (nth 0 (Summary.PublishPerformance s) 0%float) = true /\
  exists c, Summary.PublishPerformanceHistogram s = [(0%float, c)].
Proof.
  intros Hl Hs Hr He Hn.
  assert (Hex : existsb eligible results = true).
  { apply existsb_exists. exists r. auto. }
  pose proof Hs as Hs'.
  rewrite (buildSummary_feasible nClient nMessages results 0%float Hl Hex)
    in Hs'.
  injection Hs' as Es.
  set (pp := GoSort.Float64s (map sample (filter eligible results))) in *.
  assert (Ep : Summary.PublishPerformance s = pp) by (rewrite <- Es; reflexivity).
  assert (Eh : Summary.PublishPerformanceHistogram s =
               histogramOf pp (count eligible results) 0%float)
    by (rewrite <- Es; reflexivity).
  assert (Hin : In (sample r) pp).
  { apply (Permutation_in _ (Permutation_sym (Float64s_perm _))).
    apply in_map. apply filter_In. auto. }
  assert (Hfirst : IsNaN (nth 0 pp 0%float) = true).
  { pose proof (ascending_first pp 0%float (Float64s_ascending _)) as Hf.
    rewrite Forall_forall in Hf. specialize (Hf _ Hin).
    unfold GoSort.Less in Hf. rewrite Hn in Hf.
    apply orb_false_iff in Hf. destruct Hf as [_ Hf].
    simpl in Hf. apply negb_false_iff in Hf. exact Hf. }
  assert (Hlen : len pp = count eligible results).
  { unfold pp, len, count, len. rewrite Float64s_length, length_map.
    reflexivity. }
  pose proof (count_bounds eligible results) as Hb.
  assert (Hne : pp <> []).
  { intros E. rewrite E in Hin. destruct Hin. }
  rewrite Ep, Eh. split; [exact Hfirst|].
  apply histogramOf_NaN; [exact Hne | lia | exact Hfirst].
Qed.

Lemma buildSummary_NaN_sample_witness :
  exists s c,
    buildSummary (F:=float) 2 10
      [ Result.mk 0 CompletedEvent 0 0 false None;
        Result.mk 1 CompletedEvent (2 * Second) 10 false None ]
      = Some (s, None) /\
    Summary.PublishPerformanceHistogram s = [(0%float, c)].
Proof.
  eexists.
  match goal with
  | |- exists c, buildSummary ?n ?m ?rs = Some (?s, None) /\ _ =>
      assert (E : buildSummary (F:=float) n m rs = Some (s, None))
        by (vm_compute; reflexivity);
      destruct (buildSummary_NaN_sample n m rs s
                  (Result.mk 0 CompletedEvent 0 0 false None))
        as (_ & c & Ec)
  end.
  - vm_compute. discriminate.
  - exact E.
  - left. reflexivity.
  - reflexivity.
  - vm_compute. reflexivity.
  - exists c. split; [exact E | exact Ec].
Defined.

(** ** buildHistogram: the number of buckets *)

(** [buildHistogram] never returns more than twelve entries, although it
    is written for ten buckets: every key is the zero value (for a sample
    that no interval contains) or the upper bound of one of the eleven
    intervals that the scan visits. *)
Theorem buildHistogram_at_most_12 {F : Type} `{Float64Laws F}
  (series : list F) (total : Z) (hist : list (F * F)) (d : F) :
  len series <= max_int ->
  buildHistogram series total = Some hist ->
  (List.length hist <= 12)%nat /\
  Forall (fun k => In k (candidates (nth 0 series d) (stepsOf series d)))
         (map fst hist).
Proof.
  intros Hl Hb. destruct series as [|x l]; [discriminate|].
  rewrite (buildHistogram_nonempty (x :: l) total d) in Hb
    by (auto; discriminate).
  injection Hb as <-.
  rewrite <- (length_map fst), histogramOf_cumulative, cumulative_keys.
  unfold bucketCountOf.
  pose proof (Float64s_perm
                (GoMap.keys (countBuckets (nth 0 (x :: l) d)
                               (stepsOf (x :: l) d) (x :: l)))) as P.
  split.
  - rewrite Float64s_length. apply countBuckets_at_most_12.
  - apply (Permutation_Forall (Permutation_sym P)).
    apply countBuckets_candidates.
Qed.

Lemma buildHistogram_at_most_12_witness :
  exists hist,
    buildHistogram [5; 10]%float 2 = Some hist /\
    (List.length hist <= 12)%nat /\
    Forall (fun k => In k (candidates 5%float 0.5%float)) (map fst hist).
Proof.
  eexists. split; [vm_compute; reflexivity|].
  exact (buildHistogram_at_most_12 [5; 10]%float 2 _ 0%float
           ltac:(vm_compute; discriminate) eq_refl).
Defined.

(** ** printHistogram and printSummary *)

Section PrintFacts.
Context {F : Type} `{Float64Laws F}.

Lemma lessKey_Less (a b : F * F) :
  f64_eq (fst a) (fst a) = true -> lessKey a b = GoSort.Less (fst a) (fst b).
Proof.
  intros Ha. unfold lessKey, GoSort.Less, IsNaN. rewrite Ha. simpl.
  rewrite orb_false_r. reflexivity.
Qed.

Lemma insertEntry_perm e l : Permutation (insertEntry e l) (e :: l).
Proof.
  induction l as [|y l IH]; simpl; [reflexivity|].
  destruct (lessKey e y); [reflexivity|].
  rewrite IH. apply perm_swap.
Qed.

Lemma sortSlice_perm l : Permutation (sortSlice l) l.
Proof.
  induction l as [|x l IH]; simpl; [reflexivity|].
  rewrite insertEntry_perm. constructor. exact IH.
Qed.

Lemma insertEntry_sorted e l :
  f64_eq (fst e) (fst e) = true ->
  Forall (fun x => f64_eq (fst x) (fst x) = true) l ->
  StronglySorted (fun a b => lessKey b a = false) l ->
  StronglySorted (fun a b => lessKey b a = false) (insertEntry e l).
Proof.
  intros He Hl. induction l as [|y l IH]; simpl; intros HS.
  - repeat constructor.
  - inversion HS as [|? ? HS' Hy]; subst.
    inversion Hl as [|? ? Ny Nl]; subst.
    destruct (lessKey e y) eqn:E.
    + rewrite lessKey_Less in E by exact He.
      constructor; [exact HS|]. constructor.
      * rewrite lessKey_Less by exact Ny. apply Less_asym. exact E.
      * rewrite Forall_forall in *. intros z Hz.
        rewrite lessKey_Less by (apply Nl; exact Hz).
        apply Less_negtrans with (fst y).
        -- rewrite <- lessKey_Less by (apply Nl; exact Hz). apply Hy. exact Hz.
        -- apply Less_asym. exact E.
    + constructor; [apply IH; assumption|].
      rewrite Forall_forall in *. intros z Hz.
      apply (Permutation_in _ (insertEntry_perm e l)) in Hz.
      destruct Hz as [<-|Hz]; [exact E | apply Hy; exact Hz].
Qed.

Lemma sortSlice_sorted l :
  Forall (fun x => f64_eq (fst x) (fst x) = true) l ->
  StronglySorted (fun a b => lessKey b a = false) (sortSlice l).
Proof.
  induction 1 as [|x l Hx Hl IH]; simpl; [constructor|].
  apply insertEntry_sorted; [exact Hx| |exact IH].
  apply (Permutation_Forall (Permutation_sym (sortSlice_perm l))). exact Hl.
Qed.

(** Entries in strictly increasing key order have one sorted order. *)
Lemma sorted_by_key_unique (l1 l2 : list (F * F)) :
  StronglySorted (fun a b => lessKey a b = true) l1 ->
  StronglySorted (fun a b => lessKey b a = false) l2 ->
  Permutation l1 l2 -> l1 = l2.
Proof.
  intros S1. revert l2.
  induction S1 as [|x t1 S1 IH Hx]; intros l2 S2 P.
  - apply Permutation_nil in P. congruence.
  - destruct l2 as [|y t2].
    { apply Permutation_sym, Permutation_nil in P. discriminate. }
    inversion S2 as [|? ? S2' Hy]; subst.
    assert (E : x = y).
    { assert (Hxin : In x (y :: t2))
        by (apply (Permutation_in _ P); left; reflexivity).
      assert (Hyin : In y (x :: t1))
        by (apply (Permutation_in _ (Permutation_sym P)); left; reflexivity).
      destruct Hxin as [->|Hxin]; [reflexivity|].
      destruct Hyin as [->|Hyin]; [reflexivity|].
      rewrite Forall_forall in Hx, Hy.
      specialize (Hx y Hyin). specialize (Hy x Hxin). congruence. }
    subst y. f_equal. apply IH; [exact S2'|].
    apply Permutation_cons_inv with x. exact P.
Qed.

Lemma histogram_keys_notnan (series : list F) (total : Z) (d : F) :
  Forall (fun k => f64_eq k k = true) (map fst (histogramOf series total d)).
Proof.
  rewrite histogramOf_cumulative, cumulative_keys.
  apply (Permutation_Forall (Permutation_sym (Float64s_perm _))).
  apply countBuckets_notnan.
Qed.

Lemma StronglySorted_map_fst (R : F -> F -> Prop) (l : list (F * F)) :
  StronglySorted R (map fst l) ->
  StronglySorted (fun a b => R (fst a) (fst b)) l.
Proof.
  induction l as [|x l IH]; simpl; intros HS; [constructor|].
  inversion HS as [|? ? HS' Hx]; subst. constructor; [apply IH; exact HS'|].
  rewrite Forall_forall in *. intros y Hy. apply Hx. apply in_map. exact Hy.
Qed.

(** Whatever the order in which [range] visits the map that
    [buildHistogram] returned, [printHistogram] prints the same lines: one
    for every bucket, in strictly increasing order of the keys. *)
Theorem printHistogram_order (series : list F) (total : Z)
  (hist order : list (F * F)) :
  len series <= max_int ->
  buildHistogram series total = Some hist ->
  Permutation order hist ->
  printHistogram order = map histogramLine hist /\
  StronglySorted (fun a b => f64_lt a b = true) (map fst hist).
Proof.
  intros Hl Hb P. destruct series as [|x l]; [discriminate|].
  rewrite (buildHistogram_nonempty (x :: l) total x) in Hb
    by (auto; discriminate).
  injection Hb as <-.
  destruct (histogram_buckets (x :: l) total x Hl) as (K & _).
  split; [|exact K].
  unfold printHistogram. fold histogramLine. f_equal. symmetry.
  apply sorted_by_key_unique.
  - apply StronglySorted_map_fst in K. exact K.
  - apply sortSlice_sorted.
    apply (Permutation_Forall (Permutation_sym P)).
    pose proof (histogram_keys_notnan (x :: l) total x) as N.
    rewrite Forall_forall in *. intros e He. apply N. apply in_map. exact He.
  - eapply Permutation_trans; [apply Permutation_sym; exact P|].
    apply Permutation_sym. apply sortSlice_perm.
Qed.

End PrintFacts.

Lemma printHistogram_order_witness :
  printHistogram [(10.5, 1); (5.5, 0.5)]%float =
  map histogramLine [(5.5, 0.5); (10.5, 1)]%float.
Proof.
  apply (printHistogram_order [5; 10]%float 2).
  - vm_compute. discriminate.
  - vm_compute. reflexivity.
  - apply perm_swap.
Defined.

Section PrintSummaryFacts.
Context {F : Type} `{Float64 F}.

Lemma printSummaryIn_samples (summary : Summary.t F)
  (histogram : list (F * F)) (d : F) :
  let series := Summary.PublishPerformance summary in
  len series <= max_int ->
  series <> [] ->
  printSummaryIn summary histogram =
  (printCounts summary ++
   [ Printf "Fastest: %.0f msg/sec\n"
            [ArgFloat (nth (List.length series - 1) series d)];
     Printf "Slowest: %.0f msg/sec\n" [ArgFloat (nth 0 series d)];
     Printf "Median: %.0f msg/sec\n"
            [ArgFloat (Summary.PublishPerformanceMedian summary)];
     Println ] ++
   printHistogram histogram ++ [ Println ],
   Returns tt).
Proof.
  intros series Hl Hne. unfold printSummaryIn. fold series.
  pose proof (len_pos series Hne) as Hp.
  rewrite (len_pred series Hne Hl).
  rewrite (index_nth series (len series - 1) d) by lia.
  rewrite (index_nth series 0 d) by lia.
  replace (Z.to_nat (len series - 1)) with (List.length series - 1)%nat
    by (unfold len; lia).
  reflexivity.
Qed.

(** [printSummary] panics with an index out of range exactly when the
    summary has no sample, after it has printed the counts; with samples
    it returns, having printed the counts, the last sample as the
    fastest, the first as the slowest, the median and the histogram. *)
Theorem printSummary_panics_iff_no_samples (summary : Summary.t F)
  (histogram : list (F * F)) (d : F) :
  let series := Summary.PublishPerformance summary in
  len series <= max_int ->
  (series = [] ->
   printSummaryIn summary histogram = (printCounts summary, Panics ErrIndex)) /\
  (series <> [] ->
   printSummaryIn summary histogram =
   (printCounts summary ++
    [ Printf "Fastest: %.0f msg/sec\n"
             [ArgFloat (nth (List.length series - 1) series d)];
      Printf "Slowest: %.0f msg/sec\n" [ArgFloat (nth 0 series d)];
      Printf "Median: %.0f msg/sec\n"
             [ArgFloat (Summary.PublishPerformanceMedian summary)];
      Println ] ++
    printHistogram histogram ++ [ Println ],
    Returns tt)).
Proof.
  intros series Hl. split.
  - unfold printSummaryIn. fold series. intros ->. reflexivity.
  - intros Hne. apply printSummaryIn_samples; assumption.
Qed.

(** [printSummary] panics exactly on the summaries that [buildSummary]
    returns together with an error. *)
Theorem printSummary_after_buildSummary (nClient nMessages : Z)
  (results : list Result.t) (s : Summary.t F) (err : option error)
  (histogram : list (F * F)) :
  len results <= max_int ->
  buildSummary nClient nMessages results = Some (s, err) ->
  (err = None -> snd (printSummaryIn s histogram) = Returns tt) /\
  (err <> None -> snd (printSummaryIn s histogram) = Panics ErrIndex).
Proof.
  intros Hl Hs.
  destruct (existsb eligible results) eqn:He.
  - rewrite (buildSummary_feasible nClient nMessages results (f64_of_int 0)
               Hl He) in Hs.
    injection Hs as <- <-. split; [|congruence]. intros _.
    set (s := summaryOf _ _ _ _ _).
    assert (Hlen : len (Summary.PublishPerformance s) = count eligible results).
    { unfold s, len, count, len. cbn [summaryOf Summary.PublishPerformance].
      rewrite Float64s_length, length_map. reflexivity. }
    pose proof (count_bounds eligible results) as Hb.
    apply count_pos_existsb in He.
    rewrite (printSummaryIn_samples s histogram (f64_of_int 0));
      [reflexivity | lia |].
    intros E. rewrite E in Hlen. unfold len in Hlen. simpl in Hlen. lia.
  - assert (Hz : s = Summary_zero /\ err <> None).
    { destruct results as [|r0 l].
      - rewrite buildSummary_empty in Hs. injection Hs as <- <-.
        split; [reflexivity | discriminate].
      - rewrite (buildSummary_infeasible nClient nMessages (r0 :: l)) in Hs
          by (auto; discriminate).
        injection Hs as <- <-. split; [reflexivity | discriminate]. }
    destruct Hz as [-> Hn]. split; [congruence|]. intros _. reflexivity.
Qed.

(** [printSummary] never reads the Aborted counter and the error rate of
    the summary: the line labelled Aborted, printed when there are
    errors, shows the InProgress counter and its percentage of the
    clients. *)
Theorem printSummary_ignores_Aborted (summary : Summary.t F)
  (histogram : list (F * F)) (aborted : Z) (errorRate : F) :
  printSummaryIn
    {| Summary.Clients := Summary.Clients summary;
       Summary.TotalMessages := Summary.TotalMessages summary;
       Summary.MessagesPublished := Summary.MessagesPublished summary;
       Summary.Errors := Summary.Errors summary;
       Summary.ErrorRate := errorRate;
       Summary.Completed := Summary.Completed summary;
       Summary.InProgress := Summary.InProgress summary;
       Summary.ConnectFailed := Summary.ConnectFailed summary;
       Summary.TimeoutExceeded := Summary.TimeoutExceeded summary;
       Summary.Aborted := aborted;
       Summary.PublishPerformance := Summary.PublishPerformance summary;
       Summary.PublishPerformanceMedian :=
         Summary.PublishPerformanceMedian summary;
       Summary.PublishPerformanceHistogram :=
         Summary.PublishPerformanceHistogram summary |} histogram =
  printSummaryIn summary histogram /\
  (0 < Summary.Errors summary ->
   In (Printf "- Aborted:            %d (%.0f%%)\n"
              [ArgInt (Summary.InProgress summary);
               ArgFloat (percent (Summary.InProgress summary)
                                 (Summary.Clients summary))])
      (fst (printSummaryIn summary histogram))).
Proof.
  split; [reflexivity|].
  intros He.
  assert (Hc : In (Printf "- Aborted:            %d (%.0f%%)\n"
                     [ArgInt (Summary.InProgress summary);
                      ArgFloat (percent (Summary.InProgress summary)
                                        (Summary.Clients summary))])
                  (printCounts summary)).
  { unfold printCounts. apply in_or_app. right. apply in_or_app. left.
    destruct (Z.ltb_spec 0 (Summary.Errors summary)); [|lia].
    right. right. left. reflexivity. }
  unfold printSummaryIn.
  destruct (index _ (int_add _ _)); [|exact Hc].
  destruct (index _ 0); cbn [fst]; apply in_or_app; left; exact Hc.
Qed.

End PrintSummaryFacts.

Lemma printSummary_panics_iff_no_samples_witness :
  printSummaryIn (F:=float) Summary_zero [] =
  (printCounts Summary_zero, Panics ErrIndex).
Proof.
  apply (printSummary_panics_iff_no_samples (F:=float) Summary_zero []
           0%float).
  - vm_compute. discriminate.
  - reflexivity.
Defined.

Lemma printSummary_after_buildSummary_witness :
  snd (printSummaryIn scenarioSummary
         (Summary.PublishPerformanceHistogram scenarioSummary)) = Returns tt.
Proof.
  apply (printSummary_after_buildSummary (F:=float) 3 10 scenario
           scenarioSummary None).
  - vm_compute. discriminate.
  - vm_compute. reflexivity.
  - reflexivity.
Defined.

(** The summary of the scenario with other values in the two fields that
    [printSummary] does not read. *)
Lemma printSummary_ignores_Aborted_witness :
  In (Printf "- Aborted:            %d (%.0f%%)\n"
             [ArgInt 0; ArgFloat (percent 0 3)])
     (fst (printSummaryIn scenarioSummary [])).
Proof.
  apply (printSummary_ignores_Aborted scenarioSummary [] 5 0%float).
  vm_compute. reflexivity.
Defined.

(** ** From the workers to the summary *)

Lemma count_none {A} (l : list A) : count (fun _ => false) l = 0.
Proof.
  induction l as [|x l IH]; [reflexivity|]. rewrite count_cons, IH.
  reflexivity.
Qed.

Lemma count_map {A B} (p : B -> bool) (f : A -> B) (l : list A) :
  count p (map f l) = count (fun x => p (f x)) l.
Proof.
  induction l as [|x l IH]; [reflexivity|].
  simpl map. rewrite !count_cons, IH. reflexivity.
Qed.

Lemma sent_regular (r : Worker.t * Env) :
  regular r -> sent (fst (Run (fst r) (snd r))) = [resultOf r].
Proof.
  intros [Hs HN]. destruct (Run_startsUp (fst r) (snd r) Hs HN) as [o ->].
  unfold resultOf. cbn [fst].
  change (sent (Connect o :: WaitTimeout (Worker.Timeout (fst r))
                  (ConnectWait (snd r)) :: ?t)) with (sent t).
  destruct (connectFailed (snd r)); [reflexivity|].
  rewrite sent_app, sent_iterations. reflexivity.
Qed.

Lemma outcomes_regular (runs : list (Worker.t * Env)) :
  Forall regular runs -> outcomes runs = map resultOf runs.
Proof.
  unfold outcomes. induction 1 as [|r l Hr Hl IH]; simpl; [reflexivity|].
  rewrite (sent_regular r Hr), IH. reflexivity.
Qed.

(** The workers and the summary together.  When every worker starts up,
    each of them contributes one result.  [buildSummary] returns a
    summary exactly when the connect check of some worker did not fire;
    it then counts these workers as completed and the others as errors,
    all of them ConnectFailed: a worker never reports TimeoutExceeded,
    Aborted or ProgressReport. *)
Theorem outcomes_summary {F : Type} `{Float64 F}
  (nClient nMessages : Z) (runs : list (Worker.t * Env)) :
  Forall regular runs ->
  len runs <= max_int ->
  let completes := fun r : Worker.t * Env => negb (connectFailed (snd r)) in
  len (outcomes runs) = len runs /\
  exists s err,
    buildSummary nClient nMessages (outcomes runs) = Some (s, err) /\
    (err = None <-> existsb completes runs = true) /\
    (err = None ->
     Summary.Completed s = count completes runs /\
     Summary.Errors s = len runs - count completes runs /\
     Summary.ConnectFailed s = Summary.Errors s /\
     Summary.TimeoutExceeded s = 0 /\
     Summary.Aborted s = 0 /\
     Summary.InProgress s = 0 /\
     len (Summary.PublishPerformance s) = count completes runs).
Proof.
  intros Hr Hl completes. rewrite (outcomes_regular runs Hr).
  assert (Hlen : len (map resultOf runs) = len runs).
  { unfold len. rewrite length_map. reflexivity. }
  split; [exact Hlen|].
  assert (El : forall r, eligible (resultOf r) = completes r).
  { intros r. unfold resultOf, completes.
    destruct (connectFailed (snd r)); reflexivity. }
  assert (Ee : existsb eligible (map resultOf runs) = existsb completes runs).
  { clear - El. induction runs as [|r l IH]; [reflexivity|].
    simpl. rewrite El, IH. reflexivity. }
  assert (Ec : forall p q,
    (forall r, p (resultOf r) = q r) ->
    count p (map resultOf runs) = count q runs).
  { intros p q Hpq. rewrite count_map. apply count_ext. exact Hpq. }
  assert (Hsplit : count (fun r => connectFailed (snd r)) runs =
                   len runs - count completes runs).
  { clear. induction runs as [|r l IH]; [reflexivity|].
    rewrite !count_cons, IH. unfold completes, len. cbn [List.length].
    rewrite Nat2Z.inj_succ. destruct (connectFailed (snd r)); cbn [negb]; lia. }
  destruct (existsb completes runs) eqn:Hc.
  - rewrite (buildSummary_feasible nClient nMessages (map resultOf runs)
               (f64_of_int 0)) by (rewrite ?Ee; auto; lia).
    eexists. eexists. split; [reflexivity|].
    split; [split; reflexivity|]. intros _.
    cbn [summaryOf Summary.Completed Summary.Errors Summary.ConnectFailed
         Summary.TimeoutExceeded Summary.Aborted Summary.InProgress
         Summary.PublishPerformance].
    rewrite (Ec (hasEvent CompletedEvent) completes).
    2:{ intros r. unfold resultOf, completes.
        destruct (connectFailed (snd r)); reflexivity. }
    rewrite (Ec Result.Error (fun r => connectFailed (snd r))).
    2:{ intros r. unfold resultOf.
        destruct (connectFailed (snd r)); reflexivity. }
    rewrite (Ec (errorWith ConnectFailedEvent)
                (fun r => connectFailed (snd r))).
    2:{ intros r. unfold resultOf.
        destruct (connectFailed (snd r)); reflexivity. }
    rewrite (Ec (errorWith TimeoutExceededEvent) (fun _ => false)).
    2:{ intros r. unfold resultOf.
        destruct (connectFailed (snd r)); reflexivity. }
    rewrite (Ec (errorWith AbortedEvent) (fun _ => false)).
    2:{ intros r. unfold resultOf.
        destruct (connectFailed (snd r)); reflexivity. }
    rewrite (Ec (hasEvent ProgressReportEvent) (fun _ => false)).
    2:{ intros r. unfold resultOf.
        destruct (connectFailed (snd r)); reflexivity. }
    rewrite !count_none, Hsplit.
    repeat (split; [reflexivity|]).
    unfold len. rewrite Float64s_length, length_map.
    fold (len (filter eligible (map resultOf runs))).
    fold (count eligible (map resultOf runs)).
    apply Ec. exact El.
  - destruct runs as [|r0 l].
    + rewrite buildSummary_empty. eexists. eexists.
      split; [reflexivity|]. split; [split; discriminate | discriminate].
    + rewrite (buildSummary_infeasible nClient nMessages
                 (map resultOf (r0 :: l)))
        by (rewrite ?Ee; auto; discriminate).
      eexists. eexists. split; [reflexivity|].
      split; [split; discriminate | discriminate].
Qed.

Lemma outcomes_summary_witness :
  len (outcomes [(worker2, envConnectTimeout); (worker3, envConnectTimeout)])
  = 2.
Proof.
  apply (outcomes_summary (F:=float) 2 3
           [(worker2, envConnectTimeout); (worker3, envConnectTimeout)]).
  - repeat constructor; try discriminate; vm_compute; discriminate.
  - vm_compute. discriminate.
Defined.
